(** * Wallet load-test harness: the two scripts and their properties

    A shallow embedding of [scripts/load_test_wallets.py] and
    [scripts/quick_load_test.py].  The scripts are clients of an external
    wallet service: what the service answers, what the random generator
    draws and what the clock shows are inputs of the model (an [Env]),
    and every statement below is quantified over them.

    Python floats are modelled as exact rationals ([Q]); the rounding
    error of IEEE arithmetic is outside the model, [round(x, 2)] is
    rounding to the nearest hundredth with ties to even.

    The file has three parts: the two scripts as programs of a state
    and exception monad; the vocabulary of the statements (histories,
    counters, the behaviours of one operation); the proofs, with the
    properties C1 to C10 of the specification and, after them, further
    properties of the code (X1 to X25). *)

From Stdlib Require Import ZArith QArith Qround Qminmax List String Lia Lqa.
From Stdlib Require Import Permutation Ascii DecimalString DecimalZ.
From stdpp Require Import gmap strings.
Import ListNotations.

Close Scope Q_scope.
Open Scope string_scope.

(** ** Python results: a value or a raised exception

    [except Exception] catches [Exception] only: [SystemExit] (raised by
    [sys.exit]) and [KeyboardInterrupt] pass through it. *)

Inductive Exn : Type :=
| Exception (what : string)
| SystemExit (code : Z)
| KeyboardInterrupt.

Inductive Res (X : Type) : Type :=
| Ok (x : X)
| Raise (e : Exn).
Arguments Ok {X} x.
Arguments Raise {X} e.

(** ** The wallet service as seen from the client *)

(** The success shape of [POST /wallets]: an object with a string
    [id], an [ownerId] and a [balance].  A reply of another shape is
    counted with the failed exchanges: in [load_test_wallets.py] the
    [KeyError] it causes is raised inside the same [try]. *)
Record WalletJson : Type := mkWallet {
  id : string;
  ownerId : string;
  balance : Q
}.

(** A request carries what the script puts on the wire; [A] is the
    script's type of amounts. *)
Inductive Request (A : Type) : Type :=
| PostWallets (key walletId owner : string) (initialBalance : A)
| PostCredit (key wallet_id : string) (amount : A) (description : string)
| PostDebit (key wallet_id : string) (amount : A) (description : string)
| PostTransfer (key from_wallet_id toWalletId : string) (amount : A)
               (description : string)
| GetWallet (wallet_id : string)
| GetLedger (wallet_id : string).
Arguments PostWallets {A}.
Arguments PostCredit {A}.
Arguments PostDebit {A}.
Arguments PostTransfer {A}.
Arguments GetWallet {A}.
Arguments GetLedger {A}.

(** What came back: a failure (connection error, timeout, non-2xx
    status: [raise_for_status] raises), or the decoded body. *)
Inductive Reply : Type :=
| Refused
| Accepted
| Created (w : WalletJson)
| WalletData (balance_field : option Q)
| LedgerData (count_field : option Z).

(** The observable history of a run: which operation kind was drawn,
    every HTTP exchange in the order it was made, and, of the console
    output, the lines of the verification report and the lines that
    announce how the run ends. *)
Inductive Event (A : Type) : Type :=
| Chose (op : string)
| Http (req : Request A) (resp : Reply)
| Console (line : string).
Arguments Chose {A}.
Arguments Http {A}.
Arguments Console {A}.

(** The environment of one run.  Every effect of the scripts consumes
    one instant [t]; the environment says what happens at [t]. *)
Record Env : Type := mkEnv {
  rand : nat -> Z;                         (* the generator's raw draw *)
  clock : nat -> Z;                        (* int(time.time() * 1000) *)
  wallets_reply : nat -> option WalletJson; (* POST /wallets *)
  post_reply : nat -> bool;                (* credit, debit, transfer *)
  wallet_reply : nat -> option (option Q); (* GET /wallets/{id}: balance *)
  ledger_reply : nat -> option (option Z); (* GET /ledger/wallet/{id}: count *)
  schedule : nat -> Z                      (* which worker finishes when *)
}.

(** ** The store and the monad of the scripts

    [stats] and [created_wallets] are the module-level globals of the
    scripts; [now] counts the effects made; [log] is the history. *)

Record State (St A W : Type) : Type := mkState {
  now : nat;
  stats : St;
  created_wallets : list W;
  log : list (Event A)
}.
Arguments mkState {St A W}.
Arguments now {St A W}.
Arguments stats {St A W}.
Arguments created_wallets {St A W}.
Arguments log {St A W}.

Definition Prog (St A W X : Type) : Type :=
  State St A W -> Res X * State St A W.

Section Runtime.
Context {St A W : Type}.
Local Abbreviation M := (Prog St A W).

Definition ret {X} (x : X) : M X := fun s => (Ok x, s).

Definition raise {X} (e : Exn) : M X := fun s => (Raise e, s).

Definition bind {X Y} (c : M X) (k : X -> M Y) : M Y :=
  fun s => match c s with
           | (Ok x, s') => k x s'
           | (Raise e, s') => (Raise e, s')
           end.

(** [try: body except Exception as e: handler] *)
Definition try_except {X} (body : M X) (handler : string -> M X) : M X :=
  fun s => match body s with
           | (Raise (Exception what), s') => handler what s'
           | r => r
           end.

Definition tick : M nat :=
  fun s => (Ok (now s),
            mkState (S (now s)) (stats s) (created_wallets s) (log s)).

Definition emit (e : Event A) : M unit :=
  fun s => (Ok tt,
            mkState (now s) (stats s) (created_wallets s) (log s ++ [e])).

Definition print (line : string) : M unit := emit (Console line).

(** [stats[...] += 1] and the like *)
Definition set_stats (f : St -> St) : M unit :=
  fun s => (Ok tt,
            mkState (now s) (f (stats s)) (created_wallets s) (log s)).

(** [created_wallets.append(w)] *)
Definition append_wallet (w : W) : M unit :=
  fun s => (Ok tt,
            mkState (now s) (stats s) (created_wallets s ++ [w]) (log s)).

(** A read of the global [created_wallets]. *)
Definition read_wallets : M (list W) :=
  fun s => (Ok (created_wallets s), s).

Definition read_stats : M St := fun s => (Ok (stats s), s).

(** [time.sleep]: pacing only. *)
Definition sleep (seconds : Q) : M unit := ret tt.

(** [sys.exit(code)] *)
Definition sys_exit {X} (code : Z) : M X := raise (SystemExit code).

(** [for x in xs: body(x)] *)
Fixpoint for_each {X} (xs : list X) (body : X -> M unit) : M unit :=
  match xs with
  | [] => ret tt
  | x :: rest => bind (body x) (fun _ => for_each rest body)
  end.
End Runtime.

Notation "'let*' x ':=' c 'in' k" := (bind c (fun x => k))
  (at level 10, x name, c at level 100, k at level 200).
Notation "c ';;;' k" := (bind c (fun _ => k))
  (at level 100, k at level 200, right associativity).

(** [range(n)]: empty when [n <= 0]. *)
Definition range (n : Z) : list Z := map Z.of_nat (seq 0 (Z.to_nat n)).

(** [str(n)] for an integer. *)
Definition str (n : Z) : string := NilZero.string_of_int (Z.to_int n).

(** The status the interpreter hands to the operating system when the
    script ends with [r]: 0 after a normal end, the code of an uncaught
    [SystemExit], 1 after any other uncaught exception (130 on POSIX
    for an uncaught [KeyboardInterrupt], which re-raises SIGINT). *)
Definition exit_status {X} (r : Res X) : Z :=
  match r with
  | Ok _ => 0
  | Raise (SystemExit code) => code
  | Raise (Exception _) => 1
  | Raise KeyboardInterrupt => 130
  end.

(** ** The [random] and [time] modules *)

Section Random.
Context {St A W : Type}.
Variable env : Env.
Local Abbreviation M := (Prog St A W).

(** A draw below [n], for [0 < n]. *)
Definition randbelow (n : Z) : M Z :=
  let* t := tick in ret (rand env t mod n)%Z.

(** [int(time.time() * 1000)] *)
Definition time_ms : M Z :=
  let* t := tick in ret (clock env t).

(** [random.randint(a, b)]: an integer of [a..b], both ends included. *)
Definition randint (a b : Z) : M Z :=
  let* r := randbelow (b - a + 1) in ret (a + r)%Z.

(** [random.choice(seq)]: [IndexError] on an empty sequence. *)
Definition choice {X} (xs : list X) : M X :=
  match xs with
  | [] => raise (Exception "IndexError")
  | x :: _ =>
      let* i := randbelow (Z.of_nat (length xs)) in
      ret (nth (Z.to_nat i) xs x)
  end.

(** [random.random()]: a multiple of 2^-53 in [0, 1). *)
Definition random : M Q :=
  let* r := randbelow (2 ^ 53) in ret (r # 2 ^ 53)%Q.

(** [random.uniform(a, b)] is [a + (b - a) * random()]. *)
Definition uniform (a b : Q) : M Q :=
  let* u := random in ret (a + (b - a) * u)%Q.

(** [random.sample(population, k)]: [k] positions drawn one at a time
    from those not drawn yet; [ValueError] when the population is
    smaller than [k].  The population itself is not touched: the draws
    are made on a copy. *)
Fixpoint sample {X} (pool : list X) (k : nat) : M (list X) :=
  match k with
  | O => ret []
  | S k' =>
      match pool with
      | [] => raise (Exception "ValueError")
      | x :: _ =>
          let* j := randbelow (Z.of_nat (length pool)) in
          let* rest := sample (delete (Z.to_nat j) pool) k' in
          ret (nth (Z.to_nat j) pool x :: rest)
      end
  end.
End Random.

(** ** Rounding

    [round(x, 2)]: the nearest multiple of 1/100, a tie going to the
    even one. *)

Definition round_half_even (q : Q) : Z :=
  let f := Qfloor q in
  match (q - inject_Z f ?= 1 # 2)%Q with
  | Lt => f
  | Gt => (f + 1)%Z
  | Eq => if Z.even f then f else (f + 1)%Z
  end.

Definition round2 (x : Q) : Q :=
  (inject_Z (round_half_even (x * 100)) / 100)%Q.

(** ** The HTTP client

    [requests.post(...)] or [requests.get(...)], then
    [response.raise_for_status()], then [response.json()]: one instant,
    one entry in the history, an exception when the exchange fails. *)

Section Client.
Context {St A W : Type}.
Variable env : Env.
Local Abbreviation M := (Prog St A W).

Definition http_error : Exn := Exception "RequestException".

(** [POST /wallets] *)
Definition post_wallets (req : Request A) : M WalletJson :=
  let* t := tick in
  match wallets_reply env t with
  | Some w => emit (Http req (Created w)) ;;; ret w
  | None => emit (Http req Refused) ;;; raise http_error
  end.

(** [POST /wallets/{id}/credit], [.../debit], [.../transfer] *)
Definition post (req : Request A) : M unit :=
  let* t := tick in
  if post_reply env t
  then emit (Http req Accepted)
  else emit (Http req Refused) ;;; raise http_error.

(** [GET /wallets/{id}]: the body's [balance] field, when it has one.
    A body whose balance is no number makes the caller's [float(...)]
    raise, which the caller handles like a failed exchange: both are
    the [None] reply. *)
Definition fetch_wallet (wallet_id : string) : M (option Q) :=
  let* t := tick in
  match wallet_reply env t with
  | Some body => emit (Http (GetWallet wallet_id) (WalletData body)) ;;; ret body
  | None => emit (Http (GetWallet wallet_id) Refused) ;;; raise http_error
  end.

(** [GET /ledger/wallet/{id}]: the body's [count] field, when it has
    one. *)
Definition fetch_ledger (wallet_id : string) : M (option Z) :=
  let* t := tick in
  match ledger_reply env t with
  | Some body => emit (Http (GetLedger wallet_id) (LedgerData body)) ;;; ret body
  | None => emit (Http (GetLedger wallet_id) Refused) ;;; raise http_error
  end.
End Client.

(** * [scripts/load_test_wallets.py] *)

Module LoadTestWallets.

Definition NUM_WALLETS : Z := 100.
Definition NUM_OPERATIONS : Z := 200.
Definition SLEEP_BETWEEN_OPS : Q := 1 # 10.

(** The [stats] dictionary: eight literal keys, never added to or
    removed from. *)
Record Stats : Type := mkStats {
  wallets_created : Z;
  wallets_failed : Z;
  credits_success : Z;
  credits_failed : Z;
  debits_success : Z;
  debits_failed : Z;
  transfers_success : Z;
  transfers_failed : Z
}.

Definition stats0 : Stats := mkStats 0 0 0 0 0 0 0 0.

(** [stats[key] += 1], key by key. *)
Definition incr_wallets_created (c : Stats) : Stats :=
  mkStats (wallets_created c + 1) (wallets_failed c) (credits_success c)
          (credits_failed c) (debits_success c) (debits_failed c)
          (transfers_success c) (transfers_failed c).
Definition incr_wallets_failed (c : Stats) : Stats :=
  mkStats (wallets_created c) (wallets_failed c + 1) (credits_success c)
          (credits_failed c) (debits_success c) (debits_failed c)
          (transfers_success c) (transfers_failed c).
Definition incr_credits_success (c : Stats) : Stats :=
  mkStats (wallets_created c) (wallets_failed c) (credits_success c + 1)
          (credits_failed c) (debits_success c) (debits_failed c)
          (transfers_success c) (transfers_failed c).
Definition incr_credits_failed (c : Stats) : Stats :=
  mkStats (wallets_created c) (wallets_failed c) (credits_success c)
          (credits_failed c + 1) (debits_success c) (debits_failed c)
          (transfers_success c) (transfers_failed c).
Definition incr_debits_success (c : Stats) : Stats :=
  mkStats (wallets_created c) (wallets_failed c) (credits_success c)
          (credits_failed c) (debits_success c + 1) (debits_failed c)
          (transfers_success c) (transfers_failed c).
Definition incr_debits_failed (c : Stats) : Stats :=
  mkStats (wallets_created c) (wallets_failed c) (credits_success c)
          (credits_failed c) (debits_success c) (debits_failed c + 1)
          (transfers_success c) (transfers_failed c).
Definition incr_transfers_success (c : Stats) : Stats :=
  mkStats (wallets_created c) (wallets_failed c) (credits_success c)
          (credits_failed c) (debits_success c) (debits_failed c)
          (transfers_success c + 1) (transfers_failed c).
Definition incr_transfers_failed (c : Stats) : Stats :=
  mkStats (wallets_created c) (wallets_failed c) (credits_success c)
          (credits_failed c) (debits_success c) (debits_failed c)
          (transfers_success c) (transfers_failed c + 1).

Local Abbreviation M := (Prog Stats Q WalletJson).
Local Abbreviation Store := (State Stats Q WalletJson).

(** The store at process start. *)
Definition start : Store := mkState 0 stats0 [] [].

Section Script.
Variable env : Env.

Definition generate_wallet_id : M string :=
  let* timestamp := time_ms env in
  let* random_suffix := randint env 1000 9999 in
  ret ("wallet-" ++ str timestamp ++ "-" ++ str random_suffix).

Definition generate_owner_id : M string :=
  let* n := randint env 1000 9999 in ret ("user-" ++ str n).

Definition generate_idempotency_key : M string :=
  let* timestamp := time_ms env in
  let* random_suffix := randint env 100000 999999 in
  ret ("idem-" ++ str timestamp ++ "-" ++ str random_suffix).

(** The five helpers print the error and re-raise it. *)
Definition create_wallet (wallet_id owner_id : string)
    (initial_balance : Q) : M WalletJson :=
  let* key := generate_idempotency_key in
  try_except
    (post_wallets env (PostWallets key wallet_id owner_id initial_balance))
    (fun e => raise (Exception e)).

Definition credit_wallet (wallet_id : string) (amount : Q)
    (description : string) : M unit :=
  let* key := generate_idempotency_key in
  try_except
    (post env (PostCredit key wallet_id amount description))
    (fun e => raise (Exception e)).

Definition debit_wallet (wallet_id : string) (amount : Q)
    (description : string) : M unit :=
  let* key := generate_idempotency_key in
  try_except
    (post env (PostDebit key wallet_id amount description))
    (fun e => raise (Exception e)).

Definition transfer_wallet (from_wallet_id to_wallet_id : string)
    (amount : Q) (description : string) : M unit :=
  let* key := generate_idempotency_key in
  try_except
    (post env (PostTransfer key from_wallet_id to_wallet_id amount
                 description))
    (fun e => raise (Exception e)).

Definition get_wallet (wallet_id : string) : M (option Q) :=
  try_except (fetch_wallet env wallet_id) (fun e => raise (Exception e)).

Definition get_ledger_entries (wallet_id : string) : M (option Z) :=
  try_except (fetch_ledger env wallet_id) (fun e => raise (Exception e)).

(** [percent = iteration / total] raises on a zero total; the rest is
    console output. *)
Definition print_progress_bar (iteration total : Z) : M unit :=
  if (total =? 0)%Z then raise (Exception "ZeroDivisionError") else ret tt.

(** [float(wallet_data.get("balance", 0))] *)
Definition current_balance_of (wallet_data : option Q) : Q :=
  match wallet_data with
  | Some b => b
  | None => 0%Q
  end.

(** Step 1, one turn of the loop. *)
Definition create_one (num_wallets i : Z) : M unit :=
  let* wallet_id := generate_wallet_id in
  let* owner_id := generate_owner_id in
  let* x := uniform env 100 10000 in
  let initial_balance := round2 x in
  try_except
    (let* wallet := create_wallet wallet_id owner_id initial_balance in
     append_wallet (mkWallet (id wallet) (ownerId wallet) (balance wallet)) ;;;
     set_stats incr_wallets_created ;;;
     print_progress_bar (i + 1) num_wallets ;;;
     sleep SLEEP_BETWEEN_OPS)
    (fun _ => set_stats incr_wallets_failed).

(** Step 3, one turn of the loop.  The branches answer [false] where
    the source says [continue], which skips the pause. *)
Definition credit_branch (num_operations i : Z) : M bool :=
  let* wallets := read_wallets in
  let* wallet := choice env wallets in
  let* x := uniform env 10 1000 in
  let amount := round2 x in
  credit_wallet (id wallet) amount ("Load test credit #" ++ str (i + 1)) ;;;
  set_stats incr_credits_success ;;;
  print_progress_bar (i + 1) num_operations ;;;
  ret true.

Definition debit_branch (num_operations i : Z) : M bool :=
  let* wallets := read_wallets in
  let* wallet := choice env wallets in
  let* wallet_data := get_wallet (id wallet) in
  let current_balance := current_balance_of wallet_data in
  let max_debit := Qmin (current_balance * (1 # 2)) 500 in
  (if Qlt_le_dec 10 max_debit
   then
     let* x := uniform env 10 max_debit in
     let amount := round2 x in
     debit_wallet (id wallet) amount ("Load test debit #" ++ str (i + 1)) ;;;
     set_stats incr_debits_success ;;;
     print_progress_bar (i + 1) num_operations
   else
     set_stats incr_debits_failed ;;;
     print_progress_bar (i + 1) num_operations) ;;;
  ret true.

Definition transfer_branch (num_operations i : Z) : M bool :=
  let* wallets := read_wallets in
  if (Z.of_nat (length wallets) <? 2)%Z
  then set_stats incr_transfers_failed ;;; ret false
  else
    let* from_wallet := choice env wallets in
    let* to_wallet :=
      choice env
        (List.filter (fun w => negb (String.eqb (id w) (id from_wallet)))
           wallets) in
    let* wallet_data := get_wallet (id from_wallet) in
    let current_balance := current_balance_of wallet_data in
    let max_transfer := Qmin (current_balance * (3 # 10)) 300 in
    (if Qlt_le_dec 10 max_transfer
     then
       let* x := uniform env 10 max_transfer in
       let amount := round2 x in
       transfer_wallet (id from_wallet) (id to_wallet) amount
         ("Load test transfer #" ++ str (i + 1)) ;;;
       set_stats incr_transfers_success ;;;
       print_progress_bar (i + 1) num_operations
     else
       set_stats incr_transfers_failed ;;;
       print_progress_bar (i + 1) num_operations) ;;;
    ret true.

Definition operation_failed (operation : string) : M unit :=
  if String.eqb operation "credit" then set_stats incr_credits_failed
  else if String.eqb operation "debit" then set_stats incr_debits_failed
  else if String.eqb operation "transfer" then set_stats incr_transfers_failed
  else ret tt.

(** The [try] block of the loop body and its handler. *)
Definition attempt (num_operations i : Z) (operation : string) : M unit :=
  try_except
    (let* pause :=
       if String.eqb operation "credit" then credit_branch num_operations i
       else if String.eqb operation "debit" then debit_branch num_operations i
       else if String.eqb operation "transfer"
            then transfer_branch num_operations i
       else ret true in
     if pause then sleep SLEEP_BETWEEN_OPS else ret tt)
    (fun _ => operation_failed operation).

Definition operation_kinds : list string := ["credit"; "debit"; "transfer"].

Definition one_operation (num_operations i : Z) : M unit :=
  let* operation := choice env operation_kinds in
  emit (Chose operation) ;;;
  attempt num_operations i operation.

(** Step 5: the ledger of a sample of the wallets. *)
Definition check_ledger (wallet : WalletJson) : M unit :=
  try_except
    (let* ledger := get_ledger_entries (id wallet) in
     let count := match ledger with Some c => c | None => 0%Z end in
     print ("   Wallet " ++ id wallet ++ ": " ++ str count ++ " ledger entries"))
    (fun e => print ("   Error getting ledger for " ++ id wallet ++ ": " ++ e)).

Definition verify : M unit :=
  let* wallets := read_wallets in
  let* sample_wallets :=
    sample env wallets (Z.to_nat (Z.min 5 (Z.of_nat (length wallets)))) in
  for_each sample_wallets check_ledger.

Definition create_wallets (num_wallets : Z) : M unit :=
  for_each (range num_wallets) (create_one num_wallets).

Definition run_operations (num_operations : Z) : M unit :=
  for_each (range num_operations) (one_operation num_operations).

Definition main_with (num_wallets num_operations : Z) : M unit :=
  create_wallets num_wallets ;;;
  let* c := read_stats in
  (if (wallets_created c =? 0)%Z
   then print "No wallets created. Exiting..." ;;; sys_exit 1
   else ret tt) ;;;
  sleep 10 ;;;
  run_operations num_operations ;;;
  sleep 10 ;;;
  verify.

(** What [main] prints after the verification, the final statistics,
    is console output only and is left out. *)
Definition main : M unit := main_with NUM_WALLETS NUM_OPERATIONS.

(** The [if __name__ == "__main__":] block around a call of [main]. *)
Definition dunder_main (main : M unit) : M unit :=
  fun s =>
    match main s with
    | (Raise KeyboardInterrupt, s') =>
        (print "Test interrupted by user" ;;; sys_exit 1) s'
    | (Raise (Exception e), s') =>
        (print ("Unexpected error: " ++ e) ;;; sys_exit 1) s'
    | r => r
    end.
End Script.

End LoadTestWallets.

(** * [scripts/quick_load_test.py] *)

Module QuickLoadTest.

(** [stats]: operation kind to its two counters. *)
Record Counter : Type := mkCounter {
  success : Z;
  failed : Z
}.

Definition stats0 : gmap string Counter :=
  <["wallets" := mkCounter 0 0]>
    (<["credit" := mkCounter 0 0]>
       (<["debit" := mkCounter 0 0]>
          (<["transfer" := mkCounter 0 0]> ∅))).

(** The parsed command line. *)
Record Args : Type := mkArgs {
  wallets : Z;
  operations : Z;
  fast : bool;
  workers : Z
}.

(** What [create_wallet] returns. *)
Inductive CreateResult : Type :=
| WalletCreated (data : WalletJson)
| WalletNotCreated (error wallet_id : string).

(** What [perform_operation] returns: the dictionary with the keys
    [success], [type] and, by case, [amount] or [error]. *)
Record OpResult : Type := mkResult {
  r_success : bool;
  r_type : string;
  r_amount : option Z;
  r_error : option string
}.

Local Abbreviation M := (Prog (gmap string Counter) Z string).
Local Abbreviation Store := (State (gmap string Counter) Z string).

Definition start : Store := mkState 0 stats0 [] [].

(** [stats[kind]["success"] += 1]: [KeyError] on an unknown kind. *)
Definition add_success (kind : string) : M unit :=
  let* st := read_stats in
  match st !! kind with
  | Some c => set_stats (fun _ => <[kind := mkCounter (success c + 1) (failed c)]> st)
  | None => raise (Exception "KeyError")
  end.

Definition add_failed (kind : string) : M unit :=
  let* st := read_stats in
  match st !! kind with
  | Some c => set_stats (fun _ => <[kind := mkCounter (success c) (failed c + 1)]> st)
  | None => raise (Exception "KeyError")
  end.

(** The capture file is outside the store; a write that fails is
    swallowed. *)
Definition write_cap (record : string) : M unit := ret tt.

(** A future: the task has run, its outcome is kept. *)
Definition submit {X} (task : M X) : M (Res X) :=
  fun s => let (r, s') := task s in (Ok r, s').

(** [future.result()] *)
Definition result {X} (future : Res X) : M X :=
  match future with
  | Ok x => ret x
  | Raise e => raise e
  end.

Section Script.
Variable env : Env.

Definition gen_id (prefix : string) : M string :=
  let* timestamp := time_ms env in
  let* suffix := randint env 1000 9999 in
  ret (prefix ++ "-" ++ str timestamp ++ "-" ++ str suffix).

(** [as_completed(futures)]: the futures in the order in which the
    workers finish, which the scheduler decides. *)
Fixpoint as_completed {X} (futures : list X) : M (list X) :=
  match futures with
  | [] => ret []
  | f :: rest =>
      let* later := as_completed rest in
      let* t := tick in
      let k := Z.to_nat (schedule env t mod (Z.of_nat (length later) + 1)) in
      ret (take k later ++ f :: drop k later)%list
  end.

(** [ThreadPoolExecutor(max_workers)] with the tasks submitted in
    order: [ValueError] unless [max_workers] is positive.  Each task is
    run as one step; how the workers interleave is not modelled. *)
Fixpoint submit_all {X} (tasks : list (M X)) : M (list (Res X)) :=
  match tasks with
  | [] => ret []
  | task :: rest =>
      let* f := submit task in
      let* fs := submit_all rest in
      ret (f :: fs)
  end.

Definition executor {X} (max_workers : Z) (tasks : list (M X))
    (collect : Res X -> M unit) : M unit :=
  if (max_workers <=? 0)%Z then raise (Exception "ValueError")
  else
    let* futures := submit_all tasks in
    let* done := as_completed futures in
    for_each done collect.

Definition create_wallet (idx : Z) : M CreateResult :=
  let* wallet_id := gen_id "wallet" in
  let* owner_id := gen_id "user" in
  let* initial_balance := randint env 100 5000 in
  try_except
    (let* key := gen_id "idem" in
     let* data :=
       post_wallets env (PostWallets key wallet_id owner_id initial_balance) in
     ret (WalletCreated data))
    (fun e =>
       write_cap "create_wallet_error" ;;;
       ret (WalletNotCreated e wallet_id)).

Definition perform_operation (op_type : string) (wallet_ids : list string)
    : M (option OpResult) :=
  try_except
    (if String.eqb op_type "credit" then
       let* wallet_id := choice env wallet_ids in
       let* amount := randint env 10 500 in
       let* key := gen_id "idem" in
       post env (PostCredit key wallet_id amount "Load test credit") ;;;
       ret (Some (mkResult true "credit" (Some amount) None))
     else if String.eqb op_type "debit" then
       let* wallet_id := choice env wallet_ids in
       let* amount := randint env 10 200 in
       let* key := gen_id "idem" in
       post env (PostDebit key wallet_id amount "Load test debit") ;;;
       ret (Some (mkResult true "debit" (Some amount) None))
     else if String.eqb op_type "transfer" then
       if (Z.of_nat (length wallet_ids) <? 2)%Z
       then ret (Some (mkResult false "transfer" None
                         (Some "Not enough wallets")))
       else
         let* from_wallet := choice env wallet_ids in
         let* to_wallet :=
           choice env
             (List.filter (fun w => negb (String.eqb w from_wallet))
                wallet_ids) in
         let* amount := randint env 10 300 in
         let* key := gen_id "idem" in
         post env (PostTransfer key from_wallet to_wallet amount
                     "Load test transfer") ;;;
         ret (Some (mkResult true "transfer" (Some amount) None))
     else ret None)
    (fun e =>
       write_cap "operation_error" ;;;
       ret (Some (mkResult false op_type None (Some e)))).

(** The body of the two creation loops. *)
Definition record_wallet (r : CreateResult) : M unit :=
  match r with
  | WalletCreated data => append_wallet (id data) ;;; add_success "wallets"
  | WalletNotCreated _ _ => add_failed "wallets"
  end.

(** The body of the two operation loops; [result["success"]] on [None]
    is a [TypeError]. *)
Definition record_operation (r : option OpResult) : M unit :=
  match r with
  | None => raise (Exception "TypeError")
  | Some r =>
      if r_success r then add_success (r_type r) else add_failed (r_type r)
  end.

Definition operation_kinds : list string := ["credit"; "debit"; "transfer"].

(** One operation: the kind is drawn, then [perform_operation] is
    called on the list [created_wallets]. *)
Definition one_operation : M (option OpResult) :=
  let* op_type := choice env operation_kinds in
  emit (Chose op_type) ;;;
  let* wallet_ids := read_wallets in
  perform_operation op_type wallet_ids.

Definition create_wallets (args : Args) : M unit :=
  if fast args
  then
    executor (workers args) (map create_wallet (range (wallets args)))
      (fun future => let* r := result future in record_wallet r)
  else
    for_each (range (wallets args))
      (fun i => let* r := create_wallet i in record_wallet r ;;; sleep (1 # 20)).

Definition run_operations (args : Args) : M unit :=
  if fast args
  then
    executor (workers args) (map (fun _ => one_operation) (range (operations args)))
      (fun future => let* r := result future in record_operation r)
  else
    for_each (range (operations args))
      (fun _ => let* r := one_operation in record_operation r ;;; sleep (1 # 20)).

Definition check_ledger (wallet_id : string) : M unit :=
  try_except
    (let* ledger := fetch_ledger env wallet_id in
     let count := match ledger with Some c => c | None => 0%Z end in
     print ("   " ++ substring 0 20 wallet_id ++ "...: " ++ str count
              ++ " entries"))
    (fun _ => print ("   " ++ substring 0 20 wallet_id ++ "...: Error")).

Definition verify : M unit :=
  let* wallet_ids := read_wallets in
  let sample_size := Z.min 5 (Z.of_nat (length wallet_ids)) in
  let* sample_wallets := sample env wallet_ids (Z.to_nat sample_size) in
  for_each sample_wallets check_ledger.

(** [main] up to the verification.  The final report that follows in
    the source is console output computed from [stats] and from
    wall-clock durations, and is left out. *)
Definition main (args : Args) : M unit :=
  create_wallets args ;;;
  let* wallet_ids := read_wallets in
  match wallet_ids with
  | [] => print "No wallets created. Exiting..."
  | _ :: _ =>
      sleep 5 ;;;
      run_operations args ;;;
      sleep 5 ;;;
      verify
  end.
End Script.

End QuickLoadTest.

(** * Vocabulary of the statements *)

(** [n] turns of a loop whose body makes one [step]. *)
Inductive steps {T : Type} (step : T -> T -> Prop) : nat -> T -> T -> Prop :=
| steps_done s : steps step 0 s s
| steps_more n s s' s'' :
    step s s' -> steps step n s' s'' -> steps step (S n) s s''.

(** The state changes in nothing but the time. *)
Definition only_time {St A W} (s s' : State St A W) : Prop :=
  stats s' = stats s /\ created_wallets s' = created_wallets s /\
  log s' = log s.

(** How often a kind of operation was drawn, and how often a wallet
    creation was attempted, according to the history. *)
Definition is_chosen {A} (kind : string) (e : Event A) : bool :=
  match e with
  | Chose op => String.eqb op kind
  | _ => false
  end.

Definition is_creation {A} (e : Event A) : bool :=
  match e with
  | Http (PostWallets _ _ _ _) _ => true
  | _ => false
  end.

Definition attempts {A} (kind : string) (history : list (Event A)) : Z :=
  Z.of_nat (length (List.filter (is_chosen kind) history)).

Definition creations {A} (history : list (Event A)) : Z :=
  Z.of_nat (length (List.filter is_creation history)).

(** The amount a request puts on the wire, when it has one. *)
Definition amount_sent {A} (e : Event A) : option A :=
  match e with
  | Http (PostWallets _ _ _ a) _ => Some a
  | Http (PostCredit _ _ a _) _ => Some a
  | Http (PostDebit _ _ a _) _ => Some a
  | Http (PostTransfer _ _ _ a _) _ => Some a
  | _ => None
  end.

(** The requests that change a wallet. *)
Definition is_mutation {A} (e : Event A) : bool :=
  match e with
  | Http (PostCredit _ _ _ _) _ => true
  | Http (PostDebit _ _ _ _) _ => true
  | Http (PostTransfer _ _ _ _ _) _ => true
  | _ => false
  end.

(** The report of the verifier on the wallets [ids]: for each of them,
    in order, one ledger exchange and one line, whatever it answered. *)
Inductive ledger_report {A} : list string -> list (Event A) -> Prop :=
| report_nil : ledger_report [] []
| report_cons wallet_id ids resp line evs :
    ledger_report ids evs ->
    ledger_report (wallet_id :: ids)
      (Http (GetLedger wallet_id) resp :: Console line :: evs).

(** What the verifier does to a store whose wallets are named by
    [name]: it samples [min(sample_size, |population|)] wallets at
    different positions and reports on each of them. *)
Definition verified {St A W} (name : W -> string) (sample_size : nat)
    (s s' : State St A W) : Prop :=
  stats s' = stats s /\ created_wallets s' = created_wallets s /\
  exists sample rest evs,
    length sample = Nat.min sample_size (length (created_wallets s)) /\
    Permutation (sample ++ rest) (created_wallets s) /\
    ledger_report (map name sample) evs /\
    log s' = (log s ++ evs)%list.

(** The state after one more line on the console. *)
Definition printed {St A W} (line : string) (s : State St A W)
    : State St A W :=
  mkState (now s) (stats s) (created_wallets s) (log s ++ [Console line]).

(** A program that leaves the population as it found it, however it
    ends. *)
Definition keeps_wallets {St A W X} (c : Prog St A W X) : Prop :=
  forall s, created_wallets (snd (c s)) = created_wallets s.



(** A rational with two decimals that is at least 10: so many
    hundredths. *)
Definition two_decimals (a : Q) : Prop :=
  exists k : Z, (1000 <= k)%Z /\ a = (inject_Z k / 100)%Q.

(** * What one operation may do

    The behaviours of one turn of the operations loop, read off the
    source branch by branch: the exchanges it makes with the service
    and whether it is counted as a success or as a failure. *)

Inductive Outcome : Type := Succeeded | Failed.

Definition reply_of (accepted : bool) : Reply :=
  if accepted then Accepted else Refused.

Definition outcome_of (accepted : bool) : Outcome :=
  if accepted then Succeeded else Failed.

Module LoadTestWalletsRuns.
Import LoadTestWallets.

Definition max_debit (wallet_data : option Q) : Q :=
  Qmin (current_balance_of wallet_data * (1 # 2)) 500.

Definition max_transfer (wallet_data : option Q) : Q :=
  Qmin (current_balance_of wallet_data * (3 # 10)) 300.

Definition counted (operation : string) (o : Outcome) : Stats -> Stats :=
  if String.eqb operation "credit" then
    match o with Succeeded => incr_credits_success | Failed => incr_credits_failed end
  else if String.eqb operation "debit" then
    match o with Succeeded => incr_debits_success | Failed => incr_debits_failed end
  else if String.eqb operation "transfer" then
    match o with Succeeded => incr_transfers_success | Failed => incr_transfers_failed end
  else fun c => c.

Inductive run (wallets : list WalletJson)
  : string -> list (Event Q) -> Outcome -> Prop :=
| credit_no_wallet :
    wallets = [] -> run wallets "credit" [] Failed
| credit_sent w x key description accepted :
    In w wallets -> (10 <= x)%Q -> (x <= 1000)%Q ->
    run wallets "credit"
      [Http (PostCredit key (id w) (round2 x) description) (reply_of accepted)]
      (outcome_of accepted)
| debit_no_wallet :
    wallets = [] -> run wallets "debit" [] Failed
| debit_unread w :
    In w wallets ->
    run wallets "debit" [Http (GetWallet (id w)) Refused] Failed
| debit_skipped w wallet_data :
    In w wallets -> (max_debit wallet_data <= 10)%Q ->
    run wallets "debit"
      [Http (GetWallet (id w)) (WalletData wallet_data)] Failed
| debit_sent w wallet_data x key description accepted :
    In w wallets -> (10 < max_debit wallet_data)%Q ->
    (10 <= x)%Q -> (x <= max_debit wallet_data)%Q ->
    run wallets "debit"
      [Http (GetWallet (id w)) (WalletData wallet_data);
       Http (PostDebit key (id w) (round2 x) description) (reply_of accepted)]
      (outcome_of accepted)
| transfer_too_few :
    (length wallets < 2)%nat -> run wallets "transfer" [] Failed
| transfer_no_partner :
    (2 <= length wallets)%nat -> run wallets "transfer" [] Failed
| transfer_unread w :
    In w wallets ->
    run wallets "transfer" [Http (GetWallet (id w)) Refused] Failed
| transfer_skipped w wallet_data :
    In w wallets -> (max_transfer wallet_data <= 10)%Q ->
    run wallets "transfer"
      [Http (GetWallet (id w)) (WalletData wallet_data)] Failed
| transfer_sent w w' wallet_data x key description accepted :
    In w wallets -> In w' wallets -> id w' <> id w ->
    (10 < max_transfer wallet_data)%Q ->
    (10 <= x)%Q -> (x <= max_transfer wallet_data)%Q ->
    run wallets "transfer"
      [Http (GetWallet (id w)) (WalletData wallet_data);
       Http (PostTransfer key (id w) (id w') (round2 x) description)
            (reply_of accepted)]
      (outcome_of accepted).

(** One turn of the operations loop. *)
Definition operation_step (s s' : State Stats Q WalletJson) : Prop :=
  created_wallets s' = created_wallets s /\
  exists op evs o,
    In op operation_kinds /\ run (created_wallets s) op evs o /\
    log s' = (log s ++ Chose op :: evs)%list /\
    stats s' = counted op o (stats s).

(** One turn of the creation loop. *)
Definition creation_step (s s' : State Stats Q WalletJson) : Prop :=
  exists key wallet_id owner_id x,
    (100 <= x)%Q /\ (x <= 10000)%Q /\
    ((exists w,
        created_wallets s' =
          (created_wallets s ++ [mkWallet (id w) (ownerId w) (balance w)])%list /\
        log s' =
          (log s ++ [Http (PostWallets key wallet_id owner_id (round2 x))
                          (Created w)])%list /\
        stats s' = incr_wallets_created (stats s))
     \/
     (created_wallets s' = created_wallets s /\
      log s' =
        (log s ++ [Http (PostWallets key wallet_id owner_id (round2 x))
                        Refused])%list /\
      stats s' = incr_wallets_failed (stats s))).

(** [success + failed] of a kind. *)
Definition recorded (operation : string) (c : Stats) : Z :=
  if String.eqb operation "credit"
  then (credits_success c + credits_failed c)%Z
  else if String.eqb operation "debit"
  then (debits_success c + debits_failed c)%Z
  else if String.eqb operation "transfer"
  then (transfers_success c + transfers_failed c)%Z
  else 0%Z.


(** Every kind's two counters add up to the attempts of that kind. *)
Definition balanced (s : State Stats Q WalletJson) : Prop :=
  (wallets_created (stats s) + wallets_failed (stats s))%Z
    = creations (log s) /\
  forall op, In op operation_kinds ->
    recorded op (stats s) = attempts op (log s).

Definition operations_recorded (c : Stats) : Z :=
  (recorded "credit" c + recorded "debit" c + recorded "transfer" c)%Z.

(** The runs of [main]: the population is built; then either nothing
    was created and the run ends there, or the operations are made and
    the ledgers are sampled. *)
Inductive main_run (num_wallets num_operations : Z)
  : Res unit -> State Stats Q WalletJson -> Prop :=
| main_aborted s1 :
    steps creation_step (Z.to_nat num_wallets) start s1 ->
    wallets_created (stats s1) = 0%Z ->
    main_run num_wallets num_operations (Raise (SystemExit 1))
      (printed "No wallets created. Exiting..." s1)
| main_completed s1 s2 s3 :
    steps creation_step (Z.to_nat num_wallets) start s1 ->
    wallets_created (stats s1) <> 0%Z ->
    steps operation_step (Z.to_nat num_operations) s1 s2 ->
    verified id 5 s2 s3 ->
    main_run num_wallets num_operations (Ok tt) s3.
End LoadTestWalletsRuns.

Module QuickLoadTestRuns.
Import QuickLoadTest.

(** The kinds that [stats] keeps counters for. *)
Definition stats_keys : list string :=
  ["wallets"; "credit"; "debit"; "transfer"].

Definition tracked (st : gmap string Counter) : Prop :=
  forall kind, In kind stats_keys -> is_Some (st !! kind).

(** [success + failed] of a kind. *)
Definition recorded (kind : string) (st : gmap string Counter) : Z :=
  match st !! kind with
  | Some c => (success c + failed c)%Z
  | None => 0%Z
  end.

Definition operations_recorded (st : gmap string Counter) : Z :=
  (recorded "credit" st + recorded "debit" st + recorded "transfer" st)%Z.

Definition bump (o : Outcome) (c : Counter) : Counter :=
  match o with
  | Succeeded => mkCounter (success c + 1) (failed c)
  | Failed => mkCounter (success c) (failed c + 1)
  end.

Definition flag (o : Outcome) : bool :=
  match o with Succeeded => true | Failed => false end.

(** The behaviours of one call of [perform_operation]. *)
Inductive run (wallet_ids : list string)
  : string -> list (Event Z) -> Outcome -> Prop :=
| credit_no_wallet :
    wallet_ids = [] -> run wallet_ids "credit" [] Failed
| credit_sent w amount key accepted :
    In w wallet_ids -> (10 <= amount <= 500)%Z ->
    run wallet_ids "credit"
      [Http (PostCredit key w amount "Load test credit") (reply_of accepted)]
      (outcome_of accepted)
| debit_no_wallet :
    wallet_ids = [] -> run wallet_ids "debit" [] Failed
| debit_sent w amount key accepted :
    In w wallet_ids -> (10 <= amount <= 200)%Z ->
    run wallet_ids "debit"
      [Http (PostDebit key w amount "Load test debit") (reply_of accepted)]
      (outcome_of accepted)
| transfer_too_few :
    (length wallet_ids < 2)%nat -> run wallet_ids "transfer" [] Failed
| transfer_no_partner :
    (2 <= length wallet_ids)%nat -> run wallet_ids "transfer" [] Failed
| transfer_sent w w' amount key accepted :
    In w wallet_ids -> In w' wallet_ids -> w' <> w ->
    (10 <= amount <= 300)%Z ->
    run wallet_ids "transfer"
      [Http (PostTransfer key w w' amount "Load test transfer")
            (reply_of accepted)]
      (outcome_of accepted).

(** The result dictionary of an operation of kind [op] that ended as
    [o]. *)
Definition result_of (op : string) (o : Outcome) (r : OpResult) : Prop :=
  r_type r = op /\ r_success r = flag o.

Definition performed (op : string) (wallet_ids : list string)
    (s : State (gmap string Counter) Z string)
    (r : Res (option OpResult) * State (gmap string Counter) Z string)
    : Prop :=
  exists res evs o,
    fst r = Ok (Some res) /\ result_of op o res /\
    run wallet_ids op evs o /\
    log (snd r) = (log s ++ evs)%list /\
    (stats (snd r) = stats s /\ created_wallets (snd r) = created_wallets s).

(** The future of an operation of kind [op] that ended as [o]. *)
Definition future_of (f : Res (option OpResult)) (t : string * Outcome)
    : Prop :=
  exists res, f = Ok (Some res) /\ In (fst t) operation_kinds /\
              result_of (fst t) (snd t) res.

(** One outcome enters the statistics. *)
Definition tally1 (st : gmap string Counter) (t : string * Outcome)
    : gmap string Counter :=
  match st !! fst t with
  | Some c => <[fst t := bump (snd t) c]> st
  | None => st
  end.

Definition tally_all (ts : list (string * Outcome))
    (st : gmap string Counter) : gmap string Counter :=
  fold_left tally1 ts st.

(** The operations made on the population [wallet_ids], in the order
    in which they were started: their kinds and outcomes, and the
    history they leave. *)
Inductive made (wallet_ids : list string)
  : list (string * Outcome) -> list (Event Z) -> Prop :=
| made_none : made wallet_ids [] []
| made_one op o evs ts rest :
    In op operation_kinds -> run wallet_ids op evs o ->
    made wallet_ids ts rest ->
    made wallet_ids ((op, o) :: ts) (Chose op :: evs ++ rest).

(** The operations phase, in either mode: [n] operations are made,
    and each of their outcomes enters the statistics once, in the
    order in which they complete. *)
Definition operations_phase (n : nat)
    (s s' : State (gmap string Counter) Z string) : Prop :=
  created_wallets s' = created_wallets s /\
  exists started completed evs,
    made (created_wallets s) started evs /\
    Permutation completed started /\ length started = n /\
    log s' = (log s ++ evs)%list /\
    stats s' = tally_all completed (stats s).

(** The wallet creations, in the order in which they were started. *)
Inductive made_wallets
  : list (string * Outcome) -> list (Event Z) -> Prop :=
| made_no_wallet : made_wallets [] []
| made_wallet key wallet_id owner_id initial_balance resp o ts rest :
    (100 <= initial_balance <= 5000)%Z ->
    made_wallets ts rest ->
    made_wallets (("wallets", o) :: ts)
      (Http (PostWallets key wallet_id owner_id initial_balance) resp :: rest).


(** The creation phase, in either mode. *)
Definition creation_phase (n : nat)
    (s s' : State (gmap string Counter) Z string) : Prop :=
  exists started completed evs,
    made_wallets started evs /\
    Permutation completed started /\ length started = n /\
    log s' = (log s ++ evs)%list /\
    stats s' = tally_all completed (stats s).

(** How often [kind] occurs among outcomes. *)
Definition occurrences (kind : string) (ts : list (string * Outcome)) : Z :=
  Z.of_nat (length (List.filter (fun t => String.eqb (fst t) kind) ts)).

(** Every kind's two counters add up to the attempts of that kind. *)
Definition balanced (s : State (gmap string Counter) Z string) : Prop :=
  tracked (stats s) /\
  recorded "wallets" (stats s) = creations (log s) /\
  forall op, In op operation_kinds ->
    recorded op (stats s) = attempts op (log s).

(** The runs of [main]: the population is built; then either it is
    empty and [main] returns, or the operations are made and the
    ledgers are sampled. *)
Inductive main_run (args : Args)
  : State (gmap string Counter) Z string -> Prop :=
| main_returned s1 :
    creation_phase (Z.to_nat (wallets args)) start s1 ->
    created_wallets s1 = [] ->
    main_run args (printed "No wallets created. Exiting..." s1)
| main_completed s1 s2 s3 :
    creation_phase (Z.to_nat (wallets args)) start s1 ->
    created_wallets s1 <> [] ->
    operations_phase (Z.to_nat (operations args)) s1 s2 ->
    verified (fun wallet_id : string => wallet_id) 5 s2 s3 ->
    main_run args s3.
End QuickLoadTestRuns.

(** * Example environments *)

(** A service that accepts everything; every wallet holds 1000. *)
Definition service_up : Env :=
  mkEnv (fun t => Z.of_nat t * 7919 + 13)%Z
        (fun t => 1700000000000 + Z.of_nat t)%Z
        (fun t => Some (mkWallet ("w" ++ str (Z.of_nat t)) "u" 1000%Q))
        (fun _ => true)
        (fun _ => Some (Some 1000%Q))
        (fun _ => Some (Some 3%Z))
        (fun t => Z.of_nat t).

(** A service that cannot be reached. *)
Definition service_down : Env :=
  mkEnv (fun t => Z.of_nat t * 7919 + 13)%Z
        (fun t => 1700000000000 + Z.of_nat t)%Z
        (fun _ => None) (fun _ => false) (fun _ => None) (fun _ => None)
        (fun t => Z.of_nat t).



(** Two wallets, as [load_test_wallets.py] and as [quick_load_test.py]
    keep them. *)
Definition two_wallets : State LoadTestWallets.Stats Q WalletJson :=
  mkState 0 LoadTestWallets.stats0
          [mkWallet "w1" "u1" 1000%Q; mkWallet "w2" "u2" 1000%Q] [].

Definition two_wallet_ids : State (gmap string QuickLoadTest.Counter) Z string :=
  mkState 0 QuickLoadTest.stats0 ["w1"; "w2"] [].

(** * The specification's wording, for the places where the scripts
    depart from it *)



(** * Vocabulary of the further properties

    What else can be read off a history: which wallets the service
    created, which wallets the requests name, how many requests of a
    kind went out and how many were accepted. *)

(** The wallets with which the service answered the creations, in the
    order of the history. *)
Definition created_replies {A} (history : list (Event A)) : list WalletJson :=
  List.flat_map
    (fun e => match e with
              | Http (PostWallets _ _ _ _) (Created w) => [w]
              | _ => []
              end) history.

(** The wallets that a request on an existing wallet names: the wallet
    of the URL and, for a transfer, the destination. *)
Definition wallets_named {A} (e : Event A) : list string :=
  match e with
  | Http (PostCredit _ wallet_id _ _) _ => [wallet_id]
  | Http (PostDebit _ wallet_id _ _) _ => [wallet_id]
  | Http (PostTransfer _ from_wallet_id toWalletId _ _) _ =>
      [from_wallet_id; toWalletId]
  | Http (GetWallet wallet_id) _ => [wallet_id]
  | Http (GetLedger wallet_id) _ => [wallet_id]
  | _ => []
  end.

(** Every request of the history names wallets of [ids] only. *)
Definition aimed_at {A} (ids : list string) (history : list (Event A))
    : Prop :=
  Forall (fun e => incl (wallets_named e) ids) history.

(** The kind of a request that changes a wallet. *)
Definition request_kind {A} (e : Event A) : option string :=
  match e with
  | Http (PostCredit _ _ _ _) _ => Some "credit"
  | Http (PostDebit _ _ _ _) _ => Some "debit"
  | Http (PostTransfer _ _ _ _ _) _ => Some "transfer"
  | _ => None
  end.

Definition is_request {A} (kind : string) (e : Event A) : bool :=
  match request_kind e with
  | Some k => String.eqb k kind
  | None => false
  end.

Definition is_accepted {A} (kind : string) (e : Event A) : bool :=
  match e with
  | Http _ Accepted => is_request kind e
  | _ => false
  end.

Definition is_balance_read {A} (e : Event A) : bool :=
  match e with
  | Http (GetWallet _) _ => true
  | _ => false
  end.

Definition is_exchange {A} (e : Event A) : bool :=
  match e with
  | Http _ _ => true
  | _ => false
  end.

(** How many requests of a kind went out, how many of them the service
    accepted (the exchange ended without an exception), and how many
    exchanges there were in all. *)
Definition sent_requests {A} (kind : string) (history : list (Event A)) : Z :=
  Z.of_nat (length (List.filter (is_request kind) history)).

Definition accepted_requests {A} (kind : string) (history : list (Event A))
    : Z :=
  Z.of_nat (length (List.filter (is_accepted kind) history)).

Definition exchanges {A} (history : list (Event A)) : Z :=
  Z.of_nat (length (List.filter is_exchange history)).

(** Every amount of the history lies in the range that [limits] gives
    for its request. *)
Definition amounts_within {A} (le : A -> A -> Prop)
    (limits : Event A -> option (A * A)) (history : list (Event A)) : Prop :=
  Forall (fun e => forall a lo hi,
            amount_sent e = Some a -> limits e = Some (lo, hi) ->
            le lo a /\ le a hi) history.

(** The three phases of a run as the history shows them: the creation
    requests; then the operations, with the kind drawn, the balance
    reads and the requests; then the ledger reads and the lines of the
    console. *)
Definition is_ledger_read {A} (e : Event A) : bool :=
  match e with
  | Http (GetLedger _) _ => true
  | _ => false
  end.

Definition is_console {A} (e : Event A) : bool :=
  match e with
  | Console _ => true
  | _ => false
  end.

Definition is_operation {A} (e : Event A) : bool :=
  negb (is_creation e) && negb (is_ledger_read e) && negb (is_console e).

Definition is_closing {A} (e : Event A) : bool :=
  is_ledger_read e || is_console e.

Definition phased {A} (creations operations closing : list (Event A))
    : Prop :=
  Forall (fun e => is_creation e = true) creations /\
  Forall (fun e => is_operation e = true) operations /\
  Forall (fun e => is_closing e = true) closing.

(** What follows the operations in a history: console lines and the
    ledger reads of at most five wallets of [ids]. *)
Definition epilogue {A} (ids : list string) (evs : list (Event A)) : Prop :=
  created_replies evs = [] /\
  (forall kind, sent_requests kind evs = 0%Z) /\
  (forall kind, accepted_requests kind evs = 0%Z) /\
  (forall kind, attempts kind evs = 0%Z) /\
  (0 <= exchanges evs <= 5)%Z /\
  aimed_at ids evs /\
  Forall (fun e => amount_sent e = None) evs /\
  Forall (fun e => is_closing e = true) evs.

(** A string without the character "-". *)
Fixpoint dash_free (s : string) : bool :=
  match s with
  | EmptyString => true
  | String c rest => negb (Ascii.eqb c "-"%char) && dash_free rest
  end.

(** ** The progress bar of [load_test_wallets.py]

    The bar that [print_progress_bar] draws, cell by cell.  [int(x)]
    truncates toward zero, and a string repeated a negative number of
    times is empty. *)

Inductive Cell : Type := Filled | Blank.

Definition int_of (x : Q) : Z :=
  if Qlt_le_dec x 0 then (- Qfloor (- x))%Z else Qfloor x.

Definition repeated {X} (c : X) (n : Z) : list X := repeat c (Z.to_nat n).

Definition progress_bar (iteration total length : Z) : Res (list Cell) :=
  if (total =? 0)%Z then Raise (Exception "ZeroDivisionError")
  else
    let percent := (inject_Z iteration / inject_Z total)%Q in
    let filled_length := int_of (inject_Z length * percent) in
    Ok (repeated Filled filled_length
          ++ repeated Blank (length - filled_length))%list.

Module LoadTestWalletsAccounts.
Import LoadTestWallets LoadTestWalletsRuns.

(** The success counter of a kind. *)
Definition successes (operation : string) (c : Stats) : Z :=
  if String.eqb operation "credit" then credits_success c
  else if String.eqb operation "debit" then debits_success c
  else if String.eqb operation "transfer" then transfers_success c
  else 0%Z.

(** The ranges of the amounts: [uniform(100, 10000)] for an initial
    balance, [uniform(10, 1000)] for a credit, and the ceilings 500 and
    300 of a debit and of a transfer. *)
Definition limits (e : Event Q) : option (Q * Q) :=
  match e with
  | Http (PostWallets _ _ _ _) _ => Some (100, 10000)%Q
  | Http (PostCredit _ _ _ _) _ => Some (10, 1000)%Q
  | Http (PostDebit _ _ _ _) _ => Some (10, 500)%Q
  | Http (PostTransfer _ _ _ _ _) _ => Some (10, 300)%Q
  | _ => None
  end.

(** The population is, in order, what the service answered to the
    creations, and [wallets_created] is its size. *)
Definition built (s : State Stats Q WalletJson) : Prop :=
  created_wallets s = created_replies (log s) /\
  wallets_created (stats s) = Z.of_nat (length (created_wallets s)).
End LoadTestWalletsAccounts.

Module QuickLoadTestAccounts.
Import QuickLoadTest QuickLoadTestRuns.

(** The success counter of a kind. *)
Definition successes (kind : string) (st : gmap string Counter) : Z :=
  match st !! kind with
  | Some c => success c
  | None => 0%Z
  end.

(** The ranges of the amounts: the arguments of [random.randint]. *)
Definition limits (e : Event Z) : option (Z * Z) :=
  match e with
  | Http (PostWallets _ _ _ _) _ => Some (100, 5000)%Z
  | Http (PostCredit _ _ _ _) _ => Some (10, 500)%Z
  | Http (PostDebit _ _ _ _) _ => Some (10, 200)%Z
  | Http (PostTransfer _ _ _ _ _) _ => Some (10, 300)%Z
  | _ => None
  end.

(** How many outcomes of a kind are successes. *)
Definition won (kind : string) (ts : list (string * Outcome)) : Z :=
  Z.of_nat (length (List.filter
                      (fun t => String.eqb (fst t) kind && flag (snd t)) ts)).

(** What the service answered to a creation: the wallet, or nothing. *)
Definition answer_outcome (answer : option WalletJson) : string * Outcome :=
  ("wallets", match answer with Some _ => Succeeded | None => Failed end).

Definition created_ids (answers : list (option WalletJson)) : list string :=
  List.flat_map
    (fun answer => match answer with Some w => [id w] | None => [] end)
    answers.

(** The creations in the order in which they were started: the answer
    to each, and the history they leave. *)
Inductive wallets_answered
  : list (option WalletJson) -> list (Event Z) -> Prop :=
| answered_none : wallets_answered [] []
| answered_created key wallet_id owner_id initial_balance w answers rest :
    (100 <= initial_balance <= 5000)%Z ->
    wallets_answered answers rest ->
    wallets_answered (Some w :: answers)
      (Http (PostWallets key wallet_id owner_id initial_balance) (Created w)
         :: rest)
| answered_refused key wallet_id owner_id initial_balance answers rest :
    (100 <= initial_balance <= 5000)%Z ->
    wallets_answered answers rest ->
    wallets_answered (None :: answers)
      (Http (PostWallets key wallet_id owner_id initial_balance) Refused
         :: rest).

(** The future of a creation that was answered with [answer]. *)
Definition answer_of (f : Res CreateResult) (answer : option WalletJson)
    : Prop :=
  match answer with
  | Some w => f = Ok (WalletCreated w)
  | None => exists e wallet_id, f = Ok (WalletNotCreated e wallet_id)
  end.

(** The creation phase with its effect on the population: the ids of
    the wallets that were created are appended in the order in which
    the creations complete, which in the sequential mode is the order
    in which they were started. *)
Definition population_built (sequential : bool) (n : nat)
    (s s' : State (gmap string Counter) Z string) : Prop :=
  exists started completed evs,
    wallets_answered started evs /\
    Permutation completed started /\
    (sequential = true -> completed = started) /\
    length started = n /\
    log s' = (log s ++ evs)%list /\
    stats s' = tally_all (map answer_outcome completed) (stats s) /\
    created_wallets s' = (created_wallets s ++ created_ids completed)%list.

(** The runs of [main], with the population: the executor refuses a
    worker count that is not positive; otherwise the population is
    built, and either it is empty and [main] returns, or the operations
    are made and the ledgers are sampled. *)
Inductive main_history (args : Args)
  : Res unit -> State (gmap string Counter) Z string -> Prop :=
| history_no_worker :
    fast args = true -> (workers args <= 0)%Z ->
    main_history args (Raise (Exception "ValueError")) start
| history_returned s1 :
    population_built (negb (fast args)) (Z.to_nat (wallets args)) start s1 ->
    created_wallets s1 = [] ->
    main_history args (Ok tt) (printed "No wallets created. Exiting..." s1)
| history_completed s1 s2 s3 :
    population_built (negb (fast args)) (Z.to_nat (wallets args)) start s1 ->
    created_wallets s1 <> [] ->
    operations_phase (Z.to_nat (operations args)) s1 s2 ->
    verified (fun wallet_id : string => wallet_id) 5 s2 s3 ->
    main_history args (Ok tt) s3.
End QuickLoadTestAccounts.

(** * Proofs *)

Lemma mod_index (r : Z) (n : nat) :
  n <> 0%nat -> (Z.to_nat (r mod Z.of_nat n) < n)%nat.
Proof.
  intros Hn. pose proof (Z.mod_pos_bound r (Z.of_nat n)). lia.
Qed.

Lemma pick_In {X} (r : Z) (xs : list X) (d : X) :
  xs <> [] -> In (nth (Z.to_nat (r mod Z.of_nat (length xs))) xs d) xs.
Proof.
  intros H. apply nth_In. apply mod_index.
  destruct xs; [congruence | discriminate].
Qed.

Lemma unit_interval (r : Z) :
  (0 <= (r mod 2 ^ 53 # 2 ^ 53) /\ (r mod 2 ^ 53 # 2 ^ 53) < 1)%Q.
Proof.
  pose proof (Z.mod_pos_bound r (2 ^ 53) ltac:(lia)) as H.
  unfold Qle, Qlt. cbn [Qnum Qden].
  change (Z.pos (2 ^ 53)) with (2 ^ 53)%Z. lia.
Qed.

Lemma uniform_between (a b : Q) (r : Z) :
  (a <= b)%Q ->
  (a <= a + (b - a) * (r mod 2 ^ 53 # 2 ^ 53) /\
   a + (b - a) * (r mod 2 ^ 53 # 2 ^ 53) <= b)%Q.
Proof.
  intros Hab. destruct (unit_interval r) as [H0 H1].
  generalize dependent (r mod 2 ^ 53 # 2 ^ 53)%Q. intros u H0 H1.
  split; nra.
Qed.

(** ** Loops *)

Section Loops.
Context {St A W : Type}.
Local Abbreviation M := (Prog St A W).

Lemma for_each_steps {X} (I : State St A W -> Prop)
    (step : State St A W -> State St A W -> Prop)
    (body : X -> M unit) (xs : list X) :
  (forall x s, In x xs -> I s ->
     fst (body x s) = Ok tt /\ step s (snd (body x s)) /\ I (snd (body x s))) ->
  forall s, I s ->
    fst (for_each xs body s) = Ok tt /\
    steps step (length xs) s (snd (for_each xs body s)) /\
    I (snd (for_each xs body s)).
Proof.
  induction xs as [|x xs IH]; intros Hbody s Hs.
  - split; [reflexivity | split; [constructor | exact Hs]].
  - destruct (Hbody x s (or_introl eq_refl) Hs) as (Hok & Hstep & Hs1).
    change (for_each (x :: xs) body s)
      with (match body x s with
            | (Ok _, s') => for_each xs body s'
            | (Raise e, s') => (Raise e, s')
            end).
    destruct (body x s) as [[[]|e] s1]; cbn [fst snd] in *; [|discriminate].
    destruct (IH (fun y t Hy => Hbody y t (or_intror Hy)) s1 Hs1)
      as (Hok' & Hsteps & Hs').
    split; [exact Hok'|]. split; [|exact Hs'].
    change (length (x :: xs)) with (S (length xs)).
    econstructor; eassumption.
Qed.

End Loops.

(** ** Sampling *)

Section Sampling.
Context {St A W : Type}.
Variable env : Env.

Lemma only_time_refl (s : State St A W) : only_time s s.
Proof. repeat split. Qed.

(** [random.sample] answers with [k] elements taken at [k] different
    positions of the population, and touches nothing. *)
Lemma sample_spec {X} (k : nat) : forall (pool : list X) (s : State St A W),
  (k <= length pool)%nat ->
  exists l rest s',
    sample env pool k s = (Ok l, s') /\ only_time s s' /\
    length l = k /\ Permutation (l ++ rest) pool.
Proof.
  induction k as [|k IH]; intros pool s Hk.
  - exists [], pool, s. repeat split. reflexivity.
  - destruct pool as [|x pool']; [cbn in Hk; lia|].
    set (pool := x :: pool') in *.
    set (j := Z.to_nat (rand env (now s) mod Z.of_nat (length pool))).
    assert (Hj : (j < length pool)%nat) by (apply mod_index; discriminate).
    destruct (lookup_lt_is_Some_2 pool j Hj) as [y Hy].
    set (s1 := mkState (S (now s)) (stats s) (created_wallets s) (log s)).
    destruct (IH (delete j pool) s1) as (l & rest & s' & Hrun & Ht & Hl & Hp).
    { rewrite length_delete by eauto. lia. }
    exists (nth j pool x :: l), rest, s'.
    split; [|split; [|split]].
    + change (sample env pool (S k) s)
        with (match sample env (delete j pool) k s1 with
              | (Ok rest, s2) => (Ok (nth j pool x :: rest), s2)
              | (Raise e, s2) => (Raise e, s2)
              end).
      now rewrite Hrun.
    + exact Ht.
    + cbn [length]. now rewrite Hl.
    + rewrite (nth_lookup_Some _ _ _ _ Hy).
      cbn [app]. rewrite Hp. symmetry. now apply delete_Permutation.
Qed.
End Sampling.

Lemma range_length (n : Z) : length (range n) = Z.to_nat n.
Proof. unfold range. now rewrite length_map, length_seq. Qed.

(** ** The verifier's loop *)

Section Reports.
Context {St A W X : Type}.
Variable name : X -> string.
Variable body : X -> Prog St A W unit.
Hypothesis body_reports : forall x s,
  fst (body x s) = Ok tt /\ stats (snd (body x s)) = stats s /\
  created_wallets (snd (body x s)) = created_wallets s /\
  exists resp line,
    log (snd (body x s)) =
      (log s ++ [Http (GetLedger (name x)) resp; Console line])%list.

Lemma report_loop (xs : list X) : forall s,
  fst (for_each xs body s) = Ok tt /\
  stats (snd (for_each xs body s)) = stats s /\
  created_wallets (snd (for_each xs body s)) = created_wallets s /\
  exists evs, ledger_report (map name xs) evs /\
    log (snd (for_each xs body s)) = (log s ++ evs)%list.
Proof.
  induction xs as [|x xs IH]; intros s.
  - repeat split. exists []. split; [constructor | now rewrite app_nil_r].
  - destruct (body_reports x s) as (Hok & Hst & Hcw & resp & line & Hlog).
    change (for_each (x :: xs) body s)
      with (match body x s with
            | (Ok _, s') => for_each xs body s'
            | (Raise e, s') => (Raise e, s')
            end).
    destruct (body x s) as [[[]|e] s1]; cbn [fst snd] in *; [|discriminate].
    destruct (IH s1) as (Hok' & Hst' & Hcw' & evs & Hrep & Hlog').
    split; [exact Hok'|]. split; [congruence|]. split; [congruence|].
    exists (Http (GetLedger (name x)) resp :: Console line :: evs).
    split; [now constructor|].
    rewrite Hlog', Hlog, <- app_assoc. reflexivity.
Qed.
End Reports.

Lemma range_positive (n x : Z) : In x (range n) -> n <> 0%Z.
Proof. intros H ->. exact H. Qed.

Section LoadTestSteps.
Import LoadTestWallets LoadTestWalletsRuns.
Variable env : Env.

Ltac run_all :=
  cbv [attempt credit_branch debit_branch transfer_branch operation_failed
       credit_wallet debit_wallet transfer_wallet get_wallet
       generate_idempotency_key print_progress_bar
       post fetch_wallet http_error sleep
       choice uniform random randint randbelow time_ms
       read_wallets read_stats set_stats emit tick
       bind ret raise try_except fst snd
       now stats created_wallets log].

Ltac split_match :=
  match goal with
  | |- context [match ?x with _ => _ end] =>
      lazymatch x with
      | context [match _ with _ => _ end] => fail
      | _ => destruct x eqn:?
      end
  end.


Lemma drawn_in {X} (r : Z) (x : X) (xs : list X) (d : X) :
  In (nth (Z.to_nat (r mod Z.of_nat (length (x :: xs)))) (x :: xs) d) (x :: xs).
Proof. apply pick_In. discriminate. Qed.

Lemma partner_in (r : Z) (w : WalletJson) (ws cands : list WalletJson)
    (x d : WalletJson) :
  List.filter (fun w0 => negb (String.eqb (id w0) (id w))) ws = x :: cands ->
  In (nth (Z.to_nat (r mod Z.of_nat (length (x :: cands)))) (x :: cands) d) ws.
Proof.
  intros Hf.
  pose proof (drawn_in r x cands d) as Hin.
  rewrite <- Hf in Hin at 3. apply filter_In in Hin as [Hin _]. exact Hin.
Qed.

Lemma partner_differs (r : Z) (w : WalletJson) (ws cands : list WalletJson)
    (x d : WalletJson) :
  List.filter (fun w0 => negb (String.eqb (id w0) (id w))) ws = x :: cands ->
  id (nth (Z.to_nat (r mod Z.of_nat (length (x :: cands)))) (x :: cands) d)
  <> id w.
Proof.
  intros Hf.
  pose proof (drawn_in r x cands d) as Hin.
  rewrite <- Hf in Hin at 3. apply filter_In in Hin as [_ Hne].
  apply negb_true_iff, String.eqb_neq in Hne. exact Hne.
Qed.

Ltac bounds :=
  first [ assumption
        | apply uniform_between; first [discriminate | apply Qlt_le_weak; assumption]
        | apply drawn_in
        ].

Ltac by_run c :=
  refine (ex_intro _ _ (ex_intro _ _ (conj _ (conj eq_refl _))));
  [ first [ eapply c with (accepted := true) | eapply c with (accepted := false) | eapply c ]
  | reflexivity ].

Ltac quiet c :=
  exists [], Failed; split; [ apply c | split; [ symmetry; apply app_nil_r | reflexivity ] ].

Lemma attempt_credit (n i : Z) s :
  n <> 0%Z ->
  let r := attempt env n i "credit" s in
  fst r = Ok tt /\ created_wallets (snd r) = created_wallets s /\
  exists evs o, run (created_wallets s) "credit" evs o /\
    log (snd r) = (log s ++ evs)%list /\
    stats (snd r) = counted "credit" o (stats s).
Proof.
  intros Hn. apply Z.eqb_neq in Hn.
  run_all. change (String.eqb "credit" "credit") with true. cbv iota.
  rewrite Hn.
  repeat split_match; cbv beta iota zeta; (split; [reflexivity|]); (split; [reflexivity|]).
  - quiet credit_no_wallet. reflexivity.
  - by_run credit_sent; try apply uniform_between; try apply drawn_in; discriminate.
  - by_run credit_sent; try apply uniform_between; try apply drawn_in; discriminate.
Qed.

Ltac settle :=
  cbv beta iota zeta; rewrite <- ?app_assoc; cbn [app];
  (split; [reflexivity|]); (split; [reflexivity|]).

Ltac side :=
  try solve [ assumption | apply drawn_in | discriminate
            | apply uniform_between; first [discriminate | apply Qlt_le_weak; assumption]
            | match goal with
              | H : List.filter _ _ = _ :: _ |- _ =>
                  first [ exact (partner_in _ _ _ _ _ _ H)
                        | exact (partner_differs _ _ _ _ _ _ H) ]
              end ].

Lemma attempt_debit (n i : Z) s :
  n <> 0%Z ->
  let r := attempt env n i "debit" s in
  fst r = Ok tt /\ created_wallets (snd r) = created_wallets s /\
  exists evs o, run (created_wallets s) "debit" evs o /\
    log (snd r) = (log s ++ evs)%list /\
    stats (snd r) = counted "debit" o (stats s).
Proof.
  intros Hn. apply Z.eqb_neq in Hn.
  run_all. change (String.eqb "debit" "credit") with false.
  change (String.eqb "debit" "debit") with true. cbv iota.
  rewrite Hn.
  repeat split_match; settle.
  - quiet debit_no_wallet. reflexivity.
  - by_run debit_sent; side.
  - by_run debit_sent; side.
  - by_run debit_skipped; side.
  - by_run debit_unread; side.
Qed.

Lemma attempt_transfer (n i : Z) s :
  n <> 0%Z ->
  let r := attempt env n i "transfer" s in
  fst r = Ok tt /\ created_wallets (snd r) = created_wallets s /\
  exists evs o, run (created_wallets s) "transfer" evs o /\
    log (snd r) = (log s ++ evs)%list /\
    stats (snd r) = counted "transfer" o (stats s).
Proof.
  intros Hn. apply Z.eqb_neq in Hn.
  run_all. change (String.eqb "transfer" "credit") with false.
  change (String.eqb "transfer" "debit") with false.
  change (String.eqb "transfer" "transfer") with true. cbv iota.
  rewrite Hn.
  repeat split_match; settle.
  - quiet transfer_too_few. apply Z.ltb_lt in Heqb. lia.
  - discriminate Heqb.
  - quiet transfer_no_partner. apply Z.ltb_ge in Heqb. lia.
  - by_run transfer_sent; side.
  - by_run transfer_sent; side.
  - by_run transfer_skipped; side.
  - by_run transfer_unread; side.
Qed.

Lemma kind_drawn (r : Z) :
  In (nth (Z.to_nat (r mod Z.of_nat (length operation_kinds))) operation_kinds
        "credit") operation_kinds.
Proof. apply drawn_in. Qed.

(** One turn of the operations loop: it never raises, it leaves the
    population alone, it records the drawn kind once, and what it does
    is one of the behaviours of [run]. *)
Lemma one_operation_run (n i : Z) s :
  n <> 0%Z ->
  let r := one_operation env n i s in
  fst r = Ok tt /\ created_wallets (snd r) = created_wallets s /\
  exists op evs o,
    In op operation_kinds /\ run (created_wallets s) op evs o /\
    log (snd r) = (log s ++ Chose op :: evs)%list /\
    stats (snd r) = counted op o (stats s).
Proof.
  intros Hn.
  pose (op := nth (Z.to_nat (rand env (now s)
                     mod Z.of_nat (length operation_kinds)))
                operation_kinds "credit").
  pose (s1 := mkState (S (now s)) (stats s) (created_wallets s)
                (log s ++ [Chose op])).
  change (one_operation env n i s) with (attempt env n i op s1).
  assert (Hop : In op operation_kinds) by apply kind_drawn.
  assert (H : let r := attempt env n i op s1 in
    fst r = Ok tt /\ created_wallets (snd r) = created_wallets s1 /\
    exists evs o, run (created_wallets s1) op evs o /\
      log (snd r) = (log s1 ++ evs)%list /\
      stats (snd r) = counted op o (stats s1)).
  { clearbody op. destruct Hop as [<- | [<- | [<- | []]]];
      [apply attempt_credit | apply attempt_debit | apply attempt_transfer];
      exact Hn. }
  cbv zeta in *. destruct H as (H1 & H2 & evs & o & H3 & H4 & H5).
  split; [exact H1|]. split; [exact H2|].
  exists op, evs, o. rewrite H4, H5. unfold s1; cbn [log stats created_wallets].
  rewrite <- app_assoc. auto.
Qed.

Lemma create_one_step (n i : Z) s :
  n <> 0%Z ->
  let r := create_one env n i s in
  fst r = Ok tt /\ creation_step s (snd r).
Proof.
  intros Hn. apply Z.eqb_neq in Hn.
  cbv [create_one create_wallet generate_wallet_id generate_owner_id
       generate_idempotency_key print_progress_bar append_wallet
       post_wallets http_error sleep
       uniform random randint randbelow time_ms
       set_stats emit tick bind ret raise try_except fst snd
       now stats created_wallets log].
  rewrite Hn.
  repeat split_match; cbv beta iota zeta; (split; [reflexivity|]);
    do 4 eexists;
    match goal with
    | |- _ /\ _ /\ ?D =>
        assert (HD : D)
          by (first [ left; eexists; repeat split; reflexivity
                    | right; repeat split; reflexivity ]);
        split; [|split]; [apply uniform_between; discriminate .. | exact HD]
    end.
Qed.

Lemma create_wallets_steps (n : Z) s :
  let r := create_wallets env n s in
  fst r = Ok tt /\ steps creation_step (length (range n)) s (snd r).
Proof.
  destruct (for_each_steps (fun _ => True) creation_step
              (create_one env n) (range n)) with (s := s)
    as (H1 & H2 & _); [|exact I|split; assumption].
  intros x t Hx _.
  destruct (create_one_step n x t) as [Ha Hb];
    [eapply range_positive; eassumption|].
  repeat split; assumption.
Qed.

Lemma run_operations_steps (n : Z) s :
  let r := run_operations env n s in
  fst r = Ok tt /\ steps operation_step (length (range n)) s (snd r).
Proof.
  destruct (for_each_steps (fun _ => True) operation_step
              (one_operation env n) (range n)) with (s := s)
    as (H1 & H2 & _); [|exact I|split; assumption].
  intros x t Hx _.
  destruct (one_operation_run n x t) as (H1 & H2 & H3);
    [eapply range_positive; eassumption|].
  repeat split; assumption.
Qed.

Lemma check_ledger_reports (wallet : WalletJson) s :
  fst (check_ledger env wallet s) = Ok tt /\
  stats (snd (check_ledger env wallet s)) = stats s /\
  created_wallets (snd (check_ledger env wallet s)) = created_wallets s /\
  exists resp line,
    log (snd (check_ledger env wallet s)) =
      (log s ++ [Http (GetLedger (id wallet)) resp; Console line])%list.
Proof.
  cbv [check_ledger get_ledger_entries fetch_ledger http_error print
       emit tick bind ret raise try_except fst snd
       now stats created_wallets log].
  repeat split_match; cbv beta iota zeta; rewrite <- ?app_assoc; cbn [app];
    repeat split; eauto.
Qed.

Lemma verify_verified s :
  fst (verify env s) = Ok tt /\ verified id 5 s (snd (verify env s)).
Proof.
  set (k := Z.to_nat (Z.min 5 (Z.of_nat (length (created_wallets s))))).
  destruct (sample_spec env k (created_wallets s) s)
    as (l & rest & s1 & Hrun & (Hst & Hcw & Hlog) & Hlen & Hperm);
    [unfold k; lia|].
  change (verify env s)
    with (match sample env (created_wallets s) k s with
          | (Ok sample_wallets, s') =>
              for_each sample_wallets (check_ledger env) s'
          | (Raise e, s') => (Raise e, s')
          end).
  rewrite Hrun.
  destruct (report_loop id (check_ledger env) check_ledger_reports l s1)
    as (Hok & Hst' & Hcw' & evs & Hrep & Hlog').
  split; [exact Hok|]. split; [congruence|]. split; [congruence|].
  exists l, rest, evs. repeat split; try assumption.
  - unfold k in Hlen. lia.
  - congruence.
Qed.

Lemma main_with_phases (nw nops : Z) s :
  main_with env nw nops s =
  match create_wallets env nw s with
  | (Ok _, s1) =>
      if (wallets_created (stats s1) =? 0)%Z
      then (Raise (SystemExit 1), printed "No wallets created. Exiting..." s1)
      else match run_operations env nops s1 with
           | (Ok _, s2) => verify env s2
           | (Raise e, s2) => (Raise e, s2)
           end
  | (Raise e, s1) => (Raise e, s1)
  end.
Proof.
  unfold main_with, bind, read_stats.
  destruct (create_wallets env nw s) as [[[]|e] s1]; [|reflexivity].
  destruct (wallets_created (stats s1) =? 0)%Z; reflexivity.
Qed.

(** The runs of [main]. *)
Lemma main_with_run (nw nops : Z) :
  main_run nw nops (fst (main_with env nw nops start))
                   (snd (main_with env nw nops start)).
Proof.
  rewrite main_with_phases.
  destruct (create_wallets_steps nw start) as [Hok1 Hsteps1].
  rewrite range_length in Hsteps1.
  destruct (create_wallets env nw start) as [[[]|e] s1];
    cbn [fst snd] in *; [|discriminate].
  destruct (Z.eqb_spec (wallets_created (stats s1)) 0) as [E | NE].
  - apply (main_aborted _ _ s1); assumption.
  - destruct (run_operations_steps nops s1) as [Hok2 Hsteps2].
    rewrite range_length in Hsteps2.
    destruct (run_operations env nops s1) as [[[]|e] s2];
      cbn [fst snd] in *; [|discriminate].
    destruct (verify_verified s2) as [Hok3 Hver].
    destruct (verify env s2) as [[[]|e] s3]; cbn [fst snd] in *; [|discriminate].
    eapply main_completed; eassumption.
Qed.
End LoadTestSteps.

(** ** Counting in the history *)

Ltac ground_eqb :=
  repeat match goal with
         | |- context [String.eqb (String ?a ?x) (String ?b ?y)] =>
             let v := eval vm_compute in
                        (String.eqb (String a x) (String b y)) in
             change (String.eqb (String a x) (String b y)) with v
         end; cbv iota.



Section Counting.
Context {A : Type}.
Implicit Types h evs : list (Event A).

Lemma attempts_app kind h evs :
  attempts kind (h ++ evs) = (attempts kind h + attempts kind evs)%Z.
Proof. unfold attempts. rewrite List.filter_app, length_app. lia. Qed.

Lemma creations_app h evs :
  creations (h ++ evs) = (creations h + creations evs)%Z.
Proof. unfold creations. rewrite List.filter_app, length_app. lia. Qed.

Lemma attempts_chose kind op evs :
  attempts kind (Chose op :: evs) =
  ((if String.eqb op kind then 1 else 0) + attempts kind evs)%Z.
Proof.
  unfold attempts. cbn [List.filter is_chosen].
  destruct (String.eqb op kind); cbn [length]; lia.
Qed.

Lemma report_quiet ids evs :
  ledger_report ids evs ->
  (forall kind, attempts kind evs = 0%Z) /\ creations evs = 0%Z /\
  Forall (fun e => amount_sent e = None) evs /\
  Forall (fun e => is_mutation e = false) evs.
Proof.
  induction 1 as [|wallet_id ids resp line evs _ (IH1 & IH2 & IH3 & IH4)].
  - repeat split; constructor.
  - repeat split; try (intros kind; apply IH1); try exact IH2;
      repeat constructor; assumption.
Qed.
End Counting.

Section LoadTestCounting.
Import LoadTestWallets LoadTestWalletsRuns.

Lemma run_quiet wallets op evs o :
  run wallets op evs o ->
  (forall kind, attempts kind evs = 0%Z) /\ creations evs = 0%Z.
Proof. destruct 1; split; reflexivity. Qed.


Lemma wallets_counted op o c :
  wallets_created (counted op o c) = wallets_created c /\
  wallets_failed (counted op o c) = wallets_failed c.
Proof.
  unfold counted.
  destruct (String.eqb op "credit"); [destruct o; split; reflexivity|].
  destruct (String.eqb op "debit"); [destruct o; split; reflexivity|].
  destruct (String.eqb op "transfer"); [destruct o; split; reflexivity|].
  split; reflexivity.
Qed.







End LoadTestCounting.

Lemma randint_between (r a b : Z) :
  (a <= b -> a <= a + r mod (b - a + 1) <= b)%Z.
Proof.
  intros Hab. pose proof (Z.mod_pos_bound r (b - a + 1)). lia.
Qed.

Section QuickSteps.
Import QuickLoadTest QuickLoadTestRuns.
Variable env : Env.

Ltac run_all :=
  cbv [perform_operation gen_id write_cap
       post http_error sleep
       choice randint randbelow time_ms
       read_wallets read_stats set_stats emit tick
       bind ret raise try_except fst snd
       now stats created_wallets log].

Ltac split_match :=
  match goal with
  | |- context [match ?x with _ => _ end] =>
      lazymatch x with
      | context [match _ with _ => _ end] => fail
      | _ => destruct x eqn:?
      end
  end.

Ltac by_run c :=
  refine (ex_intro _ _ (ex_intro _ _ (ex_intro _ _
            (conj eq_refl (conj _ (conj _ (conj eq_refl _)))))));
  only 2: (first [ eapply c with (accepted := true)
                 | eapply c with (accepted := false) ]);
  try solve [ split; reflexivity | apply drawn_in
            | apply randint_between; lia ].

Ltac quiet c :=
  eexists _, [], Failed; split; [reflexivity|]; split; [split; reflexivity|];
  split; [apply c | split; [symmetry; apply app_nil_r | split; reflexivity]].

Lemma perform_credit (wallet_ids : list string) s :
  performed "credit" wallet_ids s (perform_operation env "credit" wallet_ids s).
Proof.
  unfold performed.
  run_all. change (String.eqb "credit" "credit") with true. cbv iota.
  repeat split_match; cbv beta iota zeta.
  - quiet credit_no_wallet. reflexivity.
  - by_run credit_sent.
  - by_run credit_sent.
Qed.

Lemma perform_debit (wallet_ids : list string) s :
  performed "debit" wallet_ids s (perform_operation env "debit" wallet_ids s).
Proof.
  unfold performed.
  run_all. change (String.eqb "debit" "credit") with false.
  change (String.eqb "debit" "debit") with true. cbv iota.
  repeat split_match; cbv beta iota zeta.
  - quiet debit_no_wallet. reflexivity.
  - by_run debit_sent.
  - by_run debit_sent.
Qed.

Lemma partner_id_in (r : Z) (w : string) (ws cands : list string)
    (x d : string) :
  List.filter (fun w0 => negb (String.eqb w0 w)) ws = x :: cands ->
  In (nth (Z.to_nat (r mod Z.of_nat (length (x :: cands)))) (x :: cands) d) ws.
Proof.
  intros Hf.
  pose proof (drawn_in r x cands d) as Hin.
  rewrite <- Hf in Hin at 3. apply filter_In in Hin as [Hin _]. exact Hin.
Qed.

Lemma partner_id_differs (r : Z) (w : string) (ws cands : list string)
    (x d : string) :
  List.filter (fun w0 => negb (String.eqb w0 w)) ws = x :: cands ->
  nth (Z.to_nat (r mod Z.of_nat (length (x :: cands)))) (x :: cands) d <> w.
Proof.
  intros Hf.
  pose proof (drawn_in r x cands d) as Hin.
  rewrite <- Hf in Hin at 3. apply filter_In in Hin as [_ Hne].
  apply negb_true_iff, String.eqb_neq in Hne. exact Hne.
Qed.

Lemma perform_transfer (wallet_ids : list string) s :
  performed "transfer" wallet_ids s
    (perform_operation env "transfer" wallet_ids s).
Proof.
  unfold performed.
  run_all. change (String.eqb "transfer" "credit") with false.
  change (String.eqb "transfer" "debit") with false.
  change (String.eqb "transfer" "transfer") with true. cbv iota.
  repeat split_match; cbv beta iota zeta.
  - quiet transfer_too_few. apply Z.ltb_lt in Heqb. lia.
  - discriminate Heqb.
  - quiet transfer_no_partner. apply Z.ltb_ge in Heqb. lia.
  - by_run transfer_sent;
      first [ exact (partner_id_in _ _ _ _ _ _ Heql0)
            | exact (partner_id_differs _ _ _ _ _ _ Heql0) ].
  - by_run transfer_sent;
      first [ exact (partner_id_in _ _ _ _ _ _ Heql0)
            | exact (partner_id_differs _ _ _ _ _ _ Heql0) ].
Qed.

Lemma perform_operation_performed (op : string) (wallet_ids : list string) s :
  In op operation_kinds ->
  performed op wallet_ids s (perform_operation env op wallet_ids s).
Proof.
  intros [<- | [<- | [<- | []]]];
    [apply perform_credit | apply perform_debit | apply perform_transfer].
Qed.

Lemma one_operation_made s :
  exists res op o evs s',
    one_operation env s = (Ok (Some res), s') /\ In op operation_kinds /\
    result_of op o res /\ run (created_wallets s) op evs o /\
    log s' = (log s ++ Chose op :: evs)%list /\
    stats s' = stats s /\ created_wallets s' = created_wallets s.
Proof.
  pose (op := nth (Z.to_nat (rand env (now s)
                     mod Z.of_nat (length operation_kinds)))
                operation_kinds "credit").
  pose (s1 := mkState (S (now s)) (stats s) (created_wallets s)
                (log s ++ [Chose op])).
  change (one_operation env s)
    with (perform_operation env op (created_wallets s) s1).
  assert (Hop : In op operation_kinds) by apply drawn_in.
  destruct (perform_operation_performed op (created_wallets s) s1 Hop)
    as (res & evs & o & H1 & H2 & H3 & H4 & H5 & H6).
  destruct (perform_operation env op (created_wallets s) s1) as [r s'].
  cbn [fst snd] in *. subst r.
  exists res, op, o, evs, s'. repeat split; try assumption; try apply H2.
  rewrite H4. unfold s1; cbn [log]. now rewrite <- app_assoc.
Qed.

Lemma tracked_tally1 st t : tracked st -> tracked (tally1 st t).
Proof.
  intros Ht kind Hk. unfold tally1.
  destruct (st !! fst t) as [c|] eqn:E; [|auto].
  rewrite lookup_insert. case_decide; [eauto | auto].
Qed.

Lemma tracked_tally_all ts : forall st, tracked st -> tracked (tally_all ts st).
Proof.
  induction ts as [|t ts IH]; intros st Ht; [exact Ht|].
  apply IH, tracked_tally1, Ht.
Qed.

Lemma kinds_are_keys op : In op operation_kinds -> In op stats_keys.
Proof. intros H. right. exact H. Qed.

Lemma record_operation_tallied res op o s :
  tracked (stats s) -> In op stats_keys -> r_type res = op ->
  r_success res = flag o ->
  (if r_success res then add_success (r_type res) else add_failed (r_type res)) s
  = (Ok tt, mkState (now s) (tally1 (stats s) (op, o)) (created_wallets s)
              (log s)).
Proof.
  intros Ht Hop Hty Hfl. destruct (Ht op Hop) as [c Hc].
  rewrite Hty, Hfl. unfold tally1. cbn [fst snd]. rewrite Hc.
  destruct o; cbn [flag]; unfold add_success, add_failed, bind, read_stats,
    set_stats; rewrite Hc; reflexivity.
Qed.

(** The sequential operations loop. *)
Lemma operations_loop {X} (xs : list X) : forall s,
  tracked (stats s) ->
  exists ts evs s',
    for_each xs
      (fun _ => let* r := one_operation env in
                record_operation r ;;; sleep (1 # 20)) s = (Ok tt, s') /\
    made (created_wallets s) ts evs /\ length ts = length xs /\
    log s' = (log s ++ evs)%list /\ stats s' = tally_all ts (stats s) /\
    created_wallets s' = created_wallets s.
Proof.
  induction xs as [|x xs IH]; intros s Ht.
  - exists [], [], s. repeat split; [constructor | now rewrite app_nil_r].
  - destruct (one_operation_made s)
      as (res & op & o & evs & s1 & Hrun & Hop & [Hty Hfl] & Hr & Hlog & Hst & Hcw).
    pose (s2 := mkState (now s1) (tally1 (stats s1) (op, o))
                  (created_wallets s1) (log s1)).
    destruct (IH s2) as (ts & rest & s' & Hloop & Hmade & Hlen & Hlog' & Hst' & Hcw').
    { apply tracked_tally1. cbn. now rewrite Hst. }
    exists ((op, o) :: ts), (Chose op :: evs ++ rest), s'.
    split; [|split; [|split; [|split; [|split]]]].
    + cbn [for_each]. unfold bind at 1. unfold bind at 1. rewrite Hrun.
      unfold record_operation, bind at 1.
      rewrite (record_operation_tallied res op o s1);
        [ | now rewrite Hst | now apply kinds_are_keys | assumption | assumption ].
      exact Hloop.
    + constructor; [assumption.. | ]. now rewrite <- Hcw.
    + cbn [length]. now rewrite Hlen.
    + rewrite Hlog'. unfold s2; cbn [log]. rewrite Hlog, <- app_assoc.
      reflexivity.
    + rewrite Hst'. unfold s2; cbn [stats]. now rewrite Hst.
    + rewrite Hcw'. exact Hcw.
Qed.

(** The workers finish in some order: [as_completed] permutes. *)
Lemma as_completed_permutes {X} (fs : list X) : forall s,
  exists done s',
    as_completed env fs s = (Ok done, s') /\ Permutation done fs /\
    only_time s s'.
Proof.
  induction fs as [|f fs IH]; intros s.
  - exists [], s. repeat split. constructor.
  - destruct (IH s) as (later & s1 & Hrun & Hperm & Hst & Hcw & Hlog).
    eexists _, _. split.
    + cbn [as_completed]. unfold bind at 1. rewrite Hrun.
      unfold bind, tick, ret. reflexivity.
    + split; [|repeat split; assumption].
      rewrite <- Permutation_middle, take_drop. now constructor.
Qed.

Lemma submit_operations {X} (xs : list X) : forall s,
  exists futures ts evs s',
    submit_all (map (fun _ => one_operation env) xs) s = (Ok futures, s') /\
    Forall2 future_of futures ts /\
    made (created_wallets s) ts evs /\ length ts = length xs /\
    log s' = (log s ++ evs)%list /\ stats s' = stats s /\
    created_wallets s' = created_wallets s.
Proof.
  induction xs as [|x xs IH]; intros s.
  - exists [], [], [], s. repeat split; [constructor.. | now rewrite app_nil_r].
  - destruct (one_operation_made s)
      as (res & op & o & evs & s1 & Hrun & Hop & Hres & Hr & Hlog & Hst & Hcw).
    destruct (IH s1)
      as (fs & ts & rest & s' & Hsub & Hfut & Hmade & Hlen & Hlog' & Hst' & Hcw').
    exists (Ok (Some res) :: fs), ((op, o) :: ts), (Chose op :: evs ++ rest), s'.
    split; [|split; [|split; [|split; [|split; [|split]]]]].
    + cbn [map submit_all]. unfold bind at 1, submit at 1. rewrite Hrun.
      unfold bind at 1. rewrite Hsub. reflexivity.
    + constructor; [|assumption]. exists res. auto.
    + constructor; [assumption.. | ]. now rewrite <- Hcw.
    + cbn [length]. now rewrite Hlen.
    + rewrite Hlog', Hlog, <- app_assoc. reflexivity.
    + congruence.
    + congruence.
Qed.

Lemma record_operations done : forall ts s,
  Forall2 future_of done ts -> tracked (stats s) ->
  for_each done (fun future => let* r := result future in record_operation r) s
  = (Ok tt, mkState (now s) (tally_all ts (stats s)) (created_wallets s)
              (log s)).
Proof.
  induction done as [|f done IH]; intros ts s Hfut Ht.
  - inversion Hfut; subst. destruct s; reflexivity.
  - inversion Hfut as [|f' [op o] done' ts' (res & -> & Hop & Hty & Hfl) Hrest];
      subst. cbn [fst snd] in *.
    cbn [for_each]. unfold bind at 1, bind at 1, result, ret, record_operation.
    rewrite (record_operation_tallied res op o s);
      [ | assumption | now apply kinds_are_keys | assumption | assumption ].
    rewrite (IH ts' _ Hrest); [reflexivity|].
    now apply tracked_tally1.
Qed.

(** The operations phase, in either mode. *)
Lemma run_operations_phase (args : Args) s :
  tracked (stats s) -> (fast args = true -> (0 < workers args)%Z) ->
  fst (run_operations env args s) = Ok tt /\
  operations_phase (Z.to_nat (operations args)) s
    (snd (run_operations env args s)).
Proof.
  intros Ht Hw. unfold run_operations, operations_phase.
  destruct (fast args).
  - unfold executor. specialize (Hw eq_refl).
    destruct (Z.leb_spec (workers args) 0) as [Hle | _]; [lia|].
    destruct (submit_operations (range (operations args)) s)
      as (fs & ts & evs & s1 & Hsub & Hfut & Hmade & Hlen & Hlog & Hst & Hcw).
    destruct (as_completed_permutes fs s1)
      as (done & s2 & Hdone & Hperm & Hst2 & Hcw2 & Hlog2).
    destruct (Permutation_Forall2 (Permutation_sym Hperm) Hfut)
      as (ts' & Hperm' & Hfut').
    match goal with
    | |- fst (?c s) = _ /\ _ =>
        assert (E : c s = (Ok tt, mkState (now s2) (tally_all ts' (stats s2))
                                    (created_wallets s2) (log s2)))
    end.
    { unfold bind at 1. rewrite Hsub. unfold bind at 1. rewrite Hdone.
      apply record_operations; [exact Hfut'|]. rewrite Hst2, Hst. exact Ht. }
    rewrite E. cbn [fst snd created_wallets log stats].
    split; [reflexivity|]. split; [congruence|].
    exists ts, ts', evs. rewrite range_length in Hlen.
    repeat split; try assumption; try congruence.
    now apply Permutation_sym.
  - destruct (operations_loop (range (operations args)) s Ht)
      as (ts & evs & s' & Hloop & Hmade & Hlen & Hlog & Hst & Hcw).
    rewrite Hloop. cbn [fst snd]. split; [reflexivity|]. split; [exact Hcw|].
    exists ts, ts, evs. rewrite range_length in Hlen.
    repeat split; try assumption. reflexivity.
Qed.

(** *** The creation phase *)







Lemma quick_check_ledger_reports (wallet_id : string) s :
  fst (check_ledger env wallet_id s) = Ok tt /\
  stats (snd (check_ledger env wallet_id s)) = stats s /\
  created_wallets (snd (check_ledger env wallet_id s)) = created_wallets s /\
  exists resp line,
    log (snd (check_ledger env wallet_id s)) =
      (log s ++ [Http (GetLedger wallet_id) resp; Console line])%list.
Proof.
  cbv [check_ledger fetch_ledger http_error print
       emit tick bind ret raise try_except fst snd
       now stats created_wallets log].
  repeat split_match; cbv beta iota zeta; rewrite <- ?app_assoc; cbn [app];
    repeat split; eauto.
Qed.

Lemma quick_verify_verified s :
  fst (verify env s) = Ok tt /\
  verified (fun wallet_id : string => wallet_id) 5 s (snd (verify env s)).
Proof.
  set (k := Z.to_nat (Z.min 5 (Z.of_nat (length (created_wallets s))))).
  destruct (sample_spec env k (created_wallets s) s)
    as (l & rest & s1 & Hrun & (Hst & Hcw & Hlog) & Hlen & Hperm);
    [unfold k; lia|].
  change (verify env s)
    with (match sample env (created_wallets s) k s with
          | (Ok sample_wallets, s') =>
              for_each sample_wallets (check_ledger env) s'
          | (Raise e, s') => (Raise e, s')
          end).
  rewrite Hrun.
  destruct (report_loop (fun wallet_id : string => wallet_id)
              (check_ledger env) quick_check_ledger_reports l s1)
    as (Hok & Hst' & Hcw' & evs & Hrep & Hlog').
  split; [exact Hok|]. split; [congruence|]. split; [congruence|].
  exists l, rest, evs. repeat split; try assumption.
  - unfold k in Hlen. lia.
  - congruence.
Qed.

Lemma main_phases (args : Args) s :
  main env args s =
  match create_wallets env args s with
  | (Ok _, s1) =>
      match created_wallets s1 with
      | [] => (Ok tt, printed "No wallets created. Exiting..." s1)
      | _ :: _ =>
          match run_operations env args s1 with
          | (Ok _, s2) => verify env s2
          | (Raise e, s2) => (Raise e, s2)
          end
      end
  | (Raise e, s1) => (Raise e, s1)
  end.
Proof.
  unfold main, bind, read_wallets.
  destruct (create_wallets env args s) as [[[]|e] s1]; [|reflexivity].
  destruct (created_wallets s1); reflexivity.
Qed.

Lemma tracked_start : tracked (stats start).
Proof.
  intros kind [<- | [<- | [<- | [<- | []]]]]; vm_compute; eauto.
Qed.

End QuickSteps.

Section QuickCounting.
Import QuickLoadTest QuickLoadTestRuns.

Lemma quick_run_quiet wallet_ids op evs o :
  run wallet_ids op evs o ->
  (forall kind, attempts kind evs = 0%Z) /\ creations evs = 0%Z.
Proof. destruct 1; split; reflexivity. Qed.

Lemma occurrences_cons kind t ts :
  occurrences kind (t :: ts) =
  ((if String.eqb (fst t) kind then 1 else 0) + occurrences kind ts)%Z.
Proof.
  unfold occurrences. cbn [List.filter].
  destruct (String.eqb (fst t) kind); cbn [length]; lia.
Qed.




Lemma made_counts wallet_ids ts evs :
  made wallet_ids ts evs ->
  (forall kind, attempts kind evs = occurrences kind ts) /\
  creations evs = 0%Z /\
  Forall (fun t => In (fst t) operation_kinds) ts.
Proof.
  induction 1 as [|op o evs ts rest Hop Hrun _ (IH1 & IH2 & IH3)].
  - repeat split. constructor.
  - destruct (quick_run_quiet _ _ _ _ Hrun) as [Hq Hc].
    split; [|split].
    + intros kind. rewrite attempts_chose, attempts_app, Hq, IH1,
        occurrences_cons. cbn [fst]. lia.
    + change (creations (Chose op :: evs ++ rest))
        with (creations (evs ++ rest)).
      rewrite creations_app, Hc, IH2. reflexivity.
    + constructor; assumption.
Qed.

End QuickCounting.

(** ** Programs that leave the population alone *)

Section Frames.
Context {St A W : Type}.
Local Abbreviation M := (Prog St A W).

Lemma keeps_ret {X} (x : X) : keeps_wallets (ret x : M X).
Proof. intros s. reflexivity. Qed.

Lemma keeps_raise {X} (e : Exn) : keeps_wallets (raise e : M X).
Proof. intros s. reflexivity. Qed.

Lemma keeps_bind {X Y} (c : M X) (k : X -> M Y) :
  keeps_wallets c -> (forall x, keeps_wallets (k x)) ->
  keeps_wallets (bind c k).
Proof.
  intros Hc Hk s. unfold bind. specialize (Hc s).
  destruct (c s) as [[x|e] s1]; cbn [snd] in *; [|exact Hc].
  now rewrite Hk.
Qed.

Lemma keeps_try {X} (body : M X) (handler : string -> M X) :
  keeps_wallets body -> (forall e, keeps_wallets (handler e)) ->
  keeps_wallets (try_except body handler).
Proof.
  intros Hb Hh s. unfold try_except. specialize (Hb s).
  destruct (body s) as [[x|[e|code|]] s1]; cbn [snd] in *; try exact Hb.
  now rewrite Hh.
Qed.

Lemma keeps_tick : keeps_wallets (tick : M nat).
Proof. intros s. reflexivity. Qed.

Lemma keeps_emit (e : Event A) : keeps_wallets (emit e : M unit).
Proof. intros s. reflexivity. Qed.

Lemma keeps_set_stats (f : St -> St) : keeps_wallets (set_stats f : M unit).
Proof. intros s. reflexivity. Qed.

Lemma keeps_read_wallets : keeps_wallets (read_wallets : M (list W)).
Proof. intros s. reflexivity. Qed.

Lemma keeps_read_stats : keeps_wallets (read_stats : M St).
Proof. intros s. reflexivity. Qed.

Lemma keeps_for_each {X} (xs : list X) (body : X -> M unit) :
  (forall x, keeps_wallets (body x)) -> keeps_wallets (for_each xs body).
Proof.
  intros Hb. induction xs as [|x xs IH]; cbn [for_each].
  - apply keeps_ret.
  - apply keeps_bind; [apply Hb | intros _; exact IH].
Qed.

Lemma keeps_sample (env : Env) {X} (k : nat) : forall pool : list X,
  keeps_wallets (sample env pool k : M (list X)).
Proof.
  induction k as [|k IH]; intros pool; cbn [sample].
  - apply keeps_ret.
  - destruct pool; [apply keeps_raise|].
    unfold randbelow.
    repeat first [ apply keeps_bind | apply keeps_tick | apply keeps_ret
                 | apply IH | match goal with |- forall _, _ => intro end ].
Qed.
End Frames.

Create HintDb frame discriminated.
#[export] Hint Resolve keeps_ret keeps_raise keeps_tick keeps_emit
  keeps_set_stats keeps_read_wallets keeps_read_stats keeps_sample : frame.

Ltac frame :=
  repeat first
    [ progress auto with frame
    | apply keeps_bind
    | apply keeps_try
    | apply keeps_for_each
    | match goal with
      | |- keeps_wallets (if ?b then _ else _) => destruct b
      | |- keeps_wallets (match ?x with _ => _ end) => destruct x
      | |- forall _, _ => intro
      end ].

Section Populations.
Variable env : Env.

Lemma load_test_attempt_keeps (n i : Z) (operation : string) :
  keeps_wallets (LoadTestWallets.attempt env n i operation).
Proof.
  unfold LoadTestWallets.attempt, LoadTestWallets.credit_branch,
    LoadTestWallets.debit_branch, LoadTestWallets.transfer_branch,
    LoadTestWallets.operation_failed, LoadTestWallets.credit_wallet,
    LoadTestWallets.debit_wallet, LoadTestWallets.transfer_wallet,
    LoadTestWallets.get_wallet, LoadTestWallets.generate_idempotency_key,
    LoadTestWallets.print_progress_bar, post, fetch_wallet, sleep,
    choice, uniform, random, randint, randbelow, time_ms.
  frame.
Qed.

#[local] Hint Resolve load_test_attempt_keeps : frame.

Lemma load_test_operations_keep (n : Z) :
  keeps_wallets (LoadTestWallets.run_operations env n).
Proof.
  unfold LoadTestWallets.run_operations, LoadTestWallets.one_operation,
    LoadTestWallets.operation_kinds, choice, randbelow.
  frame.
Qed.

Lemma load_test_verify_keeps : keeps_wallets (LoadTestWallets.verify env).
Proof.
  unfold LoadTestWallets.verify, LoadTestWallets.check_ledger,
    LoadTestWallets.get_ledger_entries, fetch_ledger, print.
  frame.
Qed.

Lemma quick_perform_keeps (op_type : string) (wallet_ids : list string) :
  keeps_wallets (QuickLoadTest.perform_operation env op_type wallet_ids).
Proof.
  unfold QuickLoadTest.perform_operation, QuickLoadTest.gen_id,
    QuickLoadTest.write_cap, post, choice, randint, randbelow, time_ms.
  frame.
Qed.

Lemma quick_record_keeps (r : option QuickLoadTest.OpResult) :
  keeps_wallets (QuickLoadTest.record_operation r).
Proof.
  unfold QuickLoadTest.record_operation, QuickLoadTest.add_success,
    QuickLoadTest.add_failed.
  frame.
Qed.

#[local] Hint Resolve quick_perform_keeps quick_record_keeps : frame.

Lemma quick_one_operation_keeps :
  keeps_wallets (QuickLoadTest.one_operation env).
Proof.
  unfold QuickLoadTest.one_operation, QuickLoadTest.operation_kinds,
    choice, randbelow.
  frame.
Qed.

Lemma keeps_submit_all {X}
    (tasks : list (Prog (gmap string QuickLoadTest.Counter) Z string X)) :
  Forall keeps_wallets tasks -> keeps_wallets (QuickLoadTest.submit_all tasks).
Proof.
  induction 1 as [|task tasks Ht _ IH]; cbn [QuickLoadTest.submit_all].
  - apply keeps_ret.
  - apply keeps_bind.
    + intros s. unfold QuickLoadTest.submit. specialize (Ht s).
      destruct (task s); exact Ht.
    + intros f. apply keeps_bind; [exact IH | intros; apply keeps_ret].
Qed.

Lemma keeps_as_completed {X} (fs : list X) :
  keeps_wallets
    (QuickLoadTest.as_completed env fs
       : Prog (gmap string QuickLoadTest.Counter) Z string (list X)).
Proof.
  induction fs as [|f fs IH]; cbn [QuickLoadTest.as_completed].
  - apply keeps_ret.
  - frame.
Qed.

Lemma quick_operations_keep (args : QuickLoadTest.Args) :
  keeps_wallets (QuickLoadTest.run_operations env args).
Proof.
  unfold QuickLoadTest.run_operations, QuickLoadTest.executor, sleep.
  destruct (QuickLoadTest.fast args).
  - destruct (_ <=? _)%Z; [apply keeps_raise|].
    apply keeps_bind.
    + apply keeps_submit_all, List.Forall_forall. intros task Htask.
      apply in_map_iff in Htask as (x & <- & _).
      apply quick_one_operation_keeps.
    + intros fs. apply keeps_bind; [apply keeps_as_completed|].
      intros done. apply keeps_for_each. intros [r|e].
      * apply keeps_bind; [apply keeps_ret | apply quick_record_keeps].
      * apply keeps_bind; [apply keeps_raise | apply quick_record_keeps].
  - apply keeps_for_each. intros _.
    apply keeps_bind; [apply quick_one_operation_keeps|]. intros r.
    apply keeps_bind; [apply quick_record_keeps | intros; apply keeps_ret].
Qed.

Lemma quick_verify_keeps : keeps_wallets (QuickLoadTest.verify env).
Proof.
  unfold QuickLoadTest.verify, QuickLoadTest.check_ledger, fetch_ledger, print.
  frame.
Qed.
End Populations.

(** ** Rounding to hundredths *)

Lemma floor_le_round (q : Q) : (Qfloor q <= round_half_even q)%Z.
Proof.
  unfold round_half_even. destruct (_ ?= _)%Q; [destruct (Z.even _)|..]; lia.
Qed.

Lemma round_le_whole (q : Q) (k : Z) :
  (q <= inject_Z k)%Q -> (round_half_even q <= k)%Z.
Proof.
  intros H. unfold round_half_even.
  pose proof (Qfloor_le q) as Hf.
  assert (Hfk : (Qfloor q <= k)%Z).
  { rewrite <- (Qfloor_Z k). now apply Qfloor_resp_le. }
  destruct (Z.eq_dec (Qfloor q) k) as [E | NE].
  - assert (q - inject_Z (Qfloor q) == 0)%Q as Hz.
    { rewrite E in *. clear - H Hf. lra. }
    rewrite Hz. change (0 ?= 1 # 2)%Q with Lt. cbv iota. lia.
  - destruct (_ ?= _)%Q; [destruct (Z.even _)|..]; lia.
Qed.

Ltac hundredths :=
  unfold Qdiv in *; change (/ 100)%Q with (1 # 100)%Q in *.

Lemma round2_two_decimals (x : Q) : (10 <= x)%Q -> two_decimals (round2 x).
Proof.
  intros H. exists (round_half_even (x * 100)). split; [|reflexivity].
  etransitivity; [|apply floor_le_round].
  rewrite <- (Qfloor_Z 1000). apply Qfloor_resp_le.
  change (inject_Z 1000) with 1000%Q. lra.
Qed.

Lemma round2_upper (x : Q) (k : Z) :
  (x <= inject_Z k)%Q -> (round2 x <= inject_Z k)%Q.
Proof.
  intros H. unfold round2.
  assert (Hk : (round_half_even (x * 100) <= k * 100)%Z).
  { apply round_le_whole. rewrite inject_Z_mult.
    change (inject_Z 100) with 100%Q. lra. }
  rewrite Zle_Qle, inject_Z_mult in Hk.
  change (inject_Z 100) with 100%Q in Hk. hundredths. lra.
Qed.

Lemma two_decimals_least (a : Q) : two_decimals a -> (10 <= a)%Q.
Proof.
  intros (k & Hk & ->). rewrite Zle_Qle in Hk.
  change (inject_Z 1000) with 1000%Q in Hk. hundredths. lra.
Qed.

(** ** The amounts on the wire *)

Section Amounts.
Context {A : Type}.
Variable P : A -> Prop.


End Amounts.

Section LoadTestAmounts.
Import LoadTestWallets LoadTestWalletsRuns.




End LoadTestAmounts.

Section QuickAmounts.
Import QuickLoadTest QuickLoadTestRuns.





(** *** The counters after the phases *)







End QuickAmounts.

(** * The properties of the specification *)

Section LoadTestCounts.
Import LoadTestWallets LoadTestWalletsRuns.

End LoadTestCounts.

Section QuickCounts.
Import QuickLoadTest QuickLoadTestRuns.

End QuickCounts.



Section LoadTestAbort.
Import LoadTestWallets LoadTestWalletsRuns.

Lemma creation_sends_no_operation n s s' :
  steps creation_step n s s' ->
  Forall (fun e => is_mutation e = false) (log s) ->
  Forall (fun e => is_mutation e = false) (log s').
Proof.
  induction 1 as [s | n s s1 s2 H1 _ IH]; [tauto|].
  intros Hs. apply IH.
  destruct H1 as (key & wid & oid & x & _ & _ & H).
  destruct H as [(w & _ & -> & _) | (_ & -> & _)];
    (apply Forall_app_2; [exact Hs | repeat constructor]).
Qed.

Lemma operations_keep_created n s s' :
  steps operation_step n s s' ->
  wallets_created (stats s') = wallets_created (stats s).
Proof.
  induction 1 as [s | n s s1 s2 H1 _ IH]; [reflexivity|].
  rewrite IH. destruct H1 as (_ & op & evs & o & _ & _ & _ & ->).
  apply wallets_counted.
Qed.

(** [load_test_wallets.py] ends with status 1, before any operation,
    when no wallet was created. *)
Lemma load_test_empty_population_exits (env : Env) (nw nops : Z) :
  let r := dunder_main (main_with env nw nops) start in
  wallets_created (stats (snd r)) = 0%Z ->
  fst r = Raise (SystemExit 1) /\ exit_status (fst r) = 1%Z /\
  Forall (fun e => is_mutation e = false) (log (snd r)).
Proof.
  intros r. subst r. unfold dunder_main.
  pose proof (main_with_run env nw nops) as H.
  destruct (main_with env nw nops start) as [r s]. cbn [fst snd] in H.
  destruct H as [s1 H1 E | s1 s2 s3 H1 NE H2 H3]; cbn [fst snd].
  - intros _. repeat split.
    cbn [printed log]. apply Forall_app_2; [|repeat constructor].
    eapply creation_sends_no_operation; [exact H1 | constructor].
  - intros E. exfalso. apply NE.
    destruct H3 as (Hst & _).
    rewrite <- (operations_keep_created _ _ _ H2), <- Hst. exact E.
Qed.
End LoadTestAbort.

(** C2, at the input where the code departs from it.  With a service
    that cannot be reached, [quick_load_test.py] creates no wallet,
    announces it, makes no operation, and returns from [main]: the
    process ends with status 0. *)
Theorem quick_empty_population_exit_status :
  let r := QuickLoadTest.main service_down (QuickLoadTest.mkArgs 100 200 false 10)
             QuickLoadTest.start in
  created_wallets (snd r) = [] /\
  last (log (snd r)) = Some (Console "No wallets created. Exiting...") /\
  List.filter is_mutation (log (snd r)) = [] /\
  fst r = Ok tt /\ exit_status (fst r) = 0%Z.
Proof. vm_compute. repeat split. Qed.

(** C8, as stated, fails: the interruption and the fault end with the
    same status. *)
Lemma interrupt_and_fault_exit_alike :
  ~ (exit_status (fst (LoadTestWallets.dunder_main (raise KeyboardInterrupt)
                         LoadTestWallets.start))
     <> exit_status (fst (LoadTestWallets.dunder_main
                            (raise (Exception "boom"))
                            LoadTestWallets.start))).
Proof. intros H. apply H. reflexivity. Qed.

(** C8, amended.  When [main] is interrupted by the user, and when it
    raises any other exception, the [__main__] block of
    [load_test_wallets.py] prints a line and exits with status 1 in both
    cases; the two lines differ. *)
Theorem interrupt_and_fault_endings
    (main : Prog LoadTestWallets.Stats Q WalletJson unit)
    (s s' : State LoadTestWallets.Stats Q WalletJson) (e : string) :
  (main s = (Raise KeyboardInterrupt, s') ->
   LoadTestWallets.dunder_main main s
   = (Raise (SystemExit 1), printed "Test interrupted by user" s')) /\
  (main s = (Raise (Exception e), s') ->
   LoadTestWallets.dunder_main main s
   = (Raise (SystemExit 1), printed ("Unexpected error: " ++ e) s')) /\
  "Test interrupted by user" <> "Unexpected error: " ++ e.
Proof.
  unfold LoadTestWallets.dunder_main.
  split; [|split]; [intros -> | intros -> | discriminate]; reflexivity.
Qed.

Lemma interrupt_and_fault_endings_witness :
  exit_status (fst (LoadTestWallets.dunder_main (raise KeyboardInterrupt)
                      LoadTestWallets.start)) = 1%Z /\
  exit_status (fst (LoadTestWallets.dunder_main (raise (Exception "boom"))
                      LoadTestWallets.start)) = 1%Z.
Proof.
  destruct (interrupt_and_fault_endings (raise KeyboardInterrupt)
              LoadTestWallets.start LoadTestWallets.start "boom")
    as (H1 & _ & _).
  destruct (interrupt_and_fault_endings (raise (Exception "boom"))
              LoadTestWallets.start LoadTestWallets.start "boom")
    as (_ & H2 & _).
  rewrite (H1 eq_refl), (H2 eq_refl). split; reflexivity.
Defined.

(** C6.  In both scripts the verifier ends normally whatever the
    service answers; it samples [min(5, |population|)] wallets at
    different positions of the population (the sample together with
    some rest is a permutation of it), makes one ledger request for each
    sampled wallet and prints one line for it, be the answer a ledger
    or a failure; it changes neither the statistics nor the
    population. *)
Theorem verifier_samples_and_reports (env : Env) :
  (forall s, fst (LoadTestWallets.verify env s) = Ok tt /\
             verified id 5 s (snd (LoadTestWallets.verify env s))) /\
  (forall s, fst (QuickLoadTest.verify env s) = Ok tt /\
             verified (fun wallet_id : string => wallet_id) 5 s
               (snd (QuickLoadTest.verify env s))).
Proof.
  split; intros s; [apply verify_verified | apply quick_verify_verified].
Qed.

(** C9.  In both scripts the operations phase and the verification
    phase leave the list [created_wallets] as they found it, however
    they end. *)
Theorem population_is_read_only (env : Env) :
  (forall n, keeps_wallets (LoadTestWallets.run_operations env n)) /\
  keeps_wallets (LoadTestWallets.verify env) /\
  (forall args, keeps_wallets (QuickLoadTest.run_operations env args)) /\
  keeps_wallets (QuickLoadTest.verify env).
Proof.
  split; [|split; [|split]].
  - apply load_test_operations_keep.
  - apply load_test_verify_keeps.
  - apply quick_operations_keep.
  - apply quick_verify_keeps.
Qed.

(** C10.  For a kind among credit, debit and transfer and a non-empty
    list of wallet ids, [perform_operation] returns a dictionary (not
    [None], no exception) whose [type] is the kind that was asked for;
    with the four keys of [stats] in place, the caller's update of
    [stats[result["type"]]] succeeds. *)
Theorem perform_operation_answers (env : Env) (op_type : string)
    (wallet_ids : list string)
    (s : State (gmap string QuickLoadTest.Counter) Z string) :
  In op_type QuickLoadTest.operation_kinds -> wallet_ids <> [] ->
  QuickLoadTestRuns.tracked (stats s) ->
  let r := QuickLoadTest.perform_operation env op_type wallet_ids s in
  exists res,
    fst r = Ok (Some res) /\ QuickLoadTest.r_type res = op_type /\
    is_Some (stats (snd r) !! QuickLoadTest.r_type res) /\
    fst (QuickLoadTest.record_operation (Some res) (snd r)) = Ok tt.
Proof.
  intros Hop _ Ht r. subst r.
  destruct (perform_operation_performed env op_type wallet_ids s Hop)
    as (res & evs & o & Hres & [Hty Hfl] & _ & _ & Hst & _).
  exists res. split; [exact Hres|]. split; [exact Hty|].
  rewrite Hst. split.
  - rewrite Hty. apply Ht, kinds_are_keys, Hop.
  - unfold QuickLoadTest.record_operation.
    rewrite (record_operation_tallied res op_type o);
      [reflexivity | now rewrite Hst | now apply kinds_are_keys
      | assumption | assumption].
Qed.

Lemma perform_operation_answers_witness :
  exists res,
    fst (QuickLoadTest.perform_operation service_up "transfer" ["w1"; "w2"]
           QuickLoadTest.start) = Ok (Some res) /\
    QuickLoadTest.r_type res = "transfer".
Proof.
  destruct (perform_operation_answers service_up "transfer" ["w1"; "w2"]
              QuickLoadTest.start) as (res & H1 & H2 & _).
  - right; right; left; reflexivity.
  - discriminate.
  - apply tracked_start.
  - exists res. split; assumption.
Defined.

Section LoadTestPolicy.
Import LoadTestWallets LoadTestWalletsRuns.
Variable env : Env.

Lemma attempt_runs (n i : Z) (operation : string) s evs :
  n <> 0%Z -> In operation operation_kinds ->
  log (snd (attempt env n i operation s)) = (log s ++ evs)%list ->
  fst (attempt env n i operation s) = Ok tt /\
  exists o, run (created_wallets s) operation evs o /\
            stats (snd (attempt env n i operation s))
            = counted operation o (stats s).
Proof.
  intros Hn Hop Hlog.
  assert (H : fst (attempt env n i operation s) = Ok tt /\
              created_wallets (snd (attempt env n i operation s))
              = created_wallets s /\
              exists evs' o, run (created_wallets s) operation evs' o /\
                log (snd (attempt env n i operation s)) = (log s ++ evs')%list /\
                stats (snd (attempt env n i operation s))
                = counted operation o (stats s)).
  { destruct Hop as [<- | [<- | [<- | []]]];
      [apply attempt_credit | apply attempt_debit | apply attempt_transfer];
      exact Hn. }
  destruct H as (Hok & _ & evs' & o & Hrun & Hlog' & Hst).
  rewrite Hlog' in Hlog. apply app_inv_head in Hlog. subst evs'.
  split; [exact Hok|]. exists o. split; assumption.
Qed.


Lemma transfer_follows_policy (n i : Z) s evs key w w' a d resp :
  n <> 0%Z ->
  log (snd (attempt env n i "transfer" s)) = (log s ++ evs)%list ->
  In (Http (PostTransfer key w w' a d) resp) evs ->
  exists wallet_data x,
    evs = [Http (GetWallet w) (WalletData wallet_data);
           Http (PostTransfer key w w' a d) resp] /\
    (10 <= x)%Q /\ (x <= max_transfer wallet_data)%Q /\ a = round2 x /\
    (10 <= a)%Q /\ (a <= 300)%Q /\ w <> w'.
Proof.
  intros Hn Hlog Hin.
  destruct (attempt_runs n i "transfer" s evs Hn) as (_ & o & Hrun & _);
    [right; right; left; reflexivity | exact Hlog |].
  inversion Hrun; subst; cbn [In] in Hin;
    repeat match goal with
           | H : _ \/ _ |- _ => destruct H
           | H : False |- _ => destruct H
           | H : Http _ _ = Http _ _ |- _ => inversion H; clear H; subst
           end.
  exists wallet_data, x. repeat split; try assumption.
  - apply two_decimals_least, round2_two_decimals. assumption.
  - apply (round2_upper x 300). change (inject_Z 300) with 300%Q.
    pose proof (Q.le_min_r (current_balance_of wallet_data * (3 # 10)) 300).
    unfold max_transfer in *. lra.
  - congruence.
Qed.

End LoadTestPolicy.

Section QuickPolicy.
Import QuickLoadTest QuickLoadTestRuns.
Variable env : Env.

Lemma perform_runs (op : string) (wallet_ids : list string) s evs :
  In op operation_kinds ->
  log (snd (perform_operation env op wallet_ids s)) = (log s ++ evs)%list ->
  exists res o,
    fst (perform_operation env op wallet_ids s) = Ok (Some res) /\
    result_of op o res /\ run wallet_ids op evs o /\
    stats (snd (perform_operation env op wallet_ids s)) = stats s.
Proof.
  intros Hop Hlog.
  destruct (perform_operation_performed env op wallet_ids s Hop)
    as (res & evs' & o & Hres & Hof & Hrun & Hlog' & Hst & _).
  rewrite Hlog' in Hlog. apply app_inv_head in Hlog. subst evs'.
  exists res, o. repeat split; assumption || apply Hof.
Qed.


Lemma quick_transfer_amount (wallet_ids : list string) s evs key w w' a d resp :
  log (snd (perform_operation env "transfer" wallet_ids s))
  = (log s ++ evs)%list ->
  In (Http (PostTransfer key w w' a d) resp) evs ->
  evs = [Http (PostTransfer key w w' a d) resp] /\ (10 <= a <= 300)%Z /\
  w <> w'.
Proof.
  intros Hlog Hin.
  destruct (perform_runs "transfer" wallet_ids s evs)
    as (res & o & _ & _ & Hrun & _);
    [right; right; left; reflexivity | exact Hlog |].
  inversion Hrun; subst; cbn [In] in Hin;
    repeat match goal with
           | H : _ \/ _ |- _ => destruct H
           | H : False |- _ => destruct H
           | H : Http _ _ = Http _ _ |- _ => inversion H; clear H; subst
           end.
  split; [reflexivity|]. split; [assumption | congruence].
Qed.

Lemma quick_lonely_transfer (wallet_ids : list string) s :
  (length wallet_ids < 2)%nat ->
  exists res,
    perform_operation env "transfer" wallet_ids s = (Ok (Some res), s) /\
    r_success res = false /\ r_type res = "transfer".
Proof.
  intros Hlen.
  assert (E : (Z.of_nat (length wallet_ids) <? 2)%Z = true)
    by (apply Z.ltb_lt; lia).
  cbv [perform_operation try_except ret].
  change (String.eqb "transfer" "credit") with false.
  change (String.eqb "transfer" "debit") with false.
  change (String.eqb "transfer" "transfer") with true. cbv iota.
  cbv beta iota zeta. rewrite E.
  eexists. split; [reflexivity|]. split; reflexivity.
Qed.
End QuickPolicy.






Section Lonely.
Variable env : Env.

Lemma load_test_lonely_transfer (n i : Z)
    (s : State LoadTestWallets.Stats Q WalletJson) :
  (length (created_wallets s) < 2)%nat ->
  LoadTestWallets.attempt env n i "transfer" s
  = (Ok tt, mkState (now s) (LoadTestWallets.incr_transfers_failed (stats s))
              (created_wallets s) (log s)).
Proof.
  intros Hlen.
  assert (E : (Z.of_nat (length (created_wallets s)) <? 2)%Z = true)
    by (apply Z.ltb_lt; lia).
  cbv [LoadTestWallets.attempt LoadTestWallets.transfer_branch try_except
       bind read_wallets set_stats ret sleep].
  change (String.eqb "transfer" "credit") with false.
  change (String.eqb "transfer" "debit") with false.
  change (String.eqb "transfer" "transfer") with true. cbv iota.
  cbv beta iota zeta. rewrite E. reflexivity.
Qed.
End Lonely.

(** C5.  In both scripts a transfer request that goes out names two
    different wallets; and with fewer than two wallets the transfer
    makes no request at all and is counted as failed. *)
Theorem transfers_need_two_wallets (env : Env) :
  (forall n i s evs key w w' a d resp,
     n <> 0%Z ->
     log (snd (LoadTestWallets.attempt env n i "transfer" s))
     = (log s ++ evs)%list ->
     In (Http (PostTransfer key w w' a d) resp) evs -> w <> w') /\
  (forall n i s,
     (length (created_wallets s) < 2)%nat ->
     LoadTestWallets.attempt env n i "transfer" s
     = (Ok tt, mkState (now s)
                 (LoadTestWallets.incr_transfers_failed (stats s))
                 (created_wallets s) (log s))) /\
  (forall wallet_ids s evs key w w' a d resp,
     log (snd (QuickLoadTest.perform_operation env "transfer" wallet_ids s))
     = (log s ++ evs)%list ->
     In (Http (PostTransfer key w w' a d) resp) evs -> w <> w') /\
  (forall wallet_ids s,
     (length wallet_ids < 2)%nat -> QuickLoadTestRuns.tracked (stats s) ->
     exists res,
       QuickLoadTest.perform_operation env "transfer" wallet_ids s
       = (Ok (Some res), s) /\
       QuickLoadTest.record_operation (Some res) s
       = (Ok tt, mkState (now s)
                   (QuickLoadTestRuns.tally1 (stats s) ("transfer", Failed))
                   (created_wallets s) (log s))).
Proof.
  split; [|split; [|split]].
  - intros n i s evs key w w' a d resp Hn Hlog Hin.
    destruct (transfer_follows_policy env n i s evs key w w' a d resp Hn Hlog Hin)
      as (wd & x & H). apply H.
  - intros. now apply load_test_lonely_transfer.
  - intros wallet_ids s evs key w w' a d resp Hlog Hin.
    apply (quick_transfer_amount env wallet_ids s evs key w w' a d resp Hlog Hin).
  - intros wallet_ids s Hlen Ht.
    destruct (quick_lonely_transfer env wallet_ids s Hlen) as (res & Hrun & Hs & Hty).
    exists res. split; [exact Hrun|].
    unfold QuickLoadTest.record_operation.
    apply record_operation_tallied; try assumption.
    right; right; right; left; reflexivity.
Qed.

Lemma transfers_need_two_wallets_witness :
  stats (snd (LoadTestWallets.attempt service_up 1 0 "transfer"
                LoadTestWallets.start))
  = LoadTestWallets.incr_transfers_failed LoadTestWallets.stats0.
Proof.
  destruct (transfers_need_two_wallets service_up) as (_ & H & _).
  rewrite (H 1%Z 0%Z LoadTestWallets.start); [reflexivity|].
  cbn. lia.
Defined.




(** * Further properties of the code *)

(** ** The generated identifiers *)

Section Identifiers.

Lemma str_injective (a b : Z) : str a = str b -> a = b.
Proof.
  unfold str. intros H.
  assert (Hn : forall z, Z.to_int z <> Decimal.Pos Decimal.Nil /\
                         Z.to_int z <> Decimal.Neg Decimal.Nil).
  { intros [|p|p]; split; cbn; try discriminate;
      intros [= E]; exact (DecimalPos.Unsigned.to_uint_nonnil p E). }
  apply (f_equal NilZero.int_of_string) in H.
  rewrite !NilZero.isi in H by apply Hn.
  injection H as H. apply (f_equal Z.of_int) in H.
  now rewrite !DecimalZ.of_to in H.
Qed.

Lemma digits_dash_free (d : Decimal.uint) :
  dash_free (NilEmpty.string_of_uint d) = true.
Proof. induction d; cbn; auto. Qed.

Lemma str_dash_free (n : Z) : (0 <= n)%Z -> dash_free (str n) = true.
Proof.
  unfold str. destruct n as [|p|p]; [reflexivity | | lia]. intros _.
  cbn [Z.to_int NilZero.string_of_int]. unfold NilZero.string_of_uint.
  destruct (Pos.to_uint p); try reflexivity; apply digits_dash_free.
Qed.

Lemma dash_inside (a d : string) : dash_free (a ++ String "-" d) = false.
Proof.
  induction a as [|c a IH]; [reflexivity|].
  change (dash_free (String c (a ++ String "-" d)) = false).
  cbn [dash_free]. rewrite IH. apply andb_false_r.
Qed.

(** A string is cut at its last "-" in one way only. *)
Lemma last_dash (a1 a2 d1 d2 : string) :
  dash_free d1 = true -> dash_free d2 = true ->
  a1 ++ String "-" d1 = a2 ++ String "-" d2 -> a1 = a2 /\ d1 = d2.
Proof.
  intros H1 H2. revert a2.
  induction a1 as [|c a1 IH]; intros [|c' a2] H; cbn [String.append] in H.
  - injection H as ->. split; reflexivity.
  - injection H as _ ->. now rewrite (dash_inside a2 d2) in H1.
  - injection H as _ <-. now rewrite (dash_inside a1 d1) in H2.
  - injection H as -> H. destruct (IH a2 H) as [-> ->]. split; reflexivity.
Qed.

Lemma drawn_suffix (r a b : Z) :
  (0 <= a <= b)%Z -> (0 <= a + r mod (b - a + 1))%Z.
Proof. intros H. pose proof (randint_between r a b). lia. Qed.

(** An identifier of the shape [prefix-timestamp-suffix] gives back
    its three parts. *)
Lemma identifier_parts (p1 p2 : string) (t1 t2 r1 r2 : Z) :
  (0 <= t1)%Z -> (0 <= t2)%Z -> (0 <= r1)%Z -> (0 <= r2)%Z ->
  p1 ++ "-" ++ str t1 ++ "-" ++ str r1 = p2 ++ "-" ++ str t2 ++ "-" ++ str r2 ->
  p1 = p2 /\ t1 = t2 /\ r1 = r2.
Proof.
  intros Ht1 Ht2 Hr1 Hr2 H.
  assert (E : forall p t r, p ++ "-" ++ str t ++ "-" ++ str r
                            = (p ++ "-" ++ str t) ++ String "-" (str r)).
  { intros p t r.
    change (p ++ "-" ++ str t ++ "-" ++ str r)
      with (p ++ String "-" (str t ++ String "-" (str r))).
    change (p ++ "-" ++ str t) with (p ++ String "-" (str t)).
    generalize (String "-" (str r)). intros u.
    induction p as [|c p IH]; [reflexivity|].
    change (String c (p ++ String "-" (str t ++ u))
            = String c ((p ++ String "-" (str t)) ++ u)).
    now rewrite IH. }
  rewrite !E in H.
  apply last_dash in H as [H Hr]; try now apply str_dash_free.
  apply last_dash in H as [Hp Ht]; try now apply str_dash_free.
  repeat split; [exact Hp | now apply str_injective..].
Qed.

(** The same with a fixed prefix and any timestamp. *)
Lemma identifier_draws (p : string) (t1 t2 r1 r2 : Z) :
  (0 <= r1)%Z -> (0 <= r2)%Z ->
  p ++ str t1 ++ "-" ++ str r1 = p ++ str t2 ++ "-" ++ str r2 ->
  t1 = t2 /\ r1 = r2.
Proof.
  intros Hr1 Hr2 H.
  assert (H' : str t1 ++ "-" ++ str r1 = str t2 ++ "-" ++ str r2).
  { induction p as [|c p IH]; [exact H|]. injection H as H. exact (IH H). }
  apply last_dash in H' as [Ht Hr]; try now apply str_dash_free.
  split; now apply str_injective.
Qed.
End Identifiers.

(** X1.  In [load_test_wallets.py] two idempotency keys are equal
    exactly when they were generated at the same clock reading (in
    milliseconds) and with the same random suffix, and so are two
    wallet ids: a key is made of these two values and of nothing else
    (no counter, no look at the keys given out before), and it
    determines both. *)
Theorem generated_ids_collide_alike (env : Env)
    (s1 s2 : State LoadTestWallets.Stats Q WalletJson) :
  (fst (LoadTestWallets.generate_idempotency_key env s1)
   = fst (LoadTestWallets.generate_idempotency_key env s2)
   <-> clock env (now s1) = clock env (now s2) /\
       (rand env (S (now s1)) mod 900000
        = rand env (S (now s2)) mod 900000)%Z) /\
  (fst (LoadTestWallets.generate_wallet_id env s1)
   = fst (LoadTestWallets.generate_wallet_id env s2)
   <-> clock env (now s1) = clock env (now s2) /\
       (rand env (S (now s1)) mod 9000 = rand env (S (now s2)) mod 9000)%Z).
Proof.
  split; split.
  - intros H.
    change (Ok ("idem-" ++ str (clock env (now s1)) ++ "-"
                ++ str (100000 + rand env (S (now s1)) mod 900000))
            = (Ok ("idem-" ++ str (clock env (now s2)) ++ "-"
                   ++ str (100000 + rand env (S (now s2)) mod 900000))
               : Res string)) in H.
    injection H as H.
    apply identifier_draws in H as [Ht Hr];
      [split; [exact Ht | lia] | |];
      exact (drawn_suffix _ 100000 999999 ltac:(lia)).
  - intros [Ht Hr].
    change (Ok ("idem-" ++ str (clock env (now s1)) ++ "-"
                ++ str (100000 + rand env (S (now s1)) mod 900000))
            = (Ok ("idem-" ++ str (clock env (now s2)) ++ "-"
                   ++ str (100000 + rand env (S (now s2)) mod 900000))
               : Res string)).
    now rewrite Ht, Hr.
  - intros H.
    change (Ok ("wallet-" ++ str (clock env (now s1)) ++ "-"
                ++ str (1000 + rand env (S (now s1)) mod 9000))
            = (Ok ("wallet-" ++ str (clock env (now s2)) ++ "-"
                   ++ str (1000 + rand env (S (now s2)) mod 9000))
               : Res string)) in H.
    injection H as H.
    apply identifier_draws in H as [Ht Hr];
      [split; [exact Ht | lia] | |];
      exact (drawn_suffix _ 1000 9999 ltac:(lia)).
  - intros [Ht Hr].
    change (Ok ("wallet-" ++ str (clock env (now s1)) ++ "-"
                ++ str (1000 + rand env (S (now s1)) mod 9000))
            = (Ok ("wallet-" ++ str (clock env (now s2)) ++ "-"
                   ++ str (1000 + rand env (S (now s2)) mod 9000))
               : Res string)).
    now rewrite Ht, Hr.
Qed.

(** X2.  In [quick_load_test.py], with clock readings after the epoch,
    two identifiers made by [gen_id] are equal only if they have the
    same prefix, the same clock reading and the same random suffix: an
    identifier gives back its three parts.  So a wallet id never equals
    an idempotency key, and two keys collide only within one
    millisecond and on the same one of 9000 suffixes. *)
Theorem gen_id_gives_back_its_parts (env : Env) (prefix1 prefix2 : string)
    (s1 s2 : State (gmap string QuickLoadTest.Counter) Z string) :
  (0 <= clock env (now s1))%Z -> (0 <= clock env (now s2))%Z ->
  fst (QuickLoadTest.gen_id env prefix1 s1)
  = fst (QuickLoadTest.gen_id env prefix2 s2) ->
  prefix1 = prefix2 /\ clock env (now s1) = clock env (now s2) /\
  (rand env (S (now s1)) mod 9000 = rand env (S (now s2)) mod 9000)%Z.
Proof.
  intros H1 H2 H.
  change (Ok (prefix1 ++ "-" ++ str (clock env (now s1)) ++ "-"
              ++ str (1000 + rand env (S (now s1)) mod 9000))
          = (Ok (prefix2 ++ "-" ++ str (clock env (now s2)) ++ "-"
                 ++ str (1000 + rand env (S (now s2)) mod 9000))
             : Res string)) in H.
  injection H as H.
  apply identifier_parts in H as (Hp & Ht & Hr); try assumption;
    [repeat split; [exact Hp | exact Ht | lia] | |];
    exact (drawn_suffix _ 1000 9999 ltac:(lia)).
Qed.

Lemma gen_id_gives_back_its_parts_witness :
  "idem" = "idem" /\
  clock service_up (now QuickLoadTest.start)
  = clock service_up (now QuickLoadTest.start) /\
  (rand service_up (S (now QuickLoadTest.start)) mod 9000
   = rand service_up (S (now QuickLoadTest.start)) mod 9000)%Z.
Proof.
  apply (gen_id_gives_back_its_parts service_up "idem" "idem"
           QuickLoadTest.start QuickLoadTest.start);
    [vm_compute; discriminate | vm_compute; discriminate | reflexivity].
Defined.

(** ** Reading a history *)

Section Histories.
Context {A : Type}.
Implicit Types h evs : list (Event A).

Lemma replies_app h evs :
  created_replies (h ++ evs) = (created_replies h ++ created_replies evs)%list.
Proof. apply flat_map_app. Qed.

Lemma sent_app kind h evs :
  sent_requests kind (h ++ evs)
  = (sent_requests kind h + sent_requests kind evs)%Z.
Proof. unfold sent_requests. rewrite List.filter_app, length_app. lia. Qed.

Lemma accepted_app kind h evs :
  accepted_requests kind (h ++ evs)
  = (accepted_requests kind h + accepted_requests kind evs)%Z.
Proof. unfold accepted_requests. rewrite List.filter_app, length_app. lia. Qed.

Lemma exchanges_app h evs :
  exchanges (h ++ evs) = (exchanges h + exchanges evs)%Z.
Proof. unfold exchanges. rewrite List.filter_app, length_app. lia. Qed.

Lemma sent_chose kind op evs :
  sent_requests kind (Chose op :: evs) = sent_requests kind evs.
Proof. reflexivity. Qed.

Lemma aimed_app ids h evs :
  aimed_at ids h -> aimed_at ids evs -> aimed_at ids (h ++ evs).
Proof. apply Forall_app_2. Qed.

Lemma aimed_more ids ids' h :
  incl ids ids' -> aimed_at ids h -> aimed_at ids' h.
Proof.
  intros Hi. apply List.Forall_impl. intros e He x Hx. apply Hi, He, Hx.
Qed.

Lemma within_app (le : A -> A -> Prop) limits h evs :
  amounts_within le limits h -> amounts_within le limits evs ->
  amounts_within le limits (h ++ evs).
Proof. apply Forall_app_2. Qed.

(** The verifier's report: ledger reads of the sampled wallets and
    nothing else. *)
Lemma report_reads ids evs :
  ledger_report ids evs ->
  created_replies evs = [] /\
  (forall kind, sent_requests kind evs = 0%Z) /\
  (forall kind, accepted_requests kind evs = 0%Z) /\
  exchanges evs = Z.of_nat (length ids) /\
  aimed_at ids evs.
Proof.
  induction 1 as [|wallet_id ids resp line evs _ (IH1 & IH2 & IH3 & IH4 & IH5)].
  - repeat split. constructor.
  - split; [|split; [|split; [|split]]].
    + destruct resp; exact IH1.
    + intros kind. exact (IH2 kind).
    + intros kind. destruct resp; exact (IH3 kind).
    + unfold exchanges in *. cbn [List.filter is_exchange length]. lia.
    + constructor; [intros x [<- | []]; left; reflexivity|].
      constructor; [intros x []|].
      eapply aimed_more; [|exact IH5]. intros x Hx. right. exact Hx.
Qed.

Lemma report_closes ids evs :
  ledger_report ids evs -> Forall (fun e => is_closing e = true) evs.
Proof. induction 1; repeat constructor. assumption. Qed.
End Histories.

Lemma round2_lower (x : Q) (k : Z) :
  (inject_Z k <= x)%Q -> (inject_Z k <= round2 x)%Q.
Proof.
  intros H. unfold round2.
  assert (Hk : (k * 100 <= round_half_even (x * 100))%Z).
  { etransitivity; [|apply floor_le_round].
    rewrite <- (Qfloor_Z (k * 100)). apply Qfloor_resp_le.
    rewrite inject_Z_mult. change (inject_Z 100) with 100%Q. lra. }
  rewrite Zle_Qle, inject_Z_mult in Hk.
  change (inject_Z 100) with 100%Q in Hk. hundredths. lra.
Qed.

Lemma steps_invariant {T} (step : T -> T -> Prop) (I : T -> Prop) n s s' :
  steps step n s s' -> (forall a b, step a b -> I a -> I b) -> I s -> I s'.
Proof.
  intros H Hstep. induction H as [s | n s s1 s2 H1 _ IH]; [tauto|].
  intros Hs. apply IH. eapply Hstep; eassumption.
Qed.

(** ** [load_test_wallets.py]: the population, the requests and the
    counters *)

Section LoadTestAccounts.
Import LoadTestWallets LoadTestWalletsRuns LoadTestWalletsAccounts.

(** What one operation leaves in the history. *)
Lemma run_requests wallets op evs o :
  run wallets op evs o ->
  created_replies evs = [] /\
  (forall kind,
     accepted_requests kind evs
     = if String.eqb op kind
       then match o with Succeeded => 1 | Failed => 0 end
       else 0)%Z /\
  (forall kind,
     0 <= sent_requests kind evs <= if String.eqb op kind then 1 else 0)%Z /\
  (0 <= exchanges evs <= 2)%Z /\
  aimed_at (map id wallets) evs.
Proof.
  assert (Hin : forall w, In w wallets -> incl [id w] (map id wallets)).
  { intros w Hw x [<- | []]. now apply in_map. }
  destruct 1; try destruct accepted;
    (split; [reflexivity|]);
    (split; [intros kind; unfold accepted_requests;
             cbn [List.filter is_accepted is_request request_kind reply_of
                  outcome_of];
             destruct (String.eqb _ kind); reflexivity|]);
    (split; [intros kind; unfold sent_requests;
             cbn [List.filter is_request request_kind];
             destruct (String.eqb _ kind); cbn [length]; lia|]);
    (split; [unfold exchanges; cbn [List.filter is_exchange length]; lia|]);
    repeat constructor; cbn [wallets_named]; auto.
  all: intros name [<- | [<- | []]]; now apply in_map.
Qed.

Lemma credit_is_sent wallets evs o :
  run wallets "credit" evs o -> wallets <> [] ->
  sent_requests "credit" evs = 1%Z.
Proof.
  intros H. inversion H; subst; [contradiction | reflexivity].
Qed.

Lemma run_within wallets op evs o :
  run wallets op evs o -> amounts_within Qle limits evs.
Proof.
  assert (Hd : forall d, (max_debit d <= inject_Z 500)%Q)
    by (intros d; apply Q.le_min_r).
  assert (Ht : forall d, (max_transfer d <= inject_Z 300)%Q)
    by (intros d; apply Q.le_min_r).
  destruct 1; unfold amounts_within;
    repeat first [apply List.Forall_nil | apply List.Forall_cons];
    intros a lo hi; try discriminate;
    intros [= <-] [= <- <-]; split;
    try (apply (round2_lower _ 10); assumption).
  - now apply (round2_upper _ 1000).
  - apply (round2_upper _ 500). eapply Qle_trans; [eassumption | apply Hd].
  - apply (round2_upper _ 300). eapply Qle_trans; [eassumption | apply Ht].
Qed.

Lemma successes_counted kind op o c :
  In op operation_kinds ->
  successes kind (counted op o c) =
  (successes kind c
   + if String.eqb op kind
     then match o with Succeeded => 1 | Failed => 0 end
     else 0)%Z.
Proof.
  intros Hop. rewrite (String.eqb_sym op kind). unfold successes, counted.
  destruct Hop as [<- | [<- | [<- | []]]]; destruct o; ground_eqb;
    destruct (String.eqb_spec kind "credit");
    destruct (String.eqb_spec kind "debit");
    destruct (String.eqb_spec kind "transfer");
    try congruence;
    cbn [incr_credits_success incr_credits_failed incr_debits_success
         incr_debits_failed incr_transfers_success incr_transfers_failed
         credits_success debits_success transfers_success]; lia.
Qed.

Lemma built_creation s s' : creation_step s s' -> built s -> built s'.
Proof.
  intros (key & wid & oid & x & _ & _ & H) [Hp Hn].
  destruct H as [(w & Hcw & Hlog & Hst) | (Hcw & Hlog & Hst)];
    unfold built; rewrite Hcw, Hlog, Hst, replies_app.
  - destruct w as [i o b]. cbn [id ownerId balance created_replies flat_map app].
    rewrite Hp at 1. split; [reflexivity|].
    cbn [incr_wallets_created wallets_created]. rewrite length_app, Hn.
    cbn [length]. lia.
  - cbn [created_replies flat_map app]. rewrite app_nil_r.
    split; [exact Hp | exact Hn].
Qed.

Lemma built_operation s s' : operation_step s s' -> built s -> built s'.
Proof.
  intros (Hcw & op & evs & o & _ & Hrun & Hlog & Hst) [Hp Hn].
  destruct (run_requests _ _ _ _ Hrun) as (Hr & _).
  destruct (wallets_counted op o (stats s)) as [Hwc _].
  unfold built. rewrite Hcw, Hlog, Hst, Hwc, replies_app.
  change (created_replies (Chose op :: evs)) with (created_replies evs).
  rewrite Hr, app_nil_r. split; assumption.
Qed.

Lemma built_verified s s' : verified id 5 s s' -> built s -> built s'.
Proof.
  intros (Hst & Hcw & sample & rest & evs & _ & _ & Hrep & Hlog) [Hp Hn].
  destruct (report_reads _ _ Hrep) as (Hr & _).
  unfold built. rewrite Hcw, Hlog, Hst, replies_app, Hr, app_nil_r.
  split; assumption.
Qed.

Lemma built_printed line s : built s -> built (printed line s).
Proof.
  intros [Hp Hn]. unfold built. cbn [printed created_wallets log stats].
  rewrite replies_app. cbn [created_replies flat_map]. rewrite app_nil_r.
  split; assumption.
Qed.

Lemma built_start : built start.
Proof. split; reflexivity. Qed.

Lemma operations_keep_population n s s' :
  steps operation_step n s s' -> created_wallets s' = created_wallets s.
Proof.
  induction 1 as [s | n s s1 s2 H1 _ IH]; [reflexivity|].
  rewrite IH. apply H1.
Qed.

(** A property of the store that every phase of [main] keeps holds
    when [main] ends.  The operations run on a population that is not
    empty. *)
Lemma main_run_invariant (I : State Stats Q WalletJson -> Prop)
    nw nops r s :
  main_run nw nops r s -> I start ->
  (forall a b, creation_step a b -> I a -> I b) ->
  (forall a b, operation_step a b -> created_wallets a <> [] -> I a -> I b) ->
  (forall a b, verified id 5 a b -> I a -> I b) ->
  (forall line a, I a -> I (printed line a)) ->
  I s.
Proof.
  intros H H0 Hc Ho Hv Hp.
  destruct H as [s1 H1 _ | s1 s2 s3 H1 NE H2 H3].
  - apply Hp. eapply steps_invariant; eassumption.
  - apply (Hv s2 s3 H3).
    assert (Hne : created_wallets s1 <> []).
    { destruct (steps_invariant _ built _ _ _ H1 built_creation built_start)
        as [_ Hn].
      intros E. rewrite E in Hn. apply NE. exact Hn. }
    apply (steps_invariant _ (fun a => I a /\ created_wallets a <> []) _ _ _ H2);
      [|split; [eapply steps_invariant; eassumption | exact Hne]].
    intros a b Hab [Ha Hna]. split; [exact (Ho a b Hab Hna Ha)|].
    destruct Hab as [E _]. rewrite E. exact Hna.
Qed.

Lemma successes_of_creation kind c :
  successes kind (incr_wallets_created c) = successes kind c /\
  successes kind (incr_wallets_failed c) = successes kind c.
Proof.
  unfold successes.
  destruct (String.eqb kind "credit"); [split; reflexivity|].
  destruct (String.eqb kind "debit"); [split; reflexivity|].
  destruct (String.eqb kind "transfer"); split; reflexivity.
Qed.

Lemma accepted_among_sent {A} kind (h : list (Event A)) :
  (0 <= accepted_requests kind h <= sent_requests kind h)%Z.
Proof.
  unfold accepted_requests, sent_requests.
  induction h as [|e h IH]; [cbn; lia|].
  cbn [List.filter].
  assert (He : is_accepted kind e = true -> is_request kind e = true).
  { destruct e as [|req resp|]; try discriminate.
    destruct resp; try discriminate. exact (fun H => H). }
  destruct (is_accepted kind e); [rewrite He by reflexivity|];
    [|destruct (is_request kind e)]; cbn [length]; lia.
Qed.

End LoadTestAccounts.

Section LoadTestFurther.
Import LoadTestWallets LoadTestWalletsRuns LoadTestWalletsAccounts.
Variable env : Env.

Lemma load_test_aims nw nops :
  let s := snd (main_with env nw nops start) in
  aimed_at (map id (created_wallets s)) (log s).
Proof.
  intros s. subst s.
  apply (main_run_invariant
           (fun s => aimed_at (map id (created_wallets s)) (log s))
           nw nops _ _ (main_with_run env nw nops)).
  - constructor.
  - intros a b (key & wid & oid & x & _ & _ & H) Ha.
    destruct H as [(w & Hcw & Hlog & _) | (Hcw & Hlog & _)];
      rewrite Hcw, Hlog;
      (apply aimed_app; [|repeat constructor; intros y []]).
    + eapply aimed_more; [|exact Ha]. rewrite map_app. apply incl_appl, incl_refl.
    + exact Ha.
  - intros a b (Hcw & op & evs & o & _ & Hrun & Hlog & _) _ Ha.
    rewrite Hcw, Hlog. apply aimed_app; [exact Ha|].
    constructor; [intros y []|]. now apply (run_requests _ _ _ _ Hrun).
  - intros a b (_ & Hcw & sample & rest & evs & _ & Hperm & Hrep & Hlog) Ha.
    rewrite Hcw, Hlog. apply aimed_app; [exact Ha|].
    eapply aimed_more; [|now apply (report_reads _ _ Hrep)].
    apply incl_map. intros w Hw.
    eapply Permutation_in; [exact Hperm|]. apply in_or_app. now left.
  - intros line a Ha. cbn [printed created_wallets log].
    apply aimed_app; [exact Ha|]. repeat constructor. intros y [].
Qed.

Lemma load_test_successes nw nops kind :
  let s := snd (main_with env nw nops start) in
  successes kind (stats s) = accepted_requests kind (log s).
Proof.
  intros s. subst s.
  apply (main_run_invariant
           (fun s => successes kind (stats s) = accepted_requests kind (log s))
           nw nops _ _ (main_with_run env nw nops)).
  - unfold successes. cbn.
    destruct (String.eqb kind "credit"); [reflexivity|].
    destruct (String.eqb kind "debit"); [reflexivity|].
    destruct (String.eqb kind "transfer"); reflexivity.
  - intros a b (key & wid & oid & x & _ & _ & H) Ha.
    destruct (successes_of_creation kind (stats a)) as [E1 E2].
    destruct H as [(w & _ & Hlog & Hst) | (_ & Hlog & Hst)];
      rewrite Hlog, Hst, accepted_app, <- Ha;
      [rewrite E1 | rewrite E2];
      unfold accepted_requests at 1;
      cbn [List.filter is_accepted length]; lia.
  - intros a b (_ & op & evs & o & Hop & Hrun & Hlog & Hst) _ Ha.
    destruct (run_requests _ _ _ _ Hrun) as (_ & Hacc & _).
    rewrite Hlog, Hst, accepted_app, successes_counted, Ha by exact Hop.
    change (accepted_requests kind (Chose op :: evs))
      with (accepted_requests kind evs).
    now rewrite Hacc.
  - intros a b (Hst & _ & sample & rest & evs & _ & _ & Hrep & Hlog) Ha.
    destruct (report_reads _ _ Hrep) as (_ & _ & Hacc & _).
    rewrite Hlog, Hst, accepted_app, Hacc, Ha. lia.
  - intros line a Ha. cbn [printed stats log].
    rewrite accepted_app, <- Ha. unfold accepted_requests at 1.
    cbn [List.filter is_accepted length]. lia.
Qed.

Lemma load_test_sends nw nops :
  let s := snd (main_with env nw nops start) in
  (forall kind, sent_requests kind (log s) <= attempts kind (log s))%Z /\
  sent_requests "credit" (log s) = attempts "credit" (log s).
Proof.
  intros s. subst s.
  apply (main_run_invariant
           (fun s =>
              (forall kind, sent_requests kind (log s) <= attempts kind (log s))%Z /\
              sent_requests "credit" (log s) = attempts "credit" (log s))
           nw nops _ _ (main_with_run env nw nops)).
  - split; [intros kind; reflexivity | reflexivity].
  - intros a b (key & wid & oid & x & _ & _ & H) [Hk Hc].
    assert (Hlog : exists resp,
               log b = (log a ++ [Http (PostWallets key wid oid (round2 x))
                                       resp])%list).
    { destruct H as [(w & _ & -> & _) | (_ & -> & _)]; eauto. }
    destruct Hlog as [resp ->].
    split; [intros kind; specialize (Hk kind)|];
      rewrite sent_app, attempts_app;
      change (sent_requests _ [Http (PostWallets key wid oid (round2 x)) resp])
        with 0%Z;
      change (attempts _ [Http (PostWallets key wid oid (round2 x)) resp])
        with 0%Z; lia.
  - intros a b (_ & op & evs & o & Hop & Hrun & Hlog & _) Hne [Hk Hc].
    destruct (run_requests _ _ _ _ Hrun) as (_ & _ & Hsent & _).
    destruct (run_quiet _ _ _ _ Hrun) as [Hq _].
    rewrite Hlog.
    split; [intros kind; specialize (Hk kind); specialize (Hsent kind)
           | specialize (Hsent "credit")];
      rewrite sent_app, attempts_app, attempts_chose, Hq, sent_chose.
    + destruct (String.eqb op kind); lia.
    + destruct (String.eqb_spec op "credit") as [-> | _]; [|lia].
      rewrite (credit_is_sent _ _ _ Hrun Hne). lia.
  - intros a b (_ & _ & sample & rest & evs & _ & _ & Hrep & Hlog) [Hk Hc].
    destruct (report_reads _ _ Hrep) as (_ & Hsent & _).
    destruct (report_quiet _ _ Hrep) as (Hq & _).
    rewrite Hlog.
    split; [intros kind; specialize (Hk kind)|];
      rewrite sent_app, attempts_app, Hsent, Hq; lia.
  - intros line a [Hk Hc]. cbn [printed log].
    split; [intros kind; specialize (Hk kind)|];
      rewrite sent_app, attempts_app;
      change (sent_requests _ [Console line]) with 0%Z;
      change (attempts _ [Console line]) with 0%Z; lia.
Qed.

Lemma load_test_ranges nw nops :
  amounts_within Qle limits (log (snd (main_with env nw nops start))).
Proof.
  apply (main_run_invariant (fun s => amounts_within Qle limits (log s))
           nw nops _ _ (main_with_run env nw nops)).
  - constructor.
  - intros a b (key & wid & oid & x & Hlo & Hhi & H) Ha.
    assert (Hlog : exists resp,
               log b = (log a ++ [Http (PostWallets key wid oid (round2 x))
                                       resp])%list).
    { destruct H as [(w & _ & -> & _) | (_ & -> & _)]; eauto. }
    destruct Hlog as [resp ->].
    apply within_app; [exact Ha|].
    apply List.Forall_cons; [|apply List.Forall_nil].
    intros c lo hi [= <-] [= <- <-].
    split; [now apply (round2_lower _ 100) | now apply (round2_upper _ 10000)].
  - intros a b (_ & op & evs & o & _ & Hrun & Hlog & _) _ Ha.
    rewrite Hlog. apply within_app; [exact Ha|].
    apply List.Forall_cons; [discriminate|]. eapply run_within; eassumption.
  - intros a b (_ & _ & sample & rest & evs & _ & _ & Hrep & Hlog) Ha.
    rewrite Hlog. apply within_app; [exact Ha|].
    destruct (report_quiet _ _ Hrep) as (_ & _ & Hn & _).
    eapply List.Forall_impl; [|exact Hn]. intros e He c lo hi Hc. congruence.
  - intros line a Ha. cbn [printed log]. apply within_app; [exact Ha|].
    apply List.Forall_cons; [discriminate | apply List.Forall_nil].
Qed.

Lemma creation_exchanges n s s' :
  steps creation_step n s s' ->
  exchanges (log s') = (exchanges (log s) + Z.of_nat n)%Z.
Proof.
  induction 1 as [s | n s s1 s2 H1 _ IH]; [lia|].
  rewrite IH. destruct H1 as (key & wid & oid & x & _ & _ & H).
  destruct H as [(w & _ & -> & _) | (_ & -> & _)];
    rewrite exchanges_app; unfold exchanges at 2;
    cbn [List.filter is_exchange length]; lia.
Qed.

Lemma operation_exchanges n s s' :
  steps operation_step n s s' ->
  (exchanges (log s) <= exchanges (log s')
   <= exchanges (log s) + 2 * Z.of_nat n)%Z.
Proof.
  induction 1 as [s | n s s1 s2 H1 _ IH]; [lia|].
  destruct H1 as (_ & op & evs & o & _ & Hrun & Hlog & _).
  destruct (run_requests _ _ _ _ Hrun) as (_ & _ & _ & Hex & _).
  rewrite Hlog, exchanges_app in IH.
  change (exchanges (Chose op :: evs)) with (exchanges evs) in IH. lia.
Qed.

Lemma load_test_exchanges nw nops :
  let s := snd (main_with env nw nops start) in
  (Z.max 0 nw <= exchanges (log s) <= Z.max 0 nw + 2 * Z.max 0 nops + 5)%Z.
Proof.
  intros s. subst s.
  destruct (main_with_run env nw nops) as [s1 H1 _ | s1 s2 s3 H1 _ H2 H3].
  - cbn [printed log]. rewrite exchanges_app.
    rewrite (creation_exchanges _ _ _ H1).
    change (exchanges (log start)) with 0%Z.
    change (exchanges [Console "No wallets created. Exiting..."]) with 0%Z. lia.
  - pose proof (creation_exchanges _ _ _ H1) as E1.
    pose proof (operation_exchanges _ _ _ H2) as E2.
    destruct H3 as (_ & _ & sample & rest & evs & Hlen & _ & Hrep & ->).
    destruct (report_reads _ _ Hrep) as (_ & _ & _ & E3 & _).
    rewrite length_map in E3.
    rewrite exchanges_app, E3.
    change (exchanges (log start)) with 0%Z in E1. lia.
Qed.

Lemma attempt_on_nobody n i op s :
  created_wallets s = [] -> In op operation_kinds ->
  attempt env n i op s
  = (Ok tt, mkState (now s) (counted op Failed (stats s)) [] (log s)).
Proof.
  destruct s as [t c cw h]. cbn [created_wallets]. intros ->.
  intros [<- | [<- | [<- | []]]]; reflexivity.
Qed.
End LoadTestFurther.

(** X3.  A run of [load_test_wallets.py] ends in one of two ways,
    whatever the service answers: normally, with exit status 0, when at
    least one wallet was created, however the operations and the ledger
    reads went; or through the [sys.exit(1)] of the guard, with status
    1, when none was.  No failure of the service makes an exception
    leave [main]: the handlers of the [__main__] block are not entered,
    the block hands on what [main] did. *)
Theorem load_test_exit_status (env : Env) (nw nops : Z) :
  let r := LoadTestWallets.dunder_main (LoadTestWallets.main_with env nw nops)
             LoadTestWallets.start in
  r = LoadTestWallets.main_with env nw nops LoadTestWallets.start /\
  ((LoadTestWallets.wallets_created (stats (snd r)) <> 0%Z /\
    fst r = Ok tt /\ exit_status (fst r) = 0%Z) \/
   (LoadTestWallets.wallets_created (stats (snd r)) = 0%Z /\
    fst r = Raise (SystemExit 1) /\ exit_status (fst r) = 1%Z)).
Proof.
  intros r. subst r. unfold LoadTestWallets.dunder_main.
  pose proof (main_with_run env nw nops) as H.
  destruct (LoadTestWallets.main_with env nw nops LoadTestWallets.start)
    as [r s].
  cbn [fst snd] in H.
  destruct H as [s1 H1 E | s1 s2 s3 H1 NE H2 H3]; cbn [fst snd exit_status];
    (split; [reflexivity|]).
  - right. cbn [printed stats]. repeat split. exact E.
  - left. destruct H3 as (Hst & _).
    rewrite Hst, (operations_keep_created _ _ _ H2). repeat split. exact NE.
Qed.

(** X4.  When [main] of [load_test_wallets.py] ends, in either way, the
    population [created_wallets] is exactly the list of the wallets
    with which the service answered the creation requests, in the
    order of the requests, and [stats["wallets_created"]] is its
    length: the wallets are known by what the service returned, not by
    the ids the script generated, and the guard on the counter is a
    guard on the population being empty. *)
Theorem load_test_population_is_what_was_created (env : Env) (nw nops : Z) :
  let s := snd (LoadTestWallets.main_with env nw nops LoadTestWallets.start) in
  created_wallets s = created_replies (log s) /\
  LoadTestWallets.wallets_created (stats s)
  = Z.of_nat (length (created_wallets s)).
Proof.
  intros s. subst s.
  apply (main_run_invariant LoadTestWalletsAccounts.built
           nw nops _ _ (main_with_run env nw nops)).
  - apply built_start.
  - apply built_creation.
  - intros a b H _. now apply built_operation.
  - apply built_verified.
  - apply built_printed.
Qed.

(** X5.  Every credit, debit and transfer request, every balance read
    and every ledger read of a run of [load_test_wallets.py] names
    wallets of the population only, the destination of a transfer
    included. *)
Theorem load_test_requests_name_population (env : Env) (nw nops : Z) :
  let s := snd (LoadTestWallets.main_with env nw nops LoadTestWallets.start) in
  aimed_at (map id (created_wallets s)) (log s).
Proof. apply load_test_aims. Qed.

(** X6.  In [load_test_wallets.py] a success is counted for an
    operation exactly when its request was accepted by the service:
    at the end of [main] each of [credits_success], [debits_success]
    and [transfers_success] is the number of accepted requests of its
    kind in the history. *)
Theorem load_test_successes_are_accepted (env : Env) (nw nops : Z) :
  let s := snd (LoadTestWallets.main_with env nw nops LoadTestWallets.start) in
  LoadTestWallets.credits_success (stats s)
  = accepted_requests "credit" (log s) /\
  LoadTestWallets.debits_success (stats s)
  = accepted_requests "debit" (log s) /\
  LoadTestWallets.transfers_success (stats s)
  = accepted_requests "transfer" (log s).
Proof.
  intros s. subst s. split; [|split].
  - exact (load_test_successes env nw nops "credit").
  - exact (load_test_successes env nw nops "debit").
  - exact (load_test_successes env nw nops "transfer").
Qed.

(** X7.  [load_test_wallets.py] never repeats a request: for every
    kind, the requests of that kind that went out are at most as many
    as the times the kind was drawn, and the accepted ones are among
    them.  A credit that was drawn is always sent: the credit requests
    are as many as the credits drawn. *)
Theorem load_test_one_request_per_operation (env : Env) (nw nops : Z) :
  let s := snd (LoadTestWallets.main_with env nw nops LoadTestWallets.start) in
  (forall kind,
     0 <= accepted_requests kind (log s) <= sent_requests kind (log s) /\
     sent_requests kind (log s) <= attempts kind (log s))%Z /\
  sent_requests "credit" (log s) = attempts "credit" (log s).
Proof.
  intros s. subst s.
  destruct (load_test_sends env nw nops) as [Hk Hc].
  split; [|exact Hc].
  intros kind. split; [apply accepted_among_sent | apply Hk].
Qed.

(** X8.  Every amount that [load_test_wallets.py] sends lies in the
    range of its kind after the rounding to two decimals: an initial
    balance in [100, 10000], a credit in [10, 1000], a debit in
    [10, 500], a transfer in [10, 300]. *)
Theorem load_test_amounts_in_range (env : Env) (nw nops : Z) :
  amounts_within Qle LoadTestWalletsAccounts.limits
    (log (snd (LoadTestWallets.main_with env nw nops LoadTestWallets.start))).
Proof. apply load_test_ranges. Qed.

(** X9.  A run of [load_test_wallets.py] makes one exchange with the
    service for each wallet to create, at most two for each operation
    (the balance read and the request) and at most five ledger reads:
    between [nw] and [nw + 2 * nops + 5] exchanges in all, a negative
    count being an empty range. *)
Theorem load_test_exchanges_bounded (env : Env) (nw nops : Z) :
  let s := snd (LoadTestWallets.main_with env nw nops LoadTestWallets.start) in
  (Z.max 0 nw <= exchanges (log s) <= Z.max 0 nw + 2 * Z.max 0 nops + 5)%Z.
Proof. apply load_test_exchanges. Qed.

(** X10.  On an empty population a turn of the operations loop of
    [load_test_wallets.py] makes no exchange at all, whatever the kind:
    [random.choice] raises on the empty list (a transfer is abandoned
    before it), the handler counts the operation as failed, and nothing
    else changes.  This is what the guard after the creation phase
    keeps [main] from doing 200 times. *)
Theorem load_test_operation_on_nobody (env : Env) (n i : Z) (op : string)
    (s : State LoadTestWallets.Stats Q WalletJson) :
  created_wallets s = [] -> In op LoadTestWallets.operation_kinds ->
  LoadTestWallets.attempt env n i op s
  = (Ok tt, mkState (now s)
              (LoadTestWalletsRuns.counted op Failed (stats s)) [] (log s)).
Proof. apply attempt_on_nobody. Qed.

Lemma load_test_operation_on_nobody_witness :
  LoadTestWallets.debits_failed
    (stats (snd (LoadTestWallets.attempt service_up 200 0 "debit"
                   LoadTestWallets.start))) = 1%Z /\
  log (snd (LoadTestWallets.attempt service_up 200 0 "debit"
              LoadTestWallets.start)) = [].
Proof.
  rewrite (load_test_operation_on_nobody service_up 200 0 "debit"
             LoadTestWallets.start);
    [split; reflexivity | reflexivity | right; left; reflexivity].
Defined.

(** ** [quick_load_test.py]: the population, the requests and the
    counters *)

Section QuickAccounts.
Import QuickLoadTest QuickLoadTestRuns QuickLoadTestAccounts.
Variable env : Env.

Ltac split_match :=
  match goal with
  | |- context [match ?x with _ => _ end] =>
      lazymatch x with
      | context [match _ with _ => _ end] => fail
      | _ => destruct x eqn:?
      end
  end.

(** *** The creation phase, with the population *)

Lemma create_wallet_answered (idx : Z) s :
  exists f answer ev s',
    create_wallet env idx s = (Ok f, s') /\ answer_of (Ok f) answer /\
    wallets_answered [answer] [ev] /\
    log s' = (log s ++ [ev])%list /\
    stats s' = stats s /\ created_wallets s' = created_wallets s.
Proof.
  cbv [create_wallet gen_id write_cap post_wallets http_error
       randint randbelow time_ms emit tick
       bind ret raise try_except fst snd now stats created_wallets log].
  repeat split_match; cbv beta iota zeta.
  - eexists _, (Some _), _, _. split; [reflexivity|].
    split; [reflexivity|]. split; [|repeat split].
    constructor; [apply randint_between; lia | constructor].
  - eexists _, None, _, _. split; [reflexivity|].
    split; [eexists _, _; reflexivity|]. split; [|repeat split].
    constructor; [apply randint_between; lia | constructor].
Qed.

Lemma answered_cons answer ev answers evs :
  wallets_answered [answer] [ev] -> wallets_answered answers evs ->
  wallets_answered (answer :: answers) (ev :: evs).
Proof. inversion 1; subst; intros; now constructor. Qed.

Lemma record_wallet_answered f answer s :
  tracked (stats s) -> answer_of (Ok f) answer ->
  exists s', record_wallet f s = (Ok tt, s') /\
    stats s' = tally1 (stats s) (answer_outcome answer) /\ log s' = log s /\
    created_wallets s' = (created_wallets s ++ created_ids [answer])%list.
Proof.
  intros Ht Hf. destruct (Ht "wallets") as [c Hc]; [left; reflexivity|].
  unfold tally1, answer_outcome. cbn [fst snd]. rewrite Hc.
  destruct answer as [w|].
  - injection Hf as ->.
    eexists. unfold record_wallet, bind, append_wallet, add_success, bind,
      read_stats, set_stats. cbn [stats]. rewrite Hc. repeat split.
  - destruct Hf as (e & wid & [= ->]).
    eexists. unfold record_wallet, add_failed, bind, read_stats, set_stats.
    rewrite Hc. cbn [created_ids flat_map]. rewrite app_nil_r. repeat split.
Qed.

Lemma created_ids_cons answer answers :
  created_ids (answer :: answers)
  = (created_ids [answer] ++ created_ids answers)%list.
Proof. unfold created_ids. cbn [flat_map]. now rewrite app_nil_r. Qed.

Lemma creation_loop_answered (xs : list Z) : forall s,
  tracked (stats s) ->
  exists answers evs s',
    for_each xs
      (fun i => let* r := create_wallet env i in
                record_wallet r ;;; sleep (1 # 20)) s = (Ok tt, s') /\
    wallets_answered answers evs /\ length answers = length xs /\
    log s' = (log s ++ evs)%list /\
    stats s' = tally_all (map answer_outcome answers) (stats s) /\
    created_wallets s' = (created_wallets s ++ created_ids answers)%list.
Proof.
  induction xs as [|x xs IH]; intros s Ht.
  - exists [], [], s. repeat split; [constructor | ..]; now rewrite app_nil_r.
  - destruct (create_wallet_answered x s)
      as (f & answer & ev & s1 & Hrun & Hf & Hans & Hlog & Hst & Hcw).
    destruct (record_wallet_answered f answer s1)
      as (s2 & Hrec & Hst2 & Hlog2 & Hcw2); [now rewrite Hst | exact Hf |].
    destruct (IH s2)
      as (answers & rest & s' & Hloop & Hmade & Hlen & Hlog' & Hst' & Hcw').
    { rewrite Hst2. apply tracked_tally1. now rewrite Hst. }
    exists (answer :: answers), (ev :: rest), s'.
    split; [|split; [|split; [|split; [|split]]]].
    + cbn [for_each]. unfold bind at 1, bind at 1. rewrite Hrun.
      unfold bind at 1. rewrite Hrec. exact Hloop.
    + now apply answered_cons.
    + cbn [length]. now rewrite Hlen.
    + rewrite Hlog', Hlog2, Hlog, <- app_assoc. reflexivity.
    + rewrite Hst', Hst2, Hst. reflexivity.
    + rewrite Hcw', Hcw2, Hcw, (created_ids_cons answer answers), <- app_assoc.
      reflexivity.
Qed.

Lemma submit_answered (xs : list Z) : forall s,
  exists futures answers evs s',
    submit_all (map (create_wallet env) xs) s = (Ok futures, s') /\
    Forall2 answer_of futures answers /\
    wallets_answered answers evs /\ length answers = length xs /\
    log s' = (log s ++ evs)%list /\ stats s' = stats s /\
    created_wallets s' = created_wallets s.
Proof.
  induction xs as [|x xs IH]; intros s.
  - exists [], [], [], s. repeat split; [constructor.. | now rewrite app_nil_r].
  - destruct (create_wallet_answered x s)
      as (f & answer & ev & s1 & Hrun & Hf & Hans & Hlog & Hst & Hcw).
    destruct (IH s1)
      as (fs & answers & rest & s' & Hsub & Hfut & Hmade & Hlen & Hlog'
          & Hst' & Hcw').
    exists (Ok f :: fs), (answer :: answers), (ev :: rest), s'.
    split; [|split; [|split; [|split; [|split; [|split]]]]].
    + cbn [map submit_all]. unfold bind at 1, submit at 1. rewrite Hrun.
      unfold bind at 1. rewrite Hsub. reflexivity.
    + now constructor.
    + now apply answered_cons.
    + cbn [length]. now rewrite Hlen.
    + rewrite Hlog', Hlog, <- app_assoc. reflexivity.
    + congruence.
    + congruence.
Qed.

Lemma record_answered done : forall answers s,
  Forall2 answer_of done answers -> tracked (stats s) ->
  exists s',
    for_each done (fun future => let* r := result future in record_wallet r) s
    = (Ok tt, s') /\
    stats s' = tally_all (map answer_outcome answers) (stats s) /\
    log s' = log s /\
    created_wallets s' = (created_wallets s ++ created_ids answers)%list.
Proof.
  induction done as [|f done IH]; intros answers s Hfut Ht.
  - inversion Hfut; subst. exists s. repeat split. now rewrite app_nil_r.
  - inversion Hfut as [|f' answer done' answers' Hf Hrest]; subst.
    assert (exists r, f = Ok r) as [r ->].
    { destruct answer; [|destruct Hf as (e & w & ->)]; eauto. }
    destruct (record_wallet_answered r answer s Ht Hf)
      as (s1 & Hrec & Hst1 & Hlog1 & Hcw1).
    destruct (IH answers' s1 Hrest) as (s' & Hloop & Hst' & Hlog' & Hcw').
    { rewrite Hst1. now apply tracked_tally1. }
    exists s'. split; [|split; [|split]].
    + cbn [for_each]. unfold bind at 1, bind at 1, result, ret.
      rewrite Hrec. exact Hloop.
    + rewrite Hst', Hst1. reflexivity.
    + congruence.
    + rewrite Hcw', Hcw1, (created_ids_cons answer answers'), <- app_assoc.
      reflexivity.
Qed.

Lemma create_wallets_built (args : Args) s :
  tracked (stats s) -> (fast args = true -> (0 < workers args)%Z) ->
  fst (create_wallets env args s) = Ok tt /\
  population_built (negb (fast args)) (Z.to_nat (wallets args)) s
    (snd (create_wallets env args s)).
Proof.
  intros Ht Hw. unfold create_wallets, population_built.
  destruct (fast args).
  - unfold executor. specialize (Hw eq_refl).
    destruct (Z.leb_spec (workers args) 0) as [Hle | _]; [lia|].
    destruct (submit_answered (range (wallets args)) s)
      as (fs & answers & evs & s1 & Hsub & Hfut & Hmade & Hlen & Hlog & Hst
          & Hcw).
    destruct (as_completed_permutes env fs s1)
      as (done & s2 & Hdone & Hperm & Hst2 & Hcw2 & Hlog2).
    destruct (Permutation_Forall2 (Permutation_sym Hperm) Hfut)
      as (answers' & Hperm' & Hfut').
    destruct (record_answered done answers' s2 Hfut')
      as (s3 & Hrec & Hst3 & Hlog3 & Hcw3);
      [rewrite Hst2, Hst; exact Ht|].
    match goal with
    | |- fst (?c s) = _ /\ _ => assert (E : c s = (Ok tt, s3))
    end.
    { unfold bind at 1. rewrite Hsub. unfold bind at 1. rewrite Hdone.
      exact Hrec. }
    rewrite E. cbn [fst snd]. split; [reflexivity|].
    exists answers, answers', evs. rewrite range_length in Hlen.
    split; [exact Hmade|]. split; [now apply Permutation_sym|].
    split; [discriminate|]. split; [exact Hlen|].
    split; [congruence|]. split; congruence.
  - destruct (creation_loop_answered (range (wallets args)) s Ht)
      as (answers & evs & s' & Hloop & Hmade & Hlen & Hlog & Hst & Hcw).
    rewrite Hloop. cbn [fst snd]. split; [reflexivity|].
    exists answers, answers, evs. rewrite range_length in Hlen.
    repeat split; try assumption. reflexivity.
Qed.

Lemma built_tracked sequential n s s' :
  population_built sequential n s s' -> tracked (stats s) -> tracked (stats s').
Proof.
  intros (started & completed & evs & _ & _ & _ & _ & _ & -> & _).
  apply tracked_tally_all.
Qed.

Lemma no_worker (args : Args) s :
  fast args = true -> (workers args <= 0)%Z ->
  main env args s = (Raise (Exception "ValueError"), s).
Proof.
  intros Hf Hw. unfold main, bind, create_wallets, executor. rewrite Hf.
  destruct (Z.leb_spec (workers args) 0) as [_ | H]; [reflexivity | lia].
Qed.

(** The runs of [main], for every command line. *)
Lemma quick_main_history (args : Args) :
  main_history args (fst (main env args start)) (snd (main env args start)).
Proof.
  destruct (fast args) eqn:Hf.
  - destruct (Z.leb_spec (workers args) 0) as [Hw | Hw].
    + rewrite no_worker by assumption. now constructor.
    + assert (Hfw : fast args = true -> (0 < workers args)%Z) by (intros _; lia).
      rewrite main_phases.
      destruct (create_wallets_built args start tracked_start Hfw)
        as [Hok1 Hph1].
      destruct (create_wallets env args start) as [[[]|e] s1];
        cbn [fst snd] in *; [|discriminate].
      destruct (created_wallets s1) as [|w ws] eqn:Hcw.
      * now apply history_returned.
      * pose proof (built_tracked _ _ _ _ Hph1 tracked_start) as Ht.
        destruct (run_operations_phase env args s1 Ht Hfw) as [Hok2 Hph2].
        destruct (run_operations env args s1) as [[[]|e] s2];
          cbn [fst snd] in *; [|discriminate].
        destruct (quick_verify_verified env s2) as [Hok3 Hver].
        destruct (verify env s2) as [[[]|e] s3]; cbn [fst snd] in *;
          [|discriminate].
        eapply history_completed; try eassumption. congruence.
  - assert (Hfw : fast args = true -> (0 < workers args)%Z) by congruence.
    rewrite main_phases.
    destruct (create_wallets_built args start tracked_start Hfw)
      as [Hok1 Hph1].
    destruct (create_wallets env args start) as [[[]|e] s1];
      cbn [fst snd] in *; [|discriminate].
    destruct (created_wallets s1) as [|w ws] eqn:Hcw.
    + now apply history_returned.
    + pose proof (built_tracked _ _ _ _ Hph1 tracked_start) as Ht.
      destruct (run_operations_phase env args s1 Ht Hfw) as [Hok2 Hph2].
      destruct (run_operations env args s1) as [[[]|e] s2];
        cbn [fst snd] in *; [|discriminate].
      destruct (quick_verify_verified env s2) as [Hok3 Hver].
      destruct (verify env s2) as [[[]|e] s3]; cbn [fst snd] in *;
        [|discriminate].
      eapply history_completed; try eassumption. congruence.
Qed.
End QuickAccounts.

Section QuickRequests.
Import QuickLoadTest QuickLoadTestRuns QuickLoadTestAccounts.

(** What one call of [perform_operation] leaves in the history. *)
Lemma quick_run_requests wallet_ids op evs o :
  run wallet_ids op evs o ->
  created_replies evs = [] /\
  (forall kind,
     accepted_requests kind evs
     = if String.eqb op kind
       then match o with Succeeded => 1 | Failed => 0 end
       else 0)%Z /\
  (forall kind,
     0 <= sent_requests kind evs <= if String.eqb op kind then 1 else 0)%Z /\
  (0 <= exchanges evs <= 1)%Z /\
  aimed_at wallet_ids evs /\
  amounts_within Z.le limits evs.
Proof.
  destruct 1; try destruct accepted;
    (split; [reflexivity|]);
    (split; [intros kind; unfold accepted_requests;
             cbn [List.filter is_accepted is_request request_kind reply_of
                  outcome_of];
             destruct (String.eqb _ kind); reflexivity|]);
    (split; [intros kind; unfold sent_requests;
             cbn [List.filter is_request request_kind];
             destruct (String.eqb _ kind); cbn [length]; lia|]);
    (split; [unfold exchanges; cbn [List.filter is_exchange length]; lia|]);
    (split; [repeat first [apply List.Forall_nil | apply List.Forall_cons];
             cbn [wallets_named];
             intros name Hn; cbn [In] in Hn; decompose [or] Hn; subst;
             first [assumption | contradiction]|]);
    unfold amounts_within;
    repeat first [apply List.Forall_nil | apply List.Forall_cons];
    intros a lo hi [= <-] [= <- <-]; assumption.
Qed.

Lemma quick_request_is_sent wallet_ids op evs o :
  run wallet_ids op evs o -> wallet_ids <> [] ->
  op = "credit" \/ op = "debit" ->
  sent_requests op evs = 1%Z.
Proof.
  intros H Hne [-> | ->]; inversion H; subst;
    first [contradiction | reflexivity].
Qed.

Lemma won_cons kind t ts :
  won kind (t :: ts) =
  ((if String.eqb (fst t) kind
    then match snd t with Succeeded => 1 | Failed => 0 end
    else 0) + won kind ts)%Z.
Proof.
  unfold won. cbn [List.filter].
  destruct (String.eqb (fst t) kind); [destruct (snd t)|]; cbn [andb flag length];
    lia.
Qed.

Lemma won_permuted kind ts ts' :
  Permutation ts ts' -> won kind ts = won kind ts'.
Proof. induction 1; rewrite ?won_cons; lia. Qed.

Lemma won_others kind ts :
  Forall (fun t => fst t <> kind) ts -> won kind ts = 0%Z.
Proof.
  induction 1 as [|t ts Ht _ IH]; [reflexivity|].
  rewrite won_cons, IH.
  destruct (String.eqb_spec (fst t) kind); [contradiction | reflexivity].
Qed.

Lemma successes_tally1 kind st t :
  is_Some (st !! fst t) ->
  successes kind (tally1 st t) =
  (successes kind st
   + if String.eqb (fst t) kind
     then match snd t with Succeeded => 1 | Failed => 0 end
     else 0)%Z.
Proof.
  intros [c Hc]. unfold tally1, successes. rewrite Hc, lookup_insert.
  destruct (String.eqb_spec (fst t) kind) as [E | NE].
  - rewrite decide_True by exact E. rewrite <- E, Hc.
    destruct (snd t); cbn; lia.
  - rewrite decide_False by exact NE. lia.
Qed.

Lemma successes_tally_all kind ts : forall st,
  tracked st -> Forall (fun t => In (fst t) stats_keys) ts ->
  successes kind (tally_all ts st) = (successes kind st + won kind ts)%Z.
Proof.
  induction ts as [|t ts IH]; intros st Ht Hts.
  - cbn. unfold won. cbn. lia.
  - inversion Hts as [|? ? Hk Hrest]; subst.
    cbn [tally_all fold_left]. fold (tally_all ts (tally1 st t)).
    rewrite IH by (try apply tracked_tally1; assumption).
    rewrite successes_tally1 by (apply Ht; assumption).
    rewrite won_cons. lia.
Qed.

(** What the operations phase leaves in the history. *)
Lemma made_requests wallet_ids ts evs :
  made wallet_ids ts evs ->
  created_replies evs = [] /\
  (forall kind, accepted_requests kind evs = won kind ts) /\
  (forall kind, 0 <= sent_requests kind evs <= occurrences kind ts)%Z /\
  (wallet_ids <> [] -> forall kind, kind = "credit" \/ kind = "debit" ->
     sent_requests kind evs = occurrences kind ts) /\
  (0 <= exchanges evs <= Z.of_nat (length ts))%Z /\
  aimed_at wallet_ids evs /\
  amounts_within Z.le limits evs.
Proof.
  induction 1 as [|op o evs ts rest Hop Hrun _
                   (IH1 & IH2 & IH3 & IH4 & IH5 & IH6 & IH7)].
  - split; [reflexivity|]. split; [reflexivity|].
    split; [intros kind; cbv; split; congruence|].
    split; [reflexivity|]. split; [cbv; split; congruence|].
    split; apply List.Forall_nil.
  - destruct (quick_run_requests _ _ _ _ Hrun)
      as (H1 & H2 & H3 & H4 & H5 & H6).
    split; [|split; [|split; [|split; [|split; [|split]]]]].
    + change (created_replies (Chose op :: evs ++ rest))
        with (created_replies (evs ++ rest)).
      now rewrite replies_app, H1, IH1.
    + intros kind.
      change (accepted_requests kind (Chose op :: evs ++ rest))
        with (accepted_requests kind (evs ++ rest)).
      rewrite accepted_app, H2, IH2, won_cons. cbn [fst snd].
      destruct o; reflexivity.
    + intros kind. specialize (H3 kind). specialize (IH3 kind).
      rewrite sent_chose, sent_app, occurrences_cons. cbn [fst].
      destruct (String.eqb op kind); lia.
    + intros Hne kind Hk. specialize (H3 kind).
      rewrite sent_chose, sent_app, occurrences_cons, (IH4 Hne kind Hk).
      cbn [fst].
      destruct (String.eqb_spec op kind) as [-> | _]; [|lia].
      rewrite (quick_request_is_sent _ _ _ _ Hrun Hne Hk). lia.
    + change (exchanges (Chose op :: evs ++ rest))
        with (exchanges (evs ++ rest)).
      rewrite exchanges_app. cbn [length]. lia.
    + apply List.Forall_cons; [intros name []|]. now apply aimed_app.
    + apply List.Forall_cons; [discriminate|]. now apply within_app.
Qed.

(** What the creation phase leaves in the history. *)
Lemma answered_requests answers evs :
  wallets_answered answers evs ->
  map id (created_replies evs) = created_ids answers /\
  (forall kind, sent_requests kind evs = 0%Z) /\
  (forall kind, accepted_requests kind evs = 0%Z) /\
  (forall kind, attempts kind evs = 0%Z) /\
  exchanges evs = Z.of_nat (length answers) /\
  (forall ids, aimed_at ids evs) /\
  amounts_within Z.le limits evs.
Proof.
  induction 1 as [|key wid oid a w answers rest Ha _
                   (IH1 & IH2 & IH3 & IH4 & IH5 & IH6 & IH7)
                  |key wid oid a answers rest Ha _
                   (IH1 & IH2 & IH3 & IH4 & IH5 & IH6 & IH7)].
  - repeat split; try reflexivity; intros; apply List.Forall_nil.
  - split; [|split; [|split; [|split; [|split; [|split]]]]].
    + change (id w :: map id (created_replies rest)
              = id w :: created_ids answers).
      now rewrite IH1.
    + intros kind. exact (IH2 kind).
    + intros kind. exact (IH3 kind).
    + intros kind. exact (IH4 kind).
    + unfold exchanges in *. cbn [List.filter is_exchange length]. lia.
    + intros ids. apply List.Forall_cons; [intros name [] | apply IH6].
    + apply List.Forall_cons; [|exact IH7].
      intros b lo hi [= <-] [= <- <-]. exact Ha.
  - split; [|split; [|split; [|split; [|split; [|split]]]]].
    + exact IH1.
    + intros kind. exact (IH2 kind).
    + intros kind. exact (IH3 kind).
    + intros kind. exact (IH4 kind).
    + unfold exchanges in *. cbn [List.filter is_exchange length]. lia.
    + intros ids. apply List.Forall_cons; [intros name [] | apply IH6].
    + apply List.Forall_cons; [|exact IH7].
      intros b lo hi [= <-] [= <- <-]. exact Ha.
Qed.

Lemma answers_won answers :
  won "wallets" (map answer_outcome answers)
  = Z.of_nat (length (created_ids answers)) /\
  Forall (fun t => fst t = "wallets") (map answer_outcome answers).
Proof.
  induction answers as [|[w|] answers [IH1 IH2]].
  - split; [reflexivity | constructor].
  - split; [|constructor; [reflexivity | exact IH2]].
    cbn [map]. rewrite won_cons, IH1. cbn [answer_outcome fst snd].
    change (String.eqb "wallets" "wallets") with true. cbv iota.
    change (created_ids (Some w :: answers)) with (id w :: created_ids answers).
    cbn [length]. lia.
  - split; [|constructor; [reflexivity | exact IH2]].
    cbn [map]. rewrite won_cons, IH1. cbn [answer_outcome fst snd].
    change (String.eqb "wallets" "wallets") with true. cbv iota.
    reflexivity.
Qed.

Lemma epilogue_report {A} ids sample rest (evs : list (Event A)) :
  Permutation (sample ++ rest) ids -> (length sample <= 5)%nat ->
  ledger_report sample evs -> epilogue ids evs.
Proof.
  intros Hperm Hlen Hrep.
  destruct (report_reads _ _ Hrep) as (H1 & H2 & H3 & H4 & H5).
  destruct (report_quiet _ _ Hrep) as (Hq & _ & Hn & _).
  repeat split; try assumption; try lia;
    [|eapply report_closes; eassumption].
  eapply aimed_more; [|exact H5]. intros name Hname.
  eapply Permutation_in; [exact Hperm|]. apply in_or_app. now left.
Qed.

Lemma epilogue_line {A} ids line : epilogue ids [@Console A line].
Proof.
  repeat split; try reflexivity; try (cbv; congruence);
    repeat constructor. intros name [].
Qed.

Lemma epilogue_nil {A} ids : epilogue ids (@nil (Event A)).
Proof.
  repeat split; try reflexivity; try (cbv; congruence); constructor.
Qed.
End QuickRequests.

Section QuickFurther.
Import QuickLoadTest QuickLoadTestRuns QuickLoadTestAccounts.
Variable env : Env.

(** The store at the end of [main], for every command line: the
    creations, then the operations on the population, then the
    epilogue. *)
Lemma quick_main_summary (args : Args) :
  let s := snd (main env args start) in
  exists answers done1 evs1 ts done2 evs2 evs3,
    wallets_answered answers evs1 /\ Permutation done1 answers /\
    (fast args = false -> done1 = answers) /\
    (length answers <= Z.to_nat (wallets args))%nat /\
    created_wallets s = created_ids done1 /\
    made (created_wallets s) ts evs2 /\ (created_wallets s = [] -> ts = []) /\
    Permutation done2 ts /\ (length ts <= Z.to_nat (operations args))%nat /\
    epilogue (created_wallets s) evs3 /\
    log s = (evs1 ++ evs2 ++ evs3)%list /\
    stats s = tally_all done2 (tally_all (map answer_outcome done1) stats0).
Proof.
  intros s. subst s. pose proof (quick_main_history env args) as H.
  destruct (main env args start) as [r s]. cbn [fst snd] in *.
  destruct H as [Hf Hw | s1 H1 E | s1 s2 s3 H1 NE H2 H3].
  - exists [], [], [], [], [], [], [].
    split; [constructor|]. split; [constructor|]. split; [reflexivity|].
    split; [cbn; lia|]. split; [reflexivity|]. split; [constructor|].
    split; [reflexivity|]. split; [constructor|]. split; [cbn; lia|].
    split; [apply epilogue_nil|]. split; reflexivity.
  - destruct H1 as (answers & done1 & evs1 & Hans & Hperm & Hseq & Hlen & Hlog
                    & Hst & Hcw).
    exists answers, done1, evs1, [], [], [],
           [Console "No wallets created. Exiting..."].
    cbn [printed created_wallets log stats].
    split; [exact Hans|]. split; [exact Hperm|].
    split; [intros Hf; apply Hseq; now rewrite Hf|].
    split; [lia|]. split; [exact Hcw|]. split; [constructor|].
    split; [reflexivity|]. split; [constructor|]. split; [cbn; lia|].
    split; [apply epilogue_line|]. split; [now rewrite Hlog | exact Hst].
  - destruct H1 as (answers & done1 & evs1 & Hans & Hperm & Hseq & Hlen & Hlog
                    & Hst & Hcw).
    destruct H2 as (Hcw2 & ts & done2 & evs2 & Hmade & Hperm2 & Hlen2 & Hlog2
                    & Hst2).
    destruct H3 as (Hst3 & Hcw3 & sample & rest & evs3 & Hlen3 & Hperm3 & Hrep
                    & Hlog3).
    exists answers, done1, evs1, ts, done2, evs2, evs3.
    rewrite Hcw3, Hcw2.
    split; [exact Hans|]. split; [exact Hperm|].
    split; [intros Hf; apply Hseq; now rewrite Hf|].
    split; [lia|]. split; [exact Hcw|]. split; [exact Hmade|].
    split; [intros E; elim NE; exact E|].
    split; [exact Hperm2|]. split; [lia|].
    split; [|split].
    + rewrite map_id in Hrep.
      apply (epilogue_report _ sample rest); [|lia | exact Hrep].
      rewrite <- Hcw2. exact Hperm3.
    + rewrite Hlog3, Hlog2, Hlog, <- app_assoc. reflexivity.
    + rewrite Hst3, Hst2, Hst. reflexivity.
Qed.

Lemma successes_start kind : successes kind stats0 = 0%Z.
Proof.
  unfold successes, stats0.
  repeat (rewrite lookup_insert; case_decide; [reflexivity|]).
  now rewrite lookup_empty.
Qed.

Lemma summary_successes kind done1 ts done2 :
  Forall (fun t => In (fst t) operation_kinds) ts -> Permutation done2 ts ->
  successes kind (tally_all done2 (tally_all (map answer_outcome done1) stats0))
  = (won kind (map answer_outcome done1) + won kind ts)%Z.
Proof.
  intros Hts Hperm.
  assert (Hd1 : Forall (fun t => In (fst t) stats_keys)
                  (map answer_outcome done1)).
  { eapply List.Forall_impl; [|apply answers_won].
    intros t ->. left. reflexivity. }
  assert (Hd2 : Forall (fun t => In (fst t) stats_keys) done2).
  { eapply Permutation_Forall; [symmetry; exact Hperm|].
    eapply List.Forall_impl; [|exact Hts]. intros t. apply kinds_are_keys. }
  rewrite successes_tally_all;
    [|apply tracked_tally_all, tracked_start | exact Hd2].
  rewrite successes_tally_all; [|apply tracked_start | exact Hd1].
  rewrite successes_start, (won_permuted kind done2 ts Hperm). lia.
Qed.

Lemma quick_population (args : Args) :
  let s := snd (main env args start) in
  Permutation (created_wallets s) (map id (created_replies (log s))) /\
  (fast args = false ->
   created_wallets s = map id (created_replies (log s))) /\
  successes "wallets" (stats s) = Z.of_nat (length (created_wallets s)).
Proof.
  intros s.
  destruct (quick_main_summary args)
    as (answers & done1 & evs1 & ts & done2 & evs2 & evs3 & Hans & Hperm & Hseq
        & _ & Hcw & Hmade & _ & Hperm2 & _ & Hepi & Hlog & Hst).
  fold s in Hcw, Hmade, Hepi, Hlog, Hst.
  destruct (answered_requests _ _ Hans) as (Hr1 & _).
  destruct (made_requests _ _ _ Hmade) as (Hr2 & _).
  destruct Hepi as (Hr3 & _).
  destruct (made_counts _ _ _ Hmade) as (_ & _ & Hkinds).
  assert (Hrep : map id (created_replies (log s)) = created_ids answers).
  { now rewrite Hlog, !replies_app, Hr2, Hr3, !app_nil_r. }
  rewrite Hrep, Hcw. split; [|split].
  - unfold created_ids. now apply Permutation_flat_map.
  - intros Hf. now rewrite (Hseq Hf).
  - rewrite Hst, (summary_successes _ _ _ _ Hkinds Hperm2).
    destruct (answers_won done1) as [-> _].
    rewrite won_others; [lia|].
    eapply List.Forall_impl; [|exact Hkinds].
    intros t [<- | [<- | [<- | []]]]; discriminate.
Qed.

Lemma quick_aims (args : Args) :
  let s := snd (main env args start) in
  aimed_at (created_wallets s) (log s).
Proof.
  intros s.
  destruct (quick_main_summary args)
    as (answers & done1 & evs1 & ts & done2 & evs2 & evs3 & Hans & _ & _
        & _ & _ & Hmade & _ & _ & _ & Hepi & Hlog & _).
  fold s in Hmade, Hepi, Hlog. rewrite Hlog.
  apply aimed_app; [now apply (answered_requests _ _ Hans)|].
  apply aimed_app; [now apply (made_requests _ _ _ Hmade) | apply Hepi].
Qed.

Lemma quick_successes (args : Args) (op : string) :
  In op operation_kinds ->
  let s := snd (main env args start) in
  successes op (stats s) = accepted_requests op (log s).
Proof.
  intros Hop s.
  destruct (quick_main_summary args)
    as (answers & done1 & evs1 & ts & done2 & evs2 & evs3 & Hans & _ & _
        & _ & _ & Hmade & _ & Hperm2 & _ & Hepi & Hlog & Hst).
  fold s in Hmade, Hepi, Hlog, Hst.
  destruct (answered_requests _ _ Hans) as (_ & _ & Ha1 & _).
  destruct (made_requests _ _ _ Hmade) as (_ & Ha2 & _).
  destruct Hepi as (_ & _ & Ha3 & _).
  destruct (made_counts _ _ _ Hmade) as (_ & _ & Hkinds).
  rewrite Hlog, !accepted_app, Ha1, Ha2, Ha3, Hst.
  rewrite (summary_successes _ _ _ _ Hkinds Hperm2).
  rewrite (won_others op (map answer_outcome done1)); [lia|].
  eapply List.Forall_impl; [|apply answers_won].
  intros t ->. destruct Hop as [<- | [<- | [<- | []]]]; discriminate.
Qed.

Lemma quick_sends (args : Args) :
  let s := snd (main env args start) in
  (forall kind, sent_requests kind (log s) <= attempts kind (log s))%Z /\
  sent_requests "credit" (log s) = attempts "credit" (log s) /\
  sent_requests "debit" (log s) = attempts "debit" (log s).
Proof.
  intros s.
  destruct (quick_main_summary args)
    as (answers & done1 & evs1 & ts & done2 & evs2 & evs3 & Hans & _ & _
        & _ & _ & Hmade & Hnone & _ & _ & Hepi & Hlog & _).
  fold s in Hmade, Hnone, Hepi, Hlog.
  destruct (answered_requests _ _ Hans) as (_ & Hs1 & _ & Hq1 & _).
  destruct (made_requests _ _ _ Hmade) as (_ & _ & Hs2 & Hs2' & _).
  destruct Hepi as (_ & Hs3 & _ & Hq3 & _).
  destruct (made_counts _ _ _ Hmade) as (Hq2 & _).
  assert (E : forall kind,
             sent_requests kind (log s) = sent_requests kind evs2 /\
             attempts kind (log s) = occurrences kind ts).
  { intros kind.
    rewrite Hlog, !sent_app, !attempts_app, Hs1, Hs3, Hq1, Hq3, Hq2. lia. }
  assert (Hall : forall kind,
             kind = "credit" \/ kind = "debit" ->
             sent_requests kind (log s) = attempts kind (log s)).
  { intros kind Hk. destruct (E kind) as [-> ->].
    destruct (created_wallets s) as [|w ws] eqn:Hcw.
    - rewrite (Hnone eq_refl) in *. inversion Hmade; subst. reflexivity.
    - apply Hs2'; [discriminate | exact Hk]. }
  split; [|split; apply Hall; auto].
  intros kind. destruct (E kind) as [-> ->]. apply Hs2.
Qed.

Lemma quick_ranges (args : Args) :
  amounts_within Z.le limits (log (snd (main env args start))).
Proof.
  destruct (quick_main_summary args)
    as (answers & done1 & evs1 & ts & done2 & evs2 & evs3 & Hans & _ & _
        & _ & _ & Hmade & _ & _ & _ & Hepi & Hlog & _).
  cbv zeta in Hlog. rewrite Hlog.
  apply within_app; [now apply (answered_requests _ _ Hans)|].
  apply within_app; [now apply (made_requests _ _ _ Hmade)|].
  destruct Hepi as (_ & _ & _ & _ & _ & _ & Hn & _).
  eapply List.Forall_impl; [|exact Hn]. intros e He c lo hi Hc. congruence.
Qed.

Lemma quick_exchanges (args : Args) :
  (0 <= exchanges (log (snd (main env args start)))
   <= Z.max 0 (wallets args) + Z.max 0 (operations args) + 5)%Z.
Proof.
  destruct (quick_main_summary args)
    as (answers & done1 & evs1 & ts & done2 & evs2 & evs3 & Hans & _ & _
        & Hlen1 & _ & Hmade & _ & _ & Hlen2 & Hepi & Hlog & _).
  cbv zeta in Hlog. rewrite Hlog, !exchanges_app.
  destruct (answered_requests _ _ Hans) as (_ & _ & _ & _ & He1 & _).
  destruct (made_requests _ _ _ Hmade) as (_ & _ & _ & _ & He2 & _).
  destruct Hepi as (_ & _ & _ & _ & He3 & _). lia.
Qed.

Lemma perform_unknown (op : string) (wallet_ids : list string) s :
  ~ In op operation_kinds ->
  perform_operation env op wallet_ids s = (Ok None, s).
Proof.
  intros Hop. unfold perform_operation, try_except.
  destruct (String.eqb_spec op "credit") as [-> | _];
    [elim Hop; left; reflexivity|].
  destruct (String.eqb_spec op "debit") as [-> | _];
    [elim Hop; right; left; reflexivity|].
  destruct (String.eqb_spec op "transfer") as [-> | _];
    [elim Hop; right; right; left; reflexivity|].
  reflexivity.
Qed.

Lemma perform_on_nobody (op : string) s :
  In op operation_kinds ->
  exists e,
    perform_operation env op [] s
    = (Ok (Some (mkResult false op None (Some e))), s).
Proof.
  intros [<- | [<- | [<- | []]]]; eexists; reflexivity.
Qed.
End QuickFurther.

(** X11.  In the parallel mode of [quick_load_test.py] a worker count
    that is not positive makes [ThreadPoolExecutor] raise [ValueError]
    at the first thing [main] does with it: the exception leaves
    [main], the process ends with status 1, and nothing was sent,
    counted or created. *)
Theorem quick_nonpositive_workers (env : Env) (args : QuickLoadTest.Args)
    (s : State (gmap string QuickLoadTest.Counter) Z string) :
  QuickLoadTest.fast args = true -> (QuickLoadTest.workers args <= 0)%Z ->
  QuickLoadTest.main env args s = (Raise (Exception "ValueError"), s) /\
  exit_status (fst (QuickLoadTest.main env args s)) = 1%Z.
Proof.
  intros Hf Hw. rewrite (no_worker env args s Hf Hw). split; reflexivity.
Qed.

Lemma quick_nonpositive_workers_witness :
  log (snd (QuickLoadTest.main service_up (QuickLoadTest.mkArgs 100 200 true 0)
              QuickLoadTest.start)) = [] /\
  exit_status (fst (QuickLoadTest.main service_up
                      (QuickLoadTest.mkArgs 100 200 true 0)
                      QuickLoadTest.start)) = 1%Z.
Proof.
  destruct (quick_nonpositive_workers service_up
              (QuickLoadTest.mkArgs 100 200 true 0) QuickLoadTest.start)
    as [H1 H2]; [reflexivity | cbn; lia |].
  rewrite H1 in *. split; [reflexivity | exact H2].
Defined.

(** X12.  When [main] of [quick_load_test.py] ends, the population
    [created_wallets] holds the ids of the wallets with which the
    service answered the creation requests, each once: in the order of
    the requests in the sequential mode, in the order of completion (a
    permutation of it) in the parallel mode; and
    [stats["wallets"]["success"]] is its length. *)
Theorem quick_population_is_what_was_created (env : Env)
    (args : QuickLoadTest.Args) :
  let s := snd (QuickLoadTest.main env args QuickLoadTest.start) in
  Permutation (created_wallets s) (map id (created_replies (log s))) /\
  (QuickLoadTest.fast args = false ->
   created_wallets s = map id (created_replies (log s))) /\
  QuickLoadTestAccounts.successes "wallets" (stats s)
  = Z.of_nat (length (created_wallets s)).
Proof. apply quick_population. Qed.

(** X13.  Every credit, debit and transfer request and every ledger
    read of a run of [quick_load_test.py] names wallets of the
    population only, the destination of a transfer included. *)
Theorem quick_requests_name_population (env : Env)
    (args : QuickLoadTest.Args) :
  let s := snd (QuickLoadTest.main env args QuickLoadTest.start) in
  aimed_at (created_wallets s) (log s).
Proof. apply quick_aims. Qed.

(** X14.  In [quick_load_test.py], in both modes, the success counter
    of each operation kind is at the end the number of requests of that
    kind that the service accepted: a result enters the statistics
    once, as a success exactly when its request was accepted. *)
Theorem quick_successes_are_accepted (env : Env) (args : QuickLoadTest.Args) :
  let s := snd (QuickLoadTest.main env args QuickLoadTest.start) in
  QuickLoadTestAccounts.successes "credit" (stats s)
  = accepted_requests "credit" (log s) /\
  QuickLoadTestAccounts.successes "debit" (stats s)
  = accepted_requests "debit" (log s) /\
  QuickLoadTestAccounts.successes "transfer" (stats s)
  = accepted_requests "transfer" (log s).
Proof.
  intros s. subst s. split; [|split]; apply quick_successes.
  - left. reflexivity.
  - right. left. reflexivity.
  - right. right. left. reflexivity.
Qed.

(** X15.  [quick_load_test.py] never repeats a request: for every
    kind, the requests that went out are at most as many as the times
    the kind was drawn, and the accepted ones are among them.  A credit
    and a debit that were drawn are always sent, since no balance is
    looked at: their requests are as many as the draws. *)
Theorem quick_one_request_per_operation (env : Env)
    (args : QuickLoadTest.Args) :
  let s := snd (QuickLoadTest.main env args QuickLoadTest.start) in
  (forall kind,
     0 <= accepted_requests kind (log s) <= sent_requests kind (log s) /\
     sent_requests kind (log s) <= attempts kind (log s))%Z /\
  sent_requests "credit" (log s) = attempts "credit" (log s) /\
  sent_requests "debit" (log s) = attempts "debit" (log s).
Proof.
  intros s. subst s.
  destruct (quick_sends env args) as (Hk & Hc & Hd).
  split; [|split; assumption].
  intros kind. split; [apply accepted_among_sent | apply Hk].
Qed.

(** X16.  Every amount that [quick_load_test.py] sends lies in the
    range given to [random.randint] for its kind: an initial balance
    in 100..5000, a credit in 10..500, a debit in 10..200, a transfer
    in 10..300. *)
Theorem quick_amounts_in_range (env : Env) (args : QuickLoadTest.Args) :
  amounts_within Z.le QuickLoadTestAccounts.limits
    (log (snd (QuickLoadTest.main env args QuickLoadTest.start))).
Proof. apply quick_ranges. Qed.

(** X17.  A run of [quick_load_test.py] makes at most one exchange
    with the service for each wallet to create, at most one for each
    operation, and at most five ledger reads. *)
Theorem quick_exchanges_bounded (env : Env) (args : QuickLoadTest.Args) :
  (0 <= exchanges (log (snd (QuickLoadTest.main env args QuickLoadTest.start)))
   <= Z.max 0 (QuickLoadTest.wallets args)
      + Z.max 0 (QuickLoadTest.operations args) + 5)%Z.
Proof. apply quick_exchanges. Qed.

(** X18.  For an [op_type] other than credit, debit and transfer,
    [perform_operation] does nothing and falls off its end: it returns
    [None], and the caller's [result["success"]] then raises
    [TypeError]. *)
Theorem quick_unknown_operation (env : Env) (op : string)
    (wallet_ids : list string)
    (s : State (gmap string QuickLoadTest.Counter) Z string) :
  ~ In op QuickLoadTest.operation_kinds ->
  QuickLoadTest.perform_operation env op wallet_ids s = (Ok None, s) /\
  (let* r := QuickLoadTest.perform_operation env op wallet_ids in
   QuickLoadTest.record_operation r) s
  = (Raise (Exception "TypeError"), s).
Proof.
  intros Hop. pose proof (perform_unknown env op wallet_ids s Hop) as H.
  split; [exact H|]. unfold bind. rewrite H. reflexivity.
Qed.

Lemma quick_unknown_operation_witness :
  fst (QuickLoadTest.perform_operation service_up "refund" ["w1"; "w2"]
         QuickLoadTest.start) = Ok None.
Proof.
  destruct (quick_unknown_operation service_up "refund" ["w1"; "w2"]
              QuickLoadTest.start) as [H _].
  - intros [H | [H | [H | []]]]; discriminate H.
  - rewrite H. reflexivity.
Defined.

(** X19.  On an empty list of wallets [perform_operation] makes no
    exchange and draws nothing, whatever the kind: it returns a failed
    result of the kind that was asked for ([random.choice] raises on
    the empty list and the handler turns the exception into a result; a
    transfer is given up before it), and the store is as before. *)
Theorem quick_operation_on_nobody (env : Env) (op : string)
    (s : State (gmap string QuickLoadTest.Counter) Z string) :
  In op QuickLoadTest.operation_kinds ->
  exists e,
    QuickLoadTest.perform_operation env op [] s
    = (Ok (Some (QuickLoadTest.mkResult false op None (Some e))), s).
Proof. apply perform_on_nobody. Qed.

Lemma quick_operation_on_nobody_witness :
  exists e,
    QuickLoadTest.perform_operation service_up "credit" [] QuickLoadTest.start
    = (Ok (Some (QuickLoadTest.mkResult false "credit" None (Some e))),
       QuickLoadTest.start).
Proof.
  apply (quick_operation_on_nobody service_up "credit" QuickLoadTest.start).
  left. reflexivity.
Defined.

Section SmallPopulation.
Context {St A W : Type}.

Lemma whole_sample (name : W -> string) (s s' : State St A W) :
  (length (created_wallets s) <= 5)%nat -> verified name 5 s s' ->
  exists sample evs,
    Permutation sample (created_wallets s) /\
    ledger_report (map name sample) evs /\
    log s' = (log s ++ evs)%list.
Proof.
  intros Hn (_ & _ & sample & rest & evs & Hlen & Hperm & Hrep & Hlog).
  exists sample, evs. split; [|split; assumption].
  pose proof (Permutation_length Hperm) as E. rewrite length_app in E.
  destruct rest; [|cbn [length] in E; lia].
  now rewrite app_nil_r in Hperm.
Qed.
End SmallPopulation.

(** X20.  With at most five wallets in the population the verifier of
    either script reads the ledger of every wallet exactly once: the
    sample is a permutation of the whole population. *)
Theorem small_population_is_checked_whole (env : Env)
    (s : State LoadTestWallets.Stats Q WalletJson)
    (q : State (gmap string QuickLoadTest.Counter) Z string) :
  (length (created_wallets s) <= 5)%nat ->
  (length (created_wallets q) <= 5)%nat ->
  (exists sample evs,
     Permutation sample (created_wallets s) /\
     ledger_report (map id sample) evs /\
     log (snd (LoadTestWallets.verify env s)) = (log s ++ evs)%list) /\
  (exists sample evs,
     Permutation sample (created_wallets q) /\
     ledger_report sample evs /\
     log (snd (QuickLoadTest.verify env q)) = (log q ++ evs)%list).
Proof.
  intros Hs Hq. split.
  - apply (whole_sample id s _ Hs), verify_verified.
  - destruct (whole_sample (fun w : string => w) q _ Hq
                (proj2 (quick_verify_verified env q)))
      as (sample & evs & H1 & H2 & H3).
    exists sample, evs. rewrite map_id in H2. repeat split; assumption.
Qed.

Lemma small_population_is_checked_whole_witness :
  exists sample evs,
    Permutation sample ["w1"; "w2"] /\
    ledger_report sample evs /\
    log (snd (QuickLoadTest.verify service_up two_wallet_ids)) = evs.
Proof.
  destruct (small_population_is_checked_whole service_up two_wallets
              two_wallet_ids) as [_ H]; [cbn; lia | cbn; lia |].
  exact H.
Defined.

(** ** The order of the phases *)

Section LoadTestPhases.
Import LoadTestWallets LoadTestWalletsRuns.

Lemma creation_history n s s' :
  steps creation_step n s s' ->
  exists h, log s' = (log s ++ h)%list /\
            Forall (fun e => is_creation e = true) h /\ length h = n.
Proof.
  induction 1 as [s | n s s1 s2 H1 _ (h & Hlog & Hh & Hlen)].
  - exists []. rewrite app_nil_r. repeat split. constructor.
  - destruct H1 as (key & wid & oid & x & _ & _ & H).
    assert (Hlog1 : exists resp,
               log s1 = (log s ++ [Http (PostWallets key wid oid (round2 x))
                                        resp])%list).
    { destruct H as [(w & _ & -> & _) | (_ & -> & _)]; eauto. }
    destruct Hlog1 as [resp Hlog1].
    exists (Http (PostWallets key wid oid (round2 x)) resp :: h).
    rewrite Hlog, Hlog1, <- app_assoc. split; [reflexivity|].
    split; [constructor; [reflexivity | exact Hh] | cbn [length]; lia].
Qed.

Lemma run_operates wallets op evs o :
  run wallets op evs o -> Forall (fun e => is_operation e = true) evs.
Proof. destruct 1; repeat constructor. Qed.

Lemma operation_history n s s' :
  steps operation_step n s s' ->
  exists h, log s' = (log s ++ h)%list /\
            Forall (fun e => is_operation e = true) h.
Proof.
  induction 1 as [s | n s s1 s2 H1 _ (h & Hlog & Hh)].
  - exists []. rewrite app_nil_r. split; [reflexivity | constructor].
  - destruct H1 as (_ & op & evs & o & _ & Hrun & Hlog1 & _).
    exists ((Chose op :: evs) ++ h)%list.
    rewrite Hlog, Hlog1, <- app_assoc. split; [reflexivity|].
    apply Forall_app_2; [|exact Hh].
    constructor; [reflexivity|]. eapply run_operates; eassumption.
Qed.

Lemma load_test_phases (env : Env) (nw nops : Z) :
  let s := snd (main_with env nw nops start) in
  exists creations operations closing,
    log s = (creations ++ operations ++ closing)%list /\
    phased creations operations closing /\
    length creations = Z.to_nat nw.
Proof.
  intros s. subst s.
  destruct (main_with_run env nw nops) as [s1 H1 _ | s1 s2 s3 H1 _ H2 H3].
  - destruct (creation_history _ _ _ H1) as (h1 & Hlog1 & Hh1 & Hlen).
    exists h1, [], [Console "No wallets created. Exiting..."].
    cbn [printed log]. rewrite Hlog1. split; [reflexivity|].
    split; [|exact Hlen]. split; [exact Hh1|]. split; repeat constructor.
  - destruct (creation_history _ _ _ H1) as (h1 & Hlog1 & Hh1 & Hlen).
    destruct (operation_history _ _ _ H2) as (h2 & Hlog2 & Hh2).
    destruct H3 as (_ & _ & sample & rest & evs & _ & _ & Hrep & Hlog3).
    exists h1, h2, evs.
    rewrite Hlog3, Hlog2, Hlog1, <- app_assoc. split; [reflexivity|].
    split; [|exact Hlen]. split; [exact Hh1|]. split; [exact Hh2|].
    eapply report_closes; eassumption.
Qed.

(** *** A transfer among wallets of one id *)


End LoadTestPhases.

Section QuickPhases.
Import QuickLoadTest QuickLoadTestRuns QuickLoadTestAccounts.

Lemma quick_run_operates wallet_ids op evs o :
  run wallet_ids op evs o -> Forall (fun e => is_operation e = true) evs.
Proof. destruct 1; repeat constructor. Qed.

Lemma made_operates wallet_ids ts evs :
  made wallet_ids ts evs -> Forall (fun e => is_operation e = true) evs.
Proof.
  induction 1 as [|op o evs ts rest _ Hrun _ IH]; [constructor|].
  constructor; [reflexivity|]. apply Forall_app_2; [|exact IH].
  eapply quick_run_operates; eassumption.
Qed.

Lemma answered_creates answers evs :
  wallets_answered answers evs -> Forall (fun e => is_creation e = true) evs.
Proof. induction 1; constructor; auto. Qed.

Lemma quick_phases (env : Env) (args : Args) :
  let s := snd (main env args start) in
  exists creations operations closing,
    log s = (creations ++ operations ++ closing)%list /\
    phased creations operations closing /\
    (length creations <= Z.to_nat (wallets args))%nat.
Proof.
  intros s.
  destruct (quick_main_summary env args)
    as (answers & done1 & evs1 & ts & done2 & evs2 & evs3 & Hans & _ & _
        & Hlen & _ & Hmade & _ & _ & _ & Hepi & Hlog & _).
  fold s in Hmade, Hepi, Hlog.
  exists evs1, evs2, evs3. split; [exact Hlog|]. split.
  - split; [eapply answered_creates; eassumption|].
    split; [eapply made_operates; eassumption | apply Hepi].
  - destruct (answered_requests _ _ Hans) as (_ & _ & _ & _ & He & _).
    pose proof (answered_creates _ _ Hans) as Hc.
    assert (length evs1 = length answers) by
      (clear - Hans; induction Hans; cbn [length]; congruence).
    lia.
Qed.

End QuickPhases.

Section QuickReads.
Import QuickLoadTest QuickLoadTestRuns QuickLoadTestAccounts.

Lemma made_reads_nothing wallet_ids ts evs :
  made wallet_ids ts evs -> Forall (fun e => is_balance_read e = false) evs.
Proof.
  induction 1 as [|op o evs ts rest _ Hrun _ IH]; [constructor|].
  constructor; [reflexivity|]. apply Forall_app_2; [|exact IH].
  destruct Hrun; repeat constructor.
Qed.

Lemma quick_reads_nothing (env : Env) (args : Args) :
  Forall (fun e => is_balance_read e = false)
    (log (snd (main env args start))).
Proof.
  destruct (quick_main_summary env args)
    as (answers & done1 & evs1 & ts & done2 & evs2 & evs3 & Hans & _ & _
        & _ & _ & Hmade & _ & _ & _ & Hepi & Hlog & _).
  cbv zeta in Hlog. rewrite Hlog.
  apply Forall_app_2; [|apply Forall_app_2].
  - clear - Hans. induction Hans; constructor; auto.
  - eapply made_reads_nothing; eassumption.
  - destruct Hepi as (_ & _ & _ & _ & _ & _ & _ & Hc).
    eapply List.Forall_impl; [|exact Hc].
    intros [op | [] resp | line]; cbn; intros H; first [reflexivity | discriminate H].
Qed.
End QuickReads.

(** X21.  The history of a run of [load_test_wallets.py] is in three
    parts that do not mix: first the creation requests, one for each
    wallet to create; then the operations (the kinds drawn, the balance
    reads, the credit, debit and transfer requests); then the ledger
    reads and the closing lines.  No operation is sent before the last
    creation was answered, no ledger is read before the last
    operation. *)
Theorem load_test_phases_in_order (env : Env) (nw nops : Z) :
  let s := snd (LoadTestWallets.main_with env nw nops LoadTestWallets.start) in
  exists creations operations closing,
    log s = (creations ++ operations ++ closing)%list /\
    phased creations operations closing /\
    length creations = Z.to_nat nw.
Proof. apply load_test_phases. Qed.

(** X22.  The same for [quick_load_test.py], in both modes: the
    creation requests, then the operations, then the ledger reads and
    the closing line. *)
Theorem quick_phases_in_order (env : Env) (args : QuickLoadTest.Args) :
  let s := snd (QuickLoadTest.main env args QuickLoadTest.start) in
  exists creations operations closing,
    log s = (creations ++ operations ++ closing)%list /\
    phased creations operations closing /\
    (length creations <= Z.to_nat (QuickLoadTest.wallets args))%nat.
Proof. apply quick_phases. Qed.



(** X24.  [quick_load_test.py] never reads a balance: in no run, in
    neither mode, is there a [GET /wallets/{id}] in the history.  Its
    debits and transfers are sent without a look at the wallet. *)
Theorem quick_never_reads_a_balance (env : Env) (args : QuickLoadTest.Args) :
  Forall (fun e => is_balance_read e = false)
    (log (snd (QuickLoadTest.main env args QuickLoadTest.start))).
Proof. apply quick_reads_nothing. Qed.

(** ** The progress bar *)

Section ProgressBar.

Lemma share_of_total (iteration total : Z) :
  (0 < total)%Z -> (0 <= iteration <= total)%Z ->
  (0 <= inject_Z iteration / inject_Z total /\
   inject_Z iteration / inject_Z total <= 1)%Q.
Proof.
  intros Ht Hi.
  assert (Hpos : (0 < inject_Z total)%Q)
    by (change 0%Q with (inject_Z 0); now rewrite <- Zlt_Qlt).
  split.
  - apply Qle_shift_div_l; [exact Hpos|]. rewrite Qmult_0_l.
    change 0%Q with (inject_Z 0). rewrite <- Zle_Qle. lia.
  - apply Qle_shift_div_r; [exact Hpos|]. rewrite Qmult_1_l.
    rewrite <- Zle_Qle. lia.
Qed.

Lemma int_of_floor (x : Q) : (0 <= x)%Q -> int_of x = Qfloor x.
Proof.
  intros H. unfold int_of. destruct (Qlt_le_dec x 0) as [Hlt | _]; [|reflexivity].
  exfalso. apply (Qlt_not_le _ _ Hlt H).
Qed.

Lemma filled_cells (iteration total length : Z) :
  (0 < total)%Z -> (0 <= iteration <= total)%Z -> (0 <= length)%Z ->
  let filled :=
    int_of (inject_Z length * (inject_Z iteration / inject_Z total)) in
  (0 <= filled <= length)%Z /\
  (iteration = total -> filled = length) /\
  (iteration = 0%Z -> filled = 0%Z).
Proof.
  intros Ht Hi Hl filled. subst filled.
  destruct (share_of_total iteration total Ht Hi) as [H0 H1].
  assert (Hlen : (0 <= inject_Z length)%Q)
    by (change 0%Q with (inject_Z 0); now rewrite <- Zle_Qle).
  set (p := (inject_Z iteration / inject_Z total)%Q) in *.
  assert (Hq0 : (0 <= inject_Z length * p)%Q) by nra.
  assert (Hq1 : (inject_Z length * p <= inject_Z length)%Q) by nra.
  rewrite int_of_floor by exact Hq0.
  split; [split|split].
  - rewrite <- (Qfloor_Z 0). now apply Qfloor_resp_le.
  - rewrite <- (Qfloor_Z length) at 2. now apply Qfloor_resp_le.
  - intros ->. rewrite <- (Qfloor_Z length) at 2. apply Qfloor_comp.
    unfold p. field. intros E.
    assert (Hpos : (0 < inject_Z total)%Q)
      by (change 0%Q with (inject_Z 0); now rewrite <- Zlt_Qlt).
    rewrite E in Hpos. discriminate Hpos.
  - intros ->. rewrite <- (Qfloor_Z 0). apply Qfloor_comp.
    unfold p. change (inject_Z 0) with 0%Q. unfold Qdiv.
    now rewrite Qmult_0_l, Qmult_0_r.
Qed.
End ProgressBar.

(** X25.  For a positive total and an iteration between 0 and the
    total (in the calls of [main] the iteration runs from 1 to the
    total) the progress bar of [load_test_wallets.py] has exactly
    [length] cells; it is all blank at iteration 0 and all filled when
    the iteration is the total.  With a total of 0 the division raises
    [ZeroDivisionError]. *)
Theorem progress_bar_has_its_length (iteration total length : Z) :
  (0 < total)%Z -> (0 <= iteration <= total)%Z -> (0 <= length)%Z ->
  exists bar,
    progress_bar iteration total length = Ok bar /\
    Z.of_nat (Datatypes.length bar) = length /\
    (iteration = total -> bar = repeated Filled length) /\
    (iteration = 0%Z -> bar = repeated Blank length) /\
    progress_bar iteration 0 length = Raise (Exception "ZeroDivisionError").
Proof.
  intros Ht Hi Hl.
  destruct (filled_cells iteration total length Ht Hi Hl) as (Hf & Hfull & Hnone).
  unfold progress_bar. destruct (Z.eqb_spec total 0) as [E | _]; [lia|].
  cbv zeta in *.
  set (filled := int_of (inject_Z length * (inject_Z iteration / inject_Z total)))
    in *.
  eexists. split; [reflexivity|]. unfold repeated. split; [|split; [|split]].
  - rewrite length_app, !repeat_length. lia.
  - intros E. rewrite (Hfull E), Z.sub_diag. cbn [Z.to_nat repeat].
    now rewrite app_nil_r.
  - intros E. rewrite (Hnone E), Z.sub_0_r. reflexivity.
  - reflexivity.
Qed.

Lemma progress_bar_has_its_length_witness :
  exists bar,
    progress_bar 37 200 50 = Ok bar /\ Z.of_nat (Datatypes.length bar) = 50%Z.
Proof.
  destruct (progress_bar_has_its_length 37 200 50) as (bar & H1 & H2 & _);
    [lia | lia | lia |].
  exists bar. split; assumption.
Defined.
